(** * install-pacman-packages: a shallow embedding and its properties

    The development follows [src/install-pacman-packages.py].  Python
    objects live in a store addressed by natural numbers, so that the two
    keys of [pkg_dict] that alias one package share one object.  The
    outside world (the [pacman] module, child processes, archive files) is
    an oracle that answers each request from the history of all earlier
    requests; every request is logged in the state.  Recursion that Python
    leaves unbounded carries a fuel argument: running out of fuel for every
    amount of fuel is unbounded recursion.  CPython ends such a recursion
    with [RecursionError] at a depth that depends on the frames of the
    library code in use; that exception is not modelled, so nothing is
    stated here about a run after its recursion has exceeded every bound.

    Python [str] values are modelled by [string] and are assumed to hold
    ASCII text, so that [len], [lower] and comparison by code point agree
    with the byte-wise functions used here. *)

From Stdlib Require Import ZArith String Ascii List Bool Lia.
From stdpp Require Import base option list gmap strings.
Import ListNotations.

Local Open Scope string_scope.
Local Open Scope Z_scope.

(** ** Python strings *)

Module PyStr.

Definition is_upper (c : ascii) : bool :=
  let n := nat_of_ascii c in ((65 <=? n) && (n <=? 90))%nat.

Definition is_lower (c : ascii) : bool :=
  let n := nat_of_ascii c in ((97 <=? n) && (n <=? 122))%nat.

Definition is_digit (c : ascii) : bool :=
  let n := nat_of_ascii c in ((48 <=? n) && (n <=? 57))%nat.

Definition lower_char (c : ascii) : ascii :=
  if is_upper c then ascii_of_nat (nat_of_ascii c + 32) else c.

(** [str.lower] *)
Fixpoint lower (s : string) : string :=
  match s with
  | EmptyString => EmptyString
  | String c s' => String (lower_char c) (lower s')
  end.

(** Two strings that differ at most in the case of ASCII letters. *)
Fixpoint eq_ignore_case (s t : string) : bool :=
  match s, t with
  | EmptyString, EmptyString => true
  | String c s', String d t' =>
      Ascii.eqb (lower_char c) (lower_char d) && eq_ignore_case s' t'
  | _, _ => false
  end.

(** The line boundaries of [str.splitlines] below code point 128, other
    than carriage return, which may be followed by a line feed. *)
Definition is_linebreak (c : ascii) : bool :=
  let n := nat_of_ascii c in
  ((n =? 10) || (n =? 11) || (n =? 12) || (n =? 28) || (n =? 29) || (n =? 30))%nat.

Definition is_cr (c : ascii) : bool := (nat_of_ascii c =? 13)%nat.
Definition is_lf (c : ascii) : bool := (nat_of_ascii c =? 10)%nat.

Fixpoint splitlines_from (cur : string) (started : bool) (s : string) : list string :=
  match s with
  | EmptyString => if started then [cur] else []
  | String c s' =>
      if is_cr c then
        match s' with
        | String d s'' =>
            if is_lf d then cur :: splitlines_from "" false s''
            else cur :: splitlines_from "" false s'
        | EmptyString => [cur]
        end
      else if is_linebreak c then cur :: splitlines_from "" false s'
      else splitlines_from (cur +:+ String c "") true s'
  end.

(** [str.splitlines] *)
Definition splitlines (s : string) : list string := splitlines_from "" false s.

(** [sep.join(l)] *)
Definition join (sep : string) (l : list string) : string := String.concat sep l.

(** [' ' * n] *)
Fixpoint spaces (n : nat) : string :=
  match n with
  | O => ""
  | S n' => String " " (spaces n')
  end.

(** [len(o)] for a value that is a [str] or [None]. *)
Definition len (o : option string) : option nat := String.length <$> o.

(** What [str.format] prints for a value that is a [str] or [None]. *)
Definition format_value (o : option string) : string := default "None" o.

Definition newline : string := String (ascii_of_nat 10) "".

(** [s.endswith(suffix)] *)
Definition ends_with (suffix s : string) : bool :=
  let n := String.length s in
  let k := String.length suffix in
  (k <=? n)%nat && String.eqb (String.substring (n - k) k s) suffix.

(** [s.startswith(p)] and the rest of [s] after [p]. *)
Fixpoint strip_prefix (p s : string) : option string :=
  match p, s with
  | EmptyString, _ => Some s
  | String a p', String b s' => if Ascii.eqb a b then strip_prefix p' s' else None
  | String _ _, EmptyString => None
  end.

Definition backslash : ascii := ascii_of_nat 92.
Definition apostrophe : ascii := ascii_of_nat 39.
Definition double_quote : ascii := ascii_of_nat 34.

Fixpoint contains (c : ascii) (s : string) : bool :=
  match s with
  | EmptyString => false
  | String d s' => Ascii.eqb c d || contains c s'
  end.

Definition hex_digit (n : nat) : ascii :=
  if (n <? 10)%nat then ascii_of_nat (48 + n) else ascii_of_nat (87 + n).

(** One character of [repr(s)] between the quotes. *)
Definition escape (quote c : ascii) : string :=
  let n := nat_of_ascii c in
  if Ascii.eqb c quote || Ascii.eqb c backslash then String backslash (String c "")
  else if (n =? 9)%nat then String backslash "t"
  else if (n =? 10)%nat then String backslash "n"
  else if (n =? 13)%nat then String backslash "r"
  else if (n <? 32)%nat || (n =? 127)%nat then
    String backslash
      (String "x" (String (hex_digit (n / 16)) (String (hex_digit (n mod 16)) "")))
  else String c "".

Fixpoint escape_all (quote : ascii) (s : string) : string :=
  match s with
  | EmptyString => EmptyString
  | String c s' => escape quote c +:+ escape_all quote s'
  end.

(** [repr(s)] of a [str]: between apostrophes, or between double quotes
    when [s] holds an apostrophe and no double quote; the quote in use,
    the backslash and the control characters are escaped. *)
Definition repr (s : string) : string :=
  let quote :=
    if contains apostrophe s && negb (contains double_quote s)
    then double_quote else apostrophe in
  String quote "" +:+ escape_all quote s +:+ String quote "".

End PyStr.

(** ** Exceptions

    The exception classes of the program and the built-in ones its
    statements can raise.  All of them derive from Python's [Exception]. *)

Inductive Exn : Type :=
  | InvalidPacmanPackageError (message : string)
  | CachedPackageUnavailable (message : string)
  | Exception (message : string)
  | NotImplementedError (message : string)
  | KeyError (key : string)
  | IndexError (message : string)
  | TypeError (message : string)
  | AttributeError (message : string)
  | SystemExit (code : Z).

(** [SystemExit] is the one exception here that [except Exception] lets
    through. *)
Definition is_Exception (e : Exn) : bool :=
  match e with
  | SystemExit _ => false
  | _ => true
  end.

(** [str(e)] *)
Definition str_of_exn (e : Exn) : string :=
  match e with
  | InvalidPacmanPackageError m | CachedPackageUnavailable m | Exception m
  | NotImplementedError m | IndexError m | TypeError m | AttributeError m => m
  | KeyError k => PyStr.repr k
  | SystemExit _ => ""
  end.

(** ** [distutils.version.LooseVersion]

    A version string is cut into maximal runs of digits, maximal runs of
    lower-case letters and maximal runs of other characters; dots separate
    and are dropped; runs of digits become integers.  Two versions compare
    as the lists of their components, and Python 3 refuses to order an
    integer against a string. *)

Module LooseVersion.

Inductive component : Type :=
  | CInt (n : Z)
  | CStr (s : string).

Inductive char_class : Type := Digit | Lower | Dot | Other.

Definition classify (c : ascii) : char_class :=
  if PyStr.is_digit c then Digit
  else if PyStr.is_lower c then Lower
  else if Ascii.eqb c "." then Dot
  else Other.

Definition same_class (k k' : char_class) : bool :=
  match k, k' with
  | Digit, Digit | Lower, Lower | Other, Other => true
  | _, _ => false
  end.

(** [int(obj)] on a run of digits *)
Fixpoint int_of_digits (acc : Z) (s : string) : Z :=
  match s with
  | EmptyString => acc
  | String c s' => int_of_digits (10 * acc + (Z.of_nat (nat_of_ascii c) - 48)) s'
  end.

Definition close_run (k : char_class) (cur : string) : list component :=
  match cur with
  | EmptyString => []
  | _ => match k with
         | Digit => [CInt (int_of_digits 0 cur)]
         | Dot => []
         | Lower | Other => [CStr cur]
         end
  end.

Fixpoint components_from (k : char_class) (cur : string) (s : string) : list component :=
  match s with
  | EmptyString => close_run k cur
  | String c s' =>
      let k' := classify c in
      match k' with
      | Dot => close_run k cur ++ components_from Dot "" s'
      | _ => if same_class k k' then components_from k (cur +:+ String c "") s'
             else close_run k cur ++ components_from k' (String c "") s'
      end
  end.

(** [LooseVersion.parse]: the [version] attribute *)
Definition parse (vstring : string) : list component := components_from Dot "" vstring.

(** Python's [==] on two components *)
Definition component_eqb (x y : component) : bool :=
  match x, y with
  | CInt a, CInt b => (a =? b)%Z
  | CStr a, CStr b => String.eqb a b
  | _, _ => false
  end.

(** Python's [<] on two components; [None] is the [TypeError] *)
Definition component_lt (x y : component) : option bool :=
  match x, y with
  | CInt a, CInt b => Some (a <? b)%Z
  | CStr a, CStr b => Some (String.ltb a b)
  | _, _ => None
  end.

(** Python's [==] on two lists *)
Fixpoint list_eqb (a b : list component) : bool :=
  match a, b with
  | [], [] => true
  | x :: a', y :: b' => component_eqb x y && list_eqb a' b'
  | _, _ => false
  end.

(** Python's [<] on two lists: the first pair of unequal items decides,
    and a proper prefix is smaller. *)
Fixpoint list_lt (a b : list component) : option bool :=
  match a, b with
  | [], [] => Some false
  | [], _ :: _ => Some true
  | _ :: _, [] => Some false
  | x :: a', y :: b' => if component_eqb x y then list_lt a' b' else component_lt x y
  end.

(** [LooseVersion._cmp] on the two [version] attributes; the outer [None]
    is the [TypeError], the inner one the missing return value. *)
Definition _cmp (a b : list component) : option (option Z) :=
  if list_eqb a b then Some (Some 0)
  else match list_lt a b with
       | None => None
       | Some true => Some (Some (-1))
       | Some false =>
           match list_lt b a with
           | None => None
           | Some true => Some (Some 1)
           | Some false => Some None
           end
       end.

(** The [version] attribute exists only when the constructor was given
    a non-empty string. *)
Definition version_attr (vstring : option string) : option (list component) :=
  match vstring with
  | Some (String c s) => Some (parse (String c s))
  | _ => None
  end.

(** [type(x).__name__] *)
Definition type_name (x : component) : string :=
  match x with
  | CInt _ => "int"
  | CStr _ => "str"
  end.

(** The first pair of unequal items of two lists, which [<] compares. *)
Fixpoint first_unequal (a b : list component) : option (component * component) :=
  match a, b with
  | x :: a', y :: b' => if component_eqb x y then first_unequal a' b' else Some (x, y)
  | _, _ => None
  end.

(** The text of the [TypeError] of [a < b]; it names the types of the two
    items in the order of the operands.  The last case is not reached:
    [<] raises only on a pair of unequal items. *)
Definition not_supported (a b : list component) : string :=
  match first_unequal a b with
  | Some (x, y) =>
      "'<' not supported between instances of '" +:+ type_name x +:+ "' and '"
        +:+ type_name y +:+ "'"
  | None => "'<' not supported between instances of 'list' and 'list'"
  end.

(** [LooseVersion(v1) < LooseVersion(v2)]; when [_cmp] returns nothing
    the comparison of its result with 0 raises. *)
Definition lt (v1 v2 : option string) : Exn + bool :=
  match version_attr v1, version_attr v2 with
  | Some a, Some b =>
      match _cmp a b with
      | Some (Some c) => inr (c <? 0)%Z
      | Some None =>
          inl (TypeError "'<' not supported between instances of 'NoneType' and 'int'")
      | None => inl (TypeError (not_supported a b))
      end
  | _, _ => inl (AttributeError "'LooseVersion' object has no attribute 'version'")
  end.

End LooseVersion.

(** ** Packages *)

(** [PackageRepository] *)
Inductive PackageRepository : Type := OFFICIAL | LOCAL.

(** The class of a package object; a [CachedPackage] carries its [path]. *)
Inductive PackageClass : Type :=
  | PackageBase
  | CachedPackage (path : string)
  | OfficialPackage.

(** What [_parse_from_string] returns: [None], a [str] or a [list]. *)
Inductive Parsed : Type :=
  | ParsedNone
  | ParsedStr (value : string)
  | ParsedList (values : list string).

Record Package : Type := mkPackage {
  class_of : PackageClass;
  name : option string;
  version : option string;
  architecture : Parsed;
  repository : option PackageRepository;
  dependencies : list string;
  license : Parsed;
  error_info : option Exn;
  installation_status : Z;
}.

Definition path (p : Package) : option string :=
  match class_of p with
  | CachedPackage f => Some f
  | _ => None
  end.

(** The class attributes of [PackageBase]. *)
Definition class_defaults (c : PackageClass) : Package :=
  {| class_of := c; name := None; version := None; architecture := ParsedNone;
     repository := None; dependencies := []; license := ParsedNone;
     error_info := None; installation_status := 0 |}.

Definition set_name (v : option string) (p : Package) : Package :=
  {| class_of := class_of p; name := v; version := version p;
     architecture := architecture p; repository := repository p;
     dependencies := dependencies p; license := license p;
     error_info := error_info p; installation_status := installation_status p |}.

Definition set_version (v : option string) (p : Package) : Package :=
  {| class_of := class_of p; name := name p; version := v;
     architecture := architecture p; repository := repository p;
     dependencies := dependencies p; license := license p;
     error_info := error_info p; installation_status := installation_status p |}.

Definition set_architecture (v : Parsed) (p : Package) : Package :=
  {| class_of := class_of p; name := name p; version := version p;
     architecture := v; repository := repository p;
     dependencies := dependencies p; license := license p;
     error_info := error_info p; installation_status := installation_status p |}.

Definition set_repository (v : option PackageRepository) (p : Package) : Package :=
  {| class_of := class_of p; name := name p; version := version p;
     architecture := architecture p; repository := v;
     dependencies := dependencies p; license := license p;
     error_info := error_info p; installation_status := installation_status p |}.

Definition set_dependencies (v : list string) (p : Package) : Package :=
  {| class_of := class_of p; name := name p; version := version p;
     architecture := architecture p; repository := repository p;
     dependencies := v; license := license p;
     error_info := error_info p; installation_status := installation_status p |}.

Definition set_license (v : Parsed) (p : Package) : Package :=
  {| class_of := class_of p; name := name p; version := version p;
     architecture := architecture p; repository := repository p;
     dependencies := dependencies p; license := v;
     error_info := error_info p; installation_status := installation_status p |}.

Definition set_error_info (v : option Exn) (p : Package) : Package :=
  {| class_of := class_of p; name := name p; version := version p;
     architecture := architecture p; repository := repository p;
     dependencies := dependencies p; license := license p;
     error_info := v; installation_status := installation_status p |}.

Definition set_installation_status (v : Z) (p : Package) : Package :=
  {| class_of := class_of p; name := name p; version := version p;
     architecture := architecture p; repository := repository p;
     dependencies := dependencies p; license := license p;
     error_info := error_info p; installation_status := v |}.

(** ** The outside world *)

(** One request to the outside world. *)
Inductive Event : Type :=
  | EvIsInstalled (pkg : option string)
  | EvGetInfo (pkg : option string)
  | EvPopen (command : list string) (print_output : bool)
  | EvTarfile (file : option string).

(** The answers of the outside world, each from the requests made so far:
    - [pacman_is_installed]: [pacman.is_installed(name)];
    - [pacman_get_info_Version]: [pacman.get_info(name)['Version']];
    - [popen]: exit code, standard output and standard error of the child
      process, as [run_command] collects them line by line;
    - [tarfile_PKGINFO]: the decoded content of the archive's [.PKGINFO]
      member, [None] when opening, finding or reading it raises;
    - [file_name_groups]: the three groups of the file-name pattern of
      [_parse_file_name] on a path, [None] when it does not match;
    - [pacman_get_available]: the [id] of every entry of
      [pacman.get_available()];
    - [listdir]: the entries of a directory that [os.listdir] can list,
      each with [os.path.isfile] of its full path; a directory that cannot
      be listed is outside the model;
    - [geteuid]: [os.geteuid()]. *)
Record World : Type := mkWorld {
  pacman_is_installed : list Event -> option string -> bool;
  pacman_get_info_Version : list Event -> option string -> string;
  popen : list Event -> list string -> bool -> Z * list string * list string;
  tarfile_PKGINFO : list Event -> option string -> option string;
  file_name_groups : string -> option (string * string * string);
  pacman_get_available : list string;
  listdir : string -> list (string * bool);
  geteuid : Z;
}.

(** The command line as [argparse] returns it. *)
Record Args : Type := mkArgs {
  args_use_cache_only : bool;
  args_cache_dir : string;
  args_force : bool;
  args_package_names : list string;
}.

(** ** Program state *)

Abbreviation addr := nat (only parsing).

(** The module-level globals, the object store, the one dictionary the
    program builds, the requests made so far and the lines printed. *)
Record State : Type := mkState {
  pacman_cache_dir : string;
  packages_in_offical_repositories : list string;
  cached_packages : list addr;
  heap : list Package;
  pkg_dict : gmap string addr;
  trace : list Event;
  console : list string;
}.

Definition with_pacman_cache_dir (d : string) (s : State) : State :=
  {| pacman_cache_dir := d;
     packages_in_offical_repositories := packages_in_offical_repositories s;
     cached_packages := cached_packages s; heap := heap s; pkg_dict := pkg_dict s;
     trace := trace s; console := console s |}.

Definition with_packages_in_offical_repositories (l : list string) (s : State) : State :=
  {| pacman_cache_dir := pacman_cache_dir s;
     packages_in_offical_repositories := l;
     cached_packages := cached_packages s; heap := heap s; pkg_dict := pkg_dict s;
     trace := trace s; console := console s |}.

Definition with_cached_packages (l : list addr) (s : State) : State :=
  {| pacman_cache_dir := pacman_cache_dir s;
     packages_in_offical_repositories := packages_in_offical_repositories s;
     cached_packages := l; heap := heap s; pkg_dict := pkg_dict s;
     trace := trace s; console := console s |}.

Definition with_heap (h : list Package) (s : State) : State :=
  {| pacman_cache_dir := pacman_cache_dir s;
     packages_in_offical_repositories := packages_in_offical_repositories s;
     cached_packages := cached_packages s; heap := h; pkg_dict := pkg_dict s;
     trace := trace s; console := console s |}.

Definition with_pkg_dict (d : gmap string addr) (s : State) : State :=
  {| pacman_cache_dir := pacman_cache_dir s;
     packages_in_offical_repositories := packages_in_offical_repositories s;
     cached_packages := cached_packages s; heap := heap s; pkg_dict := d;
     trace := trace s; console := console s |}.

Definition with_trace (t : list Event) (s : State) : State :=
  {| pacman_cache_dir := pacman_cache_dir s;
     packages_in_offical_repositories := packages_in_offical_repositories s;
     cached_packages := cached_packages s; heap := heap s; pkg_dict := pkg_dict s;
     trace := t; console := console s |}.

Definition with_console (c : list string) (s : State) : State :=
  {| pacman_cache_dir := pacman_cache_dir s;
     packages_in_offical_repositories := packages_in_offical_repositories s;
     cached_packages := cached_packages s; heap := heap s; pkg_dict := pkg_dict s;
     trace := trace s; console := c |}.

(** The object at an address.  Every address the program holds was
    returned by an allocation, so the default is never read. *)
Definition deref (s : State) (a : addr) : Package :=
  default (class_defaults PackageBase) (heap s !! a).

(** ** The monad of the program: state, exceptions and fuel *)

Inductive Result (A : Type) : Type :=
  | Done (a : A) (s : State)
  | Raised (e : Exn) (s : State)
  | OutOfFuel.
Arguments Done {A} a s.
Arguments Raised {A} e s.
Arguments OutOfFuel {A}.

Definition M (A : Type) : Type := State -> Result A.

Definition ret {A} (a : A) : M A := fun s => Done a s.

Definition bind {A B} (m : M A) (k : A -> M B) : M B :=
  fun s => match m s with
           | Done a s' => k a s'
           | Raised e s' => Raised e s'
           | OutOfFuel => OutOfFuel
           end.

Definition raise {A} (e : Exn) : M A := fun s => Raised e s.

Definition out_of_fuel {A} : M A := fun _ => OutOfFuel.

(** [try: m except Exception as e: h e].  Running out of fuel is not an
    exception of the model and passes the handler; what a handler does
    after CPython's [RecursionError] is outside the model. *)
Definition try_except {A} (m : M A) (h : Exn -> M A) : M A :=
  fun s => match m s with
           | Raised e s' => if is_Exception e then h e s' else Raised e s'
           | r => r
           end.

(** [exit(code)] *)
Definition exit {A} (code : Z) : M A := raise (SystemExit code).

Definition get_state : M State := fun s => Done s s.

Definition modify (f : State -> State) : M unit := fun s => Done tt (f s).

Declare Scope py_scope.
Delimit Scope py_scope with py.
Notation "x <- m ;; k" := (bind m (fun x => k))
  (at level 100, m at next level, right associativity) : py_scope.
Notation "'let*' p := m 'in' k" := (bind m (fun p => k))
  (at level 10, p pattern, m at level 100, k at level 200) : py_scope.
Notation "m ;;; k" := (bind m (fun _ => k))
  (at level 100, right associativity) : py_scope.
Local Open Scope py_scope.

(** [for x in l: body x] *)
Fixpoint for_each {A} (l : list A) (body : A -> M unit) : M unit :=
  match l with
  | [] => ret tt
  | x :: l' => body x ;;; for_each l' body
  end.

(** ** Primitive statements *)

(** A new object; its address is the next free one. *)
Definition alloc (p : Package) : M addr :=
  fun s => Done (length (heap s)) (with_heap (heap s ++ [p]) s).

Definition load (a : addr) : M Package := fun s => Done (deref s a) s.

(** An attribute assignment on the object at [a]. *)
Definition update (a : addr) (f : Package -> Package) : M unit :=
  modify (fun s => with_heap (<[a := f (deref s a)]> (heap s)) s).

(** [pkg_dict[key]] *)
Definition dict_get (key : string) : M addr :=
  fun s => match pkg_dict s !! key with
           | Some a => Done a s
           | None => Raised (KeyError key) s
           end.

(** [pkg_dict[key] = pkg] *)
Definition dict_set (key : string) (pkg : addr) : M unit :=
  modify (fun s => with_pkg_dict (<[key := pkg]> (pkg_dict s)) s).

(** [out[0]] *)
Definition list_first (out : list string) : M string :=
  match out with
  | x :: _ => ret x
  | [] => raise (IndexError "list index out of range")
  end.

(** [out[-1]] *)
Definition list_last (out : list string) : M string :=
  match last out with
  | Some x => ret x
  | None => raise (IndexError "list index out of range")
  end.

Definition log_event (e : Event) : M unit :=
  modify (fun s => with_trace (trace s ++ [e]) s).

Definition print (line : string) : M unit :=
  modify (fun s => with_console (console s ++ [line]) s).

(** [ConsoleColors] *)
Module ConsoleColors.
Definition esc : string := String (ascii_of_nat 27) "".
Definition blue : string := esc +:+ "[94m".
Definition green : string := esc +:+ "[92m".
Definition red : string := esc +:+ "[91m".
Definition yellow : string := esc +:+ "[93m".
Definition reset : string := esc +:+ "[0m".
End ConsoleColors.

Definition printInfo (message : string) : M unit :=
  print (ConsoleColors.blue +:+ message +:+ ConsoleColors.reset).

Definition printSuccessfull (message : string) : M unit :=
  print (ConsoleColors.green +:+ message +:+ ConsoleColors.reset).

Definition printWarning (message : string) : M unit :=
  print (ConsoleColors.yellow +:+ message +:+ ConsoleColors.reset).

Definition printError (message : string) : M unit :=
  print (ConsoleColors.red +:+ message +:+ ConsoleColors.reset).

(** Python's truth value of [error_info]: an exception object is true. *)
Definition truthy {A} (o : option A) : bool :=
  match o with Some _ => true | None => false end.

Section Program.

Variable W : World.

(** [run_command]: the child process is a request to the world; with
    [print_output] its output lines are printed, and its error lines are
    read (and printed in red) only when the exit code is not 0. *)
Definition run_command (command : list string) (print_output : bool)
  : M (Z * list string * list string) :=
  s <- get_state ;;
  let '(rc, out, err) := popen W (trace s) command print_output in
  log_event (EvPopen command print_output) ;;;
  if print_output then
    for_each out print ;;;
    if negb (rc =? 0) then for_each err printError ;;; ret (rc, out, err)
    else ret (rc, out, [])
  else ret (rc, out, err).

(** [PackageBase.get_installation_status] *)
Definition get_installation_status (self : addr) : M unit :=
  p <- load self ;;
  s <- get_state ;;
  log_event (EvIsInstalled (name p)) ;;;
  if pacman_is_installed W (trace s) (name p) then
    s' <- get_state ;;
    log_event (EvGetInfo (name p)) ;;;
    let pcm_version := pacman_get_info_Version W (trace s') (name p) in
    if bool_decide (Some pcm_version = version p)
    then update self (set_installation_status 1)
    else update self (set_installation_status 2)
  else update self (set_installation_status 0).

(** [CachedPackage.__init__] with [_parse_file_name] *)
Definition new_CachedPackage (file : string) : M addr :=
  match file_name_groups W file with
  | Some (n, v, a) =>
      alloc (set_architecture (ParsedStr a)
               (set_version (Some v)
                  (set_name (Some n) (class_defaults (CachedPackage file)))))
  | None =>
      alloc (set_error_info
               (Some (InvalidPacmanPackageError
                        ("Failed to parse package file name '" +:+ file +:+ "'")))
               (class_defaults (CachedPackage file)))
  end.

(** [CachedPackage.determine_repository] *)
Definition determine_repository (self : addr) : M unit :=
  p <- load self ;;
  s <- get_state ;;
  if existsb (fun id => bool_decide (Some id = name p)) (packages_in_offical_repositories s)
  then update self (set_repository (Some OFFICIAL))
  else update self (set_repository (Some LOCAL)).

(** [CachedPackage._parse_from_string]: the lines [name = value] with a
    non-empty value. *)
Definition _parse_from_string (key : string) (text : string) : Parsed :=
  let values :=
    omap (fun line =>
            match PyStr.strip_prefix (key +:+ " = ") line with
            | Some (String c rest) => Some (String c rest)
            | _ => None
            end) (PyStr.splitlines text) in
  match values with
  | [] => ParsedNone
  | [v] => ParsedStr v
  | _ => ParsedList values
  end.

(** The substitution of [_get_dependencies_from_alias],
    [re.sub(r'(.+?)(<|<=|>|>=){1}.*?$', r'\1', dep_alias_name)].  [.] does
    not match a line feed and [$] matches at the end of the string or
    before a line feed that ends it, so a match lies in the last line:
    it starts where the line starts and its first group ends before the
    first [<] or [>] that is not the first character of the line. *)

(** What precedes the first [<] or [>] of [s]. *)
Fixpoint before_operator (s : string) : option string :=
  match s with
  | EmptyString => None
  | String c s' =>
      if Ascii.eqb c "<" || Ascii.eqb c ">" then Some EmptyString
      else String c <$> before_operator s'
  end.

(** The substitution on a string without a line feed. *)
Definition cut_constraint (line : string) : string :=
  match line with
  | EmptyString => EmptyString
  | String c s' =>
      match before_operator s' with
      | Some pre => String c pre
      | None => line
      end
  end.

(** [s] without the line feed that ends it, and whether it had one. *)
Fixpoint chomp (s : string) : string * bool :=
  match s with
  | EmptyString => (EmptyString, false)
  | String c EmptyString => if PyStr.is_lf c then (EmptyString, true) else (s, false)
  | String c s' => let '(body, ended) := chomp s' in (String c body, ended)
  end.

(** [s] cut after its last line feed: the lines before the last one, and
    the last line. *)
Fixpoint split_last_line (s : string) : string * string :=
  match s with
  | EmptyString => (EmptyString, EmptyString)
  | String c s' =>
      match split_last_line s' with
      | (EmptyString, line) =>
          if PyStr.is_lf c then (String c EmptyString, line)
          else (EmptyString, String c line)
      | (head, line) => (String c head, line)
      end
  end.

Definition strip_constraint (dep_alias_name : string) : string :=
  let '(body, ended) := chomp dep_alias_name in
  let '(head, line) := split_last_line body in
  head +:+ cut_constraint line +:+ (if ended then PyStr.newline else EmptyString).

(** [CachedPackage._get_dependencies_from_alias] *)
Fixpoint _get_dependencies_from_alias (dep_alias_names : list string) : M (list string) :=
  match dep_alias_names with
  | [] => ret []
  | dep_alias_name :: rest =>
      let dep_alias_name := strip_constraint dep_alias_name in
      let* (rc, out, err) :=
        run_command ["package-query"; "-QASiif"; "%n"; dep_alias_name] false in
      d <- (if negb (rc =? 0) then list_last out else ret dep_alias_name) ;;
      ds <- _get_dependencies_from_alias rest ;;
      ret (d :: ds)
  end.

(** Opening the archive and reading its [.PKGINFO] member. *)
Definition read_PKGINFO (file : option string) : M string :=
  s <- get_state ;;
  log_event (EvTarfile file) ;;;
  match tarfile_PKGINFO W (trace s) file with
  | Some content => ret content
  | None => raise (InvalidPacmanPackageError (PyStr.format_value file))
  end.

(** [CachedPackage.determine_package_info] *)
Definition determine_package_info (self : addr) : M unit :=
  p <- load self ;;
  match repository p with
  | Some LOCAL =>
    try_except
      (pkginfo_file_content <- read_PKGINFO (path p) ;;
       (match _parse_from_string "depend" pkginfo_file_content with
        | ParsedNone => update self (set_dependencies [])
        | ParsedStr d =>
            ds <- _get_dependencies_from_alias [d] ;;
            update self (set_dependencies ds)
        | ParsedList l =>
            ds <- _get_dependencies_from_alias l ;;
            update self (set_dependencies ds)
        end) ;;;
       update self (set_architecture (_parse_from_string "arch" pkginfo_file_content)) ;;;
       update self (set_license (_parse_from_string "license" pkginfo_file_content)))
      (fun _ =>
         update self
           (set_error_info
              (Some (InvalidPacmanPackageError
                       ("Failed to parse package file name '"
                          +:+ PyStr.format_value (path p) +:+ "'")))))
  | _ => ret tt
  end.

(** [CachedPackage.install] *)
Definition CachedPackage_install (self : addr) (force : bool) : M unit :=
  p <- load self ;;
  if (installation_status p =? 0) || (installation_status p =? 2) || force then
    s <- get_state ;;
    let pcm_cmd := ["pacman"; "-U"; "--noconfirm"; "--noprogressbar";
                    "--cachedir"; pacman_cache_dir s] in
    pcm_cmd <-
      (if installation_status p =? 1 then
         printInfo ("Renstalling package " +:+ PyStr.format_value (name p) +:+ " "
                      +:+ PyStr.format_value (version p) +:+ "...") ;;;
         ret (pcm_cmd ++ ["--force"])%list
       else
         printInfo ("Installing package " +:+ PyStr.format_value (name p) +:+ " "
                      +:+ PyStr.format_value (version p) +:+ "...") ;;;
         ret pcm_cmd) ;;
    match path p with
    | None => raise (TypeError "expected str, bytes or os.PathLike object, not NoneType")
    | Some file =>
        let* (rc, out, err) := run_command (pcm_cmd ++ [file])%list true in
        if negb (rc =? 0) then
          update self (set_installation_status (-1)) ;;;
          update self
            (set_error_info
               (Some (Exception
                        ("Failed to install package " +:+ PyStr.format_value (name p)
                           +:+ " " +:+ PyStr.format_value (version p) +:+ ": "
                           +:+ PyStr.join PyStr.newline err))))
        else if installation_status p =? 1
             then update self (set_installation_status 4)
             else update self (set_installation_status 3)
    end
  else ret tt.

(** [OfficialPackage.__init__] *)
Definition new_OfficialPackage (pkg_name : string) : M addr :=
  self <- alloc (set_repository (Some OFFICIAL)
                   (set_name (Some pkg_name) (class_defaults OfficialPackage))) ;;
  get_installation_status self ;;;
  ret self.

(** [OfficialPackage.install] *)
Definition OfficialPackage_install (self : addr) (force : bool) : M unit :=
  p <- load self ;;
  s <- get_state ;;
  let pcm_cmd := ["pacman"; "-S"; "--needed"; "--noconfirm"; "--noprogressbar";
                  "--cachedir"; pacman_cache_dir s] in
  pcm_cmd <-
    (if installation_status p =? 1 then
       printInfo ("Renstalling package " +:+ PyStr.format_value (name p) +:+ " "
                    +:+ PyStr.format_value (version p) +:+ "...") ;;;
       ret (pcm_cmd ++ ["--force"])%list
     else
       printInfo ("Installing package " +:+ PyStr.format_value (name p) +:+ " "
                    +:+ PyStr.format_value (version p) +:+ "...") ;;;
       ret pcm_cmd) ;;
  match name p with
  | None => raise (TypeError "expected str, bytes or os.PathLike object, not NoneType")
  | Some n =>
      let* (rc, out, err) := run_command (pcm_cmd ++ [n])%list true in
      if negb (rc =? 0) then
        update self (set_installation_status (-1)) ;;;
        update self
          (set_error_info
             (Some (Exception
                      ("Failed to install package " +:+ PyStr.format_value (name p)
                         +:+ ": " +:+ PyStr.join PyStr.newline err))))
      else if installation_status p =? 1
           then update self (set_installation_status 4)
           else update self (set_installation_status 3)
  end.

(** [pkg.install(force)]: the method of the object's class *)
Definition install (self : addr) (force : bool) : M unit :=
  p <- load self ;;
  match class_of p with
  | PackageBase => raise (NotImplementedError "Please Implement this method")
  | CachedPackage _ => CachedPackage_install self force
  | OfficialPackage => OfficialPackage_install self force
  end.

(** The second loop of [get_cached_package]: [pkg] moves to every
    candidate whose version is greater than its own. *)
Fixpoint greatest_version (pkg : addr) (chached_versions : list addr) : M addr :=
  match chached_versions with
  | [] => ret pkg
  | cached_pkg :: rest =>
      p <- load pkg ;;
      c <- load cached_pkg ;;
      match LooseVersion.lt (version p) (version c) with
      | inl e => raise e
      | inr true => greatest_version cached_pkg rest
      | inr false => greatest_version pkg rest
      end
  end.

(** [get_cached_package] *)
Definition get_cached_package (pkg_name : string) : M (option addr) :=
  s <- get_state ;;
  let chached_versions :=
    filter (fun cached_pkg => name (deref s cached_pkg) = Some pkg_name)
           (cached_packages s) in
  match chached_versions with
  | [] => ret None
  | first :: _ =>
      pkg <- greatest_version first chached_versions ;;
      get_installation_status pkg ;;;
      ret (Some pkg)
  end.

(** The node of a name that nothing provides:
    [PackageBase(pkg_name)] with [CachedPackageUnavailable]. *)
Definition register_unavailable (pkg_name : string) : M unit :=
  pkg <- alloc (set_name (Some pkg_name) (class_defaults PackageBase)) ;;
  update pkg
    (set_error_info
       (Some (CachedPackageUnavailable
                ("No cached package available for '" +:+ pkg_name +:+ "'")))) ;;;
  dict_set pkg_name pkg.

(** [pkg = OfficialPackage(out[-1])] registered under both names. *)
Definition register_official (pkg_name : string) (out : list string) : M unit :=
  real_pkg_name <- list_last out ;;
  pkg <- new_OfficialPackage real_pkg_name ;;
  dict_set pkg_name pkg ;;;
  dict_set real_pkg_name pkg.

(** The loop over the provider names: the first one that is cached. *)
Fixpoint first_cached (out : list string) : M (option addr) :=
  match out with
  | [] => ret None
  | rpn :: rest =>
      pkg <- get_cached_package rpn ;;
      match pkg with
      | Some pkg => ret (Some pkg)
      | None => first_cached rest
      end
  end.

(** The statements of [get_package_recursive] between the membership
    test and [pkg.determine_repository()].  The result is [Some pkg]
    when control reaches that call and [None] when the function has
    returned. *)
Definition find_package (pkg_name : string) : M (option addr) :=
  pkg <- get_cached_package pkg_name ;;
  match pkg with
  | Some pkg => dict_set pkg_name pkg ;;; ret (Some pkg)
  | None =>
      let* (rc, out, err) := run_command ["package-query"; "-Qiif"; "%n"; pkg_name] false in
      if rc =? 0 then
        real_pkg_name <- list_first out ;;
        pkg <- get_cached_package real_pkg_name ;;
        match pkg with
        | Some pkg =>
            dict_set pkg_name pkg ;;;
            dict_set real_pkg_name pkg ;;;
            ret (Some pkg)
        | None =>
            let* (rc, out, err) :=
              run_command ["package-query"; "-Siif"; "%n"; pkg_name] false in
            if rc =? 0 then register_official pkg_name out ;;; ret None
            else register_unavailable pkg_name ;;; ret None
        end
      else
        let* (rc, out, err) :=
          run_command ["package-query"; "-Siif"; "%n"; pkg_name] false in
        if rc =? 0 then register_official pkg_name out ;;; ret None
        else
          let* (rc, out, err) :=
            run_command ["package-query"; "-Aiif"; "%n"; pkg_name] false in
          pkg <- (if rc =? 0 then first_cached out else ret None) ;;
          match pkg with
          | None => register_unavailable pkg_name ;;; ret None
          | Some pkg => ret (Some pkg)
          end
  end.

(** The statements of [get_package_recursive] from
    [pkg.determine_repository()] on; [get_rec] is the function itself. *)
Definition descend (get_rec : string -> M unit) (found : option addr) : M unit :=
  match found with
  | None => ret tt
  | Some pkg =>
      determine_repository pkg ;;;
      determine_package_info pkg ;;;
      p <- load pkg ;;
      if truthy (error_info p) then ret tt
      else
        match repository p with
        | Some LOCAL => for_each (dependencies p) get_rec
        | _ => ret tt
        end
  end.

(** [get_package_recursive] *)
Fixpoint get_package_recursive (fuel : nat) (pkg_name : string) : M unit :=
  match fuel with
  | O => out_of_fuel
  | S fuel =>
      s <- get_state ;;
      if bool_decide (is_Some (pkg_dict s !! pkg_name)) then ret tt
      else
        found <- find_package pkg_name ;;
        descend (get_package_recursive fuel) found
  end.

(** The loop of [install_package_recursive] over the dependencies of
    [pkg]; the result tells whether the function has returned. *)
Fixpoint install_dependencies (install_rec : string -> M unit) (pkg : addr)
         (deps : list string) : M bool :=
  match deps with
  | [] => ret false
  | dependency :: rest =>
      pkg_dependency <- dict_get dependency ;;
      install_rec dependency ;;;
      d <- load pkg_dependency ;;
      if truthy (error_info d) then
        update pkg (set_installation_status (-2)) ;;; ret true
      else install_dependencies install_rec pkg rest
  end.

(** [install_package_recursive] *)
Fixpoint install_package_recursive (fuel : nat) (pkg_name : string)
         (use_cache_only force : bool) : M unit :=
  match fuel with
  | O => out_of_fuel
  | S fuel =>
      pkg <- dict_get pkg_name ;;
      p <- load pkg ;;
      if truthy (error_info p) then ret tt
      else
        match class_of p with
        | OfficialPackage =>
            if use_cache_only then
              update pkg
                (set_error_info
                   (Some (Exception ("Official package '" +:+ pkg_name
                                       +:+ "' not found in cache"))))
            else install pkg force
        | _ =>
            returned <- install_dependencies
                          (fun dependency =>
                             install_package_recursive fuel dependency use_cache_only force)
                          pkg (dependencies p) ;;
            if returned then ret tt else install pkg force
        end
  end.

(** [format_log] *)
Definition format_log (pkg : Package) (msg : string) (prefix : string) : M string :=
  match PyStr.len (name pkg), PyStr.len (version pkg) with
  | Some len_name, Some len_version =>
      let prefix2 := PyStr.spaces (len_name + len_version + 3) in
      let msg_lines := PyStr.splitlines msg in
      let msg :=
        match msg_lines with
        | first :: ((_ :: _) as others) =>
            PyStr.join PyStr.newline
              (first :: map (fun line => prefix +:+ prefix2 +:+ line) others)
        | _ => msg
        end in
      match version pkg with
      | Some (String _ _) =>
          ret (PyStr.format_value (name pkg) +:+ " " +:+ PyStr.format_value (version pkg)
                 +:+ ": " +:+ msg)
      | _ => ret (PyStr.format_value (name pkg) +:+ ": " +:+ msg)
      end
  | _, _ => raise (TypeError "object of type 'NoneType' has no len()")
  end.

(** [enumerate_package_names] *)
Definition enumerate_package_names (sequence : list string) : list (nat * nat * string) :=
  imap (fun count value => (count, (length sequence - count)%nat, value)) sequence.

(** [str(pkg.error_info)] *)
Definition str_error_info (p : Package) : string :=
  match error_info p with
  | Some e => str_of_exn e
  | None => "None"
  end.

(** The loop of [print_installation_log_recursive]; [success], [log],
    [log_prefix] and [intermediate_prefix] are the variables it carries
    from one package name to the next. *)
Fixpoint log_packages (log_rec : list string -> string -> M (bool * list string))
         (prefix : string) (is_root : bool) (items : list (nat * nat * string))
         (success : bool) (log : list string)
         (log_prefix intermediate_prefix : string) : M (bool * list string) :=
  match items with
  | [] => ret (success, log)
  | (pos, anchor, pkg_name) :: rest =>
      pkg <- dict_get pkg_name ;;
      p <- load pkg ;;
      let '(log_prefix, intermediate_prefix) :=
        if is_root then ("", "")
        else if (anchor =? 1)%nat then (prefix +:+ "└── ", prefix +:+ "    ")
             else (log_prefix, intermediate_prefix) in
      let* (success, log_dep) :=
        (if (0 <? length (dependencies p))%nat
         then log_rec (dependencies p) intermediate_prefix
         else ret (success, [])) in
      let* (success, log) :=
        (if negb success then
           line <- format_log p ("Dependency Failed: " +:+ str_error_info p)
                     intermediate_prefix ;;
           ret (success, (log ++ [log_prefix +:+ line])%list)
         else if truthy (error_info p) then
           line <- format_log p ("Failed: " +:+ str_error_info p) intermediate_prefix ;;
           ret (false, (log ++ [log_prefix +:+ line])%list)
         else if installation_status p =? 1 then
           line <- format_log p "Skipped" "" ;;
           ret (success, (log ++ [log_prefix +:+ line])%list)
         else if installation_status p =? 3 then
           line <- format_log p "Successfully installed" "" ;;
           ret (success, (log ++ [log_prefix +:+ line])%list)
         else if installation_status p =? 4 then
           line <- format_log p "Successfully reinstalled" "" ;;
           ret (success, (log ++ [log_prefix +:+ line])%list)
         else ret (success, log)) in
      log_packages log_rec prefix is_root rest success (log ++ log_dep)%list
        log_prefix intermediate_prefix
  end.

(** [print_installation_log_recursive] *)
Fixpoint print_installation_log_recursive (fuel : nat) (pkg_names : list string)
         (prefix : string) (is_root : bool) : M (bool * list string) :=
  match fuel with
  | O => out_of_fuel
  | S fuel =>
      log_packages
        (fun deps intermediate_prefix =>
           print_installation_log_recursive fuel deps intermediate_prefix false)
        prefix is_root (enumerate_package_names pkg_names)
        true [] (prefix +:+ "├── ") (prefix +:+ "|   ")
  end.

(** [print_installation_log] *)
Definition print_installation_log (fuel : nat) (pkg_name : string) : M unit :=
  let* (successfully_installed, log) :=
    print_installation_log_recursive fuel [pkg_name] "" true in
  for_each log
    (fun line => if successfully_installed : bool then printSuccessfull line
                 else printError line).

(** [os.path.join(a, b)] *)
Definition path_join (a b : string) : string :=
  match PyStr.strip_prefix "/" b with
  | Some _ => b
  | None =>
      if String.eqb a "" || PyStr.ends_with "/" a then a +:+ b
      else a +:+ "/" +:+ b
  end.

(** The loop of [main] over the entries of the cache directory. *)
Fixpoint scan_cache (entries : list (string * bool)) : M unit :=
  match entries with
  | [] => ret tt
  | (f, isfile) :: rest =>
      s <- get_state ;;
      let full_path := path_join (pacman_cache_dir s) f in
      (if isfile && PyStr.ends_with ".pkg.tar.xz" full_path then
         pkg <- new_CachedPackage full_path ;;
         modify (fun s => with_cached_packages (cached_packages s ++ [pkg]) s)
       else ret tt) ;;;
      scan_cache rest
  end.

(** [main], from the parsed arguments to the creation of [pkg_dict] *)
Definition main_setup (args : Args) : M unit :=
  (if negb (geteuid W =? 0) then
     printError "This script needs to be run as root!" ;;; exit 1
   else ret tt) ;;;
  modify (with_packages_in_offical_repositories (pacman_get_available W)) ;;;
  modify (with_pacman_cache_dir (args_cache_dir args)) ;;;
  modify (with_cached_packages []) ;;;
  scan_cache (listdir W (args_cache_dir args)) ;;;
  modify (with_pkg_dict ∅).

(** [main] to the end of the installation loop; the result is
    [package_names]. *)
Definition main_install (fuel : nat) (args : Args) : M (list string) :=
  main_setup args ;;;
  let package_names := map PyStr.lower (args_package_names args) in
  for_each package_names (get_package_recursive fuel) ;;;
  for_each package_names
    (fun pkg_name =>
       install_package_recursive fuel pkg_name (args_use_cache_only args) (args_force args)) ;;;
  ret package_names.

(** [main] *)
Definition main (fuel : nat) (args : Args) : M unit :=
  package_names <- main_install fuel args ;;
  printInfo (PyStr.newline +:+ "Installation Statistics:") ;;;
  for_each package_names (print_installation_log fuel).

(** The module body: [main] between [try] and [except]. *)
Definition script (fuel : nat) (args : Args) : M unit :=
  try_except
    (main fuel args ;;; exit 0)
    (fun e => printError (str_of_exn e) ;;; exit 1).

(** The state in which the module body starts. *)
Definition initial_state : State :=
  {| pacman_cache_dir := "/var/cache/pacman/pkg";
     packages_in_offical_repositories := [];
     cached_packages := [];
     heap := [];
     pkg_dict := ∅;
     trace := [];
     console := [] |}.

(** The exit status of a run, when it ends. *)
Definition exit_status {A} (r : Result A) : option Z :=
  match r with
  | Raised (SystemExit code) _ => Some code
  | _ => None
  end.

End Program.

(** ** The alias resolver as the specification words it

    Section 4.3 of the specification lists five attempts, made in order
    until one succeeds.  Each attempt below uses the statements of the
    program; none of them touches [pkg_dict]. *)

Section AliasResolver.

Variable W : World.

(** 1. Cache Index exact match. *)
Definition attempt_cache (pkg_name : string) : M (option addr) :=
  get_cached_package W pkg_name.

(** 2. Query "is this name installed"; if yes, obtain its canonical name
    and retry Cache Index with that name.  The first component tells
    whether the name is installed. *)
Definition attempt_installed (pkg_name : string) : M (bool * option addr) :=
  let* (rc, out, err) := run_command W ["package-query"; "-Qiif"; "%n"; pkg_name] false in
  if rc =? 0 then
    real_pkg_name <- list_first out ;;
    pkg <- get_cached_package W real_pkg_name ;;
    ret (true, pkg)
  else ret (false, None).

(** 3. Query "is this name available in the official repository"; if
    yes, produce an Official-repository node for the canonical name. *)
Definition attempt_official (pkg_name : string) : M bool :=
  let* (rc, out, err) := run_command W ["package-query"; "-Siif"; "%n"; pkg_name] false in
  if rc =? 0 then
    real_pkg_name <- list_last out ;;
    new_OfficialPackage W real_pkg_name ;;;
    ret true
  else ret false.

(** 4. Query the provider names; for each candidate, check Cache Index;
    use the first cache hit. *)
Definition attempt_providers (pkg_name : string) : M (option addr) :=
  let* (rc, out, err) := run_command W ["package-query"; "-Aiif"; "%n"; pkg_name] false in
  if rc =? 0 then first_cached W out else ret None.

(** 5. A bare node carrying [CachedPackageUnavailable]. *)
Definition attempt_unavailable (pkg_name : string) : M unit :=
  pkg <- alloc (set_name (Some pkg_name) (class_defaults PackageBase)) ;;
  update pkg
    (set_error_info
       (Some (CachedPackageUnavailable
                ("No cached package available for '" +:+ pkg_name +:+ "'")))).

(** The five attempts in order, stopping at the first success;
    [providers_after_installed] tells whether attempt 4 is also made for
    a name that attempt 2 found installed.  The result is [Some pkg]
    for a node from the cache, whose dependencies are walked next, and
    [None] for an official or unavailable node. *)
Definition alias_resolver (providers_after_installed : bool) (pkg_name : string)
  : M (option addr) :=
  r1 <- attempt_cache pkg_name ;;
  match r1 with
  | Some pkg => ret (Some pkg)
  | None =>
      let* (installed, r2) := attempt_installed pkg_name in
      match r2 with
      | Some pkg => ret (Some pkg)
      | None =>
          r3 <- attempt_official pkg_name ;;
          if r3 : bool then ret None
          else
            r4 <- (if installed && negb providers_after_installed then ret None
                   else attempt_providers pkg_name) ;;
            match r4 with
            | Some pkg => ret (Some pkg)
            | None => attempt_unavailable pkg_name ;;; ret None
            end
      end
  end.

(** The resolver as the specification states it. *)
Definition alias_resolver_spec : string -> M (option addr) := alias_resolver true.

(** The resolver with attempt 4 reserved to names that are not
    installed. *)
Definition alias_resolver_amended : string -> M (option addr) := alias_resolver false.

End AliasResolver.

(** A result with the dictionary of its final state replaced. *)
Definition result_with_pkg_dict {A} (d : gmap string addr) (r : Result A) : Result A :=
  match r with
  | Done a s => Done a (with_pkg_dict d s)
  | Raised e s => Raised e (with_pkg_dict d s)
  | OutOfFuel => OutOfFuel
  end.

(** ** Concrete worlds

    A scenario describes a world that answers every request the same way
    whatever happened before. *)

Record Scenario : Type := mkScenario {
  sc_files : list (string * (string * string * string) * option string);
    (* file name in the cache directory, groups of the name, [.PKGINFO] *)
  sc_installed : list (string * (string * string));
    (* queried name, canonical name and version of an installed package *)
  sc_official : list (string * string);
    (* queried name, canonical name in the official repositories *)
  sc_available : list string;
    (* ids of [pacman.get_available()] *)
  sc_providers : list (string * list string);
    (* queried name, names of its providers *)
  sc_failing : list string;
    (* install targets for which [pacman] fails *)
}.

Fixpoint assoc {A} (key : string) (l : list (string * A)) : option A :=
  match l with
  | [] => None
  | (k, v) :: l' => if String.eqb k key then Some v else assoc key l'
  end.

Definition cache_dir : string := "/var/cache/pacman/pkg".

Definition cache_path (f : string) : string := cache_dir +:+ "/" +:+ f.

Definition sc_file_table (sc : Scenario)
  : list (string * ((string * string * string) * option string)) :=
  map (fun '(f, g, c) => (cache_path f, (g, c))) (sc_files sc).

Definition sc_popen (sc : Scenario) (command : list string)
  : Z * list string * list string :=
  match command with
  | ["package-query"; "-QASiif"; "%n"; n] => (0, [n], [])
  | ["package-query"; "-Qiif"; "%n"; n] =>
      match assoc n (sc_installed sc) with
      | Some (real, _) => (0, [real], [])
      | None => (1, [], [])
      end
  | ["package-query"; "-Siif"; "%n"; n] =>
      match assoc n (sc_official sc) with
      | Some real => (0, [real], [])
      | None => (1, [], [])
      end
  | ["package-query"; "-Aiif"; "%n"; n] =>
      match assoc n (sc_providers sc) with
      | Some names => (0, names, [])
      | None => (1, [], [])
      end
  | "pacman" :: rest =>
      match last rest with
      | Some target =>
          if existsb (String.eqb target) (sc_failing sc)
          then (1, [], ["error: failed to commit transaction"])
          else (0, [], [])
      | None => (1, [], [])
      end
  | _ => (127, [], [])
  end.

Definition world_of (sc : Scenario) : World :=
  {| pacman_is_installed := fun _ n =>
       match n with
       | Some n => existsb (fun '(_, (real, _)) => String.eqb real n) (sc_installed sc)
       | None => false
       end;
     pacman_get_info_Version := fun _ n =>
       match n with
       | Some n => default "" (assoc n (map snd (sc_installed sc)))
       | None => ""
       end;
     popen := fun _ command _ => sc_popen sc command;
     tarfile_PKGINFO := fun _ file =>
       match file with
       | Some f => assoc f (sc_file_table sc) ≫= snd
       | None => None
       end;
     file_name_groups := fun f => fst <$> assoc f (sc_file_table sc);
     pacman_get_available := sc_available sc;
     listdir := fun _ => map (fun '(f, _, _) => (f, true)) (sc_files sc);
     geteuid := 0 |}.

Definition args_of (names : list string) : Args :=
  {| args_use_cache_only := false; args_cache_dir := cache_dir;
     args_force := false; args_package_names := names |}.

(** [a] depends on [b], [b] on [c]; all three are cached and the
    installation of [c] fails. *)
Definition chain_scenario : Scenario :=
  {| sc_files :=
       [("a-1.0-1-any.pkg.tar.xz", ("a", "1.0-1", "any"), Some "depend = b");
        ("b-1.0-1-any.pkg.tar.xz", ("b", "1.0-1", "any"), Some "depend = c");
        ("c-1.0-1-any.pkg.tar.xz", ("c", "1.0-1", "any"), Some "pkgname = c")];
     sc_installed := []; sc_official := []; sc_available := [];
     sc_providers := [];
     sc_failing := [cache_path "c-1.0-1-any.pkg.tar.xz"] |}.

(** [a] is cached and depends on [b], which nothing provides. *)
Definition unavailable_scenario : Scenario :=
  {| sc_files :=
       [("a-1.0-1-any.pkg.tar.xz", ("a", "1.0-1", "any"), Some "depend = b")];
     sc_installed := []; sc_official := []; sc_available := [];
     sc_providers := []; sc_failing := [] |}.


(** The virtual name [x] is provided by the cached package [p], which
    depends on [x]. *)
Definition provider_cycle_scenario : Scenario :=
  {| sc_files :=
       [("p-1.0-1-any.pkg.tar.xz", ("p", "1.0-1", "any"), Some "depend = x")];
     sc_installed := []; sc_official := []; sc_available := [];
     sc_providers := [("x", ["p"])]; sc_failing := [] |}.

(** The virtual name [v] is provided by the cached package [p], which
    has no dependencies. *)
Definition provider_scenario : Scenario :=
  {| sc_files :=
       [("p-1.0-1-any.pkg.tar.xz", ("p", "1.0-1", "any"), Some "pkgname = p")];
     sc_installed := []; sc_official := []; sc_available := [];
     sc_providers := [("v", ["p"])]; sc_failing := [] |}.

(** [x] and [y] are cached and depend on each other. *)
Definition cached_cycle_scenario : Scenario :=
  {| sc_files :=
       [("x-1.0-1-any.pkg.tar.xz", ("x", "1.0-1", "any"), Some "depend = y");
        ("y-1.0-1-any.pkg.tar.xz", ("y", "1.0-1", "any"), Some "depend = x")];
     sc_installed := []; sc_official := []; sc_available := [];
     sc_providers := []; sc_failing := [] |}.

(** [n] is installed under the canonical name [r], which is not cached;
    [n] is not in the official repositories; [p], which is cached,
    provides [n]. *)
Definition installed_provider_scenario : Scenario :=
  {| sc_files :=
       [("p-1.0-1-any.pkg.tar.xz", ("p", "1.0-1", "any"), Some "pkgname = p")];
     sc_installed := [("n", ("r", "2.0-1"))]; sc_official := []; sc_available := [];
     sc_providers := [("n", ["p"])]; sc_failing := [] |}.

(** Two archives of [foo]; one version has one dotted component more. *)
Definition mixed_versions_scenario : Scenario :=
  {| sc_files :=
       [("foo-1.2-1-any.pkg.tar.xz", ("foo", "1.2-1", "any"), Some "pkgname = foo");
        ("foo-1.2.1-1-any.pkg.tar.xz", ("foo", "1.2.1-1", "any"), Some "pkgname = foo")];
     sc_installed := []; sc_official := []; sc_available := [];
     sc_providers := []; sc_failing := [] |}.

(** Two archives of [foo], versions 2.9-1 and 2.10-1. *)
Definition two_versions_scenario : Scenario :=
  {| sc_files :=
       [("foo-2.9-1-any.pkg.tar.xz", ("foo", "2.9-1", "any"), Some "pkgname = foo");
        ("foo-2.10-1-any.pkg.tar.xz", ("foo", "2.10-1", "any"), Some "pkgname = foo")];
     sc_installed := []; sc_official := []; sc_available := [];
     sc_providers := []; sc_failing := [] |}.

(** The state of a scenario when resolution starts: [main] up to the
    creation of [pkg_dict]. *)
Definition scanned (sc : Scenario) : State :=
  match main_setup (world_of sc) (args_of []) initial_state with
  | Done _ s | Raised _ s => s
  | OutOfFuel => initial_state
  end.

(** [n] is installed under the canonical name [r], which is cached. *)
Definition alias_scenario : Scenario :=
  {| sc_files :=
       [("r-1.0-1-any.pkg.tar.xz", ("r", "1.0-1", "any"), Some "pkgname = r")];
     sc_installed := [("n", ("r", "1.0-1"))]; sc_official := []; sc_available := [];
     sc_providers := []; sc_failing := [] |}.

(** The final state of a computation that ends. *)
Definition final_state {A} (r : Result A) (otherwise : State) : State :=
  match r with
  | Done _ s | Raised _ s => s
  | OutOfFuel => otherwise
  end.

(** The state of a scenario after the resolution loop of [main]. *)
Definition resolved (sc : Scenario) (fuel : nat) (names : list string) : State :=
  final_state (for_each names (get_package_recursive (world_of sc) fuel) (scanned sc))
    (scanned sc).

(** The state of a scenario after the installation loop of [main]. *)
Definition installed (sc : Scenario) (fuel : nat) (names : list string) : State :=
  final_state (main_install (world_of sc) fuel (args_of names) initial_state) initial_state.

(** What a statement may change besides the console and the trace. *)
Definition same_store (s s' : State) : Prop :=
  heap s' = heap s
  /\ pkg_dict s' = pkg_dict s
  /\ cached_packages s' = cached_packages s
  /\ packages_in_offical_repositories s' = packages_in_offical_repositories s
  /\ pacman_cache_dir s' = pacman_cache_dir s.

(** A computation that leaves [pkg_dict] as it found it. *)
Definition dict_stable {A} (m : M A) : Prop :=
  forall s, match m s with
            | Done _ s' | Raised _ s' => pkg_dict s' = pkg_dict s
            | OutOfFuel => True
            end.

(** The versions of the packages at the addresses [l] can be ordered:
    [LooseVersion] compares any two of them without an exception. *)
Definition comparable (s : State) (l : list addr) : Prop :=
  forall a b, a ∈ l -> b ∈ l ->
    exists r, LooseVersion.lt (version (deref s a)) (version (deref s b)) = inr r.

(** [a] is cached and depends on [Foo], which is cached under that
    name. *)
Definition case_scenario : Scenario :=
  {| sc_files :=
       [("a-1.0-1-any.pkg.tar.xz", ("a", "1.0-1", "any"), Some "depend = Foo>=1.0");
        ("Foo-1.0-1-any.pkg.tar.xz", ("Foo", "1.0-1", "any"), Some "pkgname = Foo")];
     sc_installed := []; sc_official := []; sc_available := [];
     sc_providers := []; sc_failing := [] |}.

(** ** Invariants of a computation *)

(** [m] relates its initial state to every state it ends in by [R], and
    the only exceptions it lets out are those [except Exception]
    catches. *)
Definition keeps {A} (R : State -> State -> Prop) (m : M A) : Prop :=
  forall s, match m s with
            | Done _ s' => R s s'
            | Raised e s' => R s s' /\ is_Exception e = true
            | OutOfFuel => True
            end.

(** The attributes that identify a package object. *)
Definition same_identity (p p' : Package) : Prop :=
  class_of p' = class_of p /\ name p' = name p /\ version p' = version p.

(** Two objects that differ at most in [installation_status] and
    [error_info]. *)
Definition same_but_outcome (p p' : Package) : Prop :=
  same_identity p p'
  /\ architecture p' = architecture p
  /\ repository p' = repository p
  /\ dependencies p' = dependencies p
  /\ license p' = license p.

(** The globals that [main] sets before resolution. *)
Definition same_globals (s s' : State) : Prop :=
  cached_packages s' = cached_packages s
  /\ packages_in_offical_repositories s' = packages_in_offical_repositories s
  /\ pacman_cache_dir s' = pacman_cache_dir s.

(** The trace and the console only grow. *)
Definition output_extends (s s' : State) : Prop :=
  (exists t, trace s' = (trace s ++ t)%list)
  /\ (exists c, console s' = (console s ++ c)%list).

(** What resolution may do: add objects and keys, and change attributes
    of existing objects other than class, name and version. *)
Definition grows (s s' : State) : Prop :=
  (forall a p, heap s !! a = Some p ->
               exists p', heap s' !! a = Some p' /\ same_identity p p')
  /\ (forall key, is_Some (pkg_dict s !! key) -> is_Some (pkg_dict s' !! key))
  /\ same_globals s s'
  /\ output_extends s s'.

(** What installation may do: change [installation_status] and
    [error_info] of existing objects. *)
Definition installs (s s' : State) : Prop :=
  Forall2 same_but_outcome (heap s) (heap s')
  /\ pkg_dict s' = pkg_dict s
  /\ same_globals s s'
  /\ output_extends s s'.

(** The only way out of [m] past [except Exception] is [exit(1)]. *)
Definition exits_with_1 {A} (m : M A) : Prop :=
  forall s e s', m s = Raised e s' -> e = SystemExit 1 \/ is_Exception e = true.

(** A world seen by a user who is not root. *)
Definition as_user (W : World) (uid : Z) : World :=
  {| pacman_is_installed := pacman_is_installed W;
     pacman_get_info_Version := pacman_get_info_Version W;
     popen := popen W;
     tarfile_PKGINFO := tarfile_PKGINFO W;
     file_name_groups := file_name_groups W;
     pacman_get_available := pacman_get_available W;
     listdir := listdir W;
     geteuid := uid |}.

(** [vim] is in the official repositories and is not cached; it is
    installed under that name. *)
Definition official_scenario : Scenario :=
  {| sc_files := [];
     sc_installed := [("vim", ("vim", "9.0-1"))];
     sc_official := [("vim", "vim")]; sc_available := ["vim"];
     sc_providers := []; sc_failing := [] |}.

(** ** Descriptors written out

    What [.PKGINFO] holds for a list of entries: one line [key = value]
    per entry, and the characters that may occur in them. *)

Fixpoint all_chars (f : ascii -> bool) (s : string) : bool :=
  match s with
  | EmptyString => true
  | String c s' => f c && all_chars f s'
  end.

Definition is_break (c : ascii) : bool := PyStr.is_cr c || PyStr.is_linebreak c.

Definition in_key (c : ascii) : bool := negb (Ascii.eqb c " ") && negb (is_break c).

Definition in_value (c : ascii) : bool := negb (is_break c).

Definition is_operator (c : ascii) : bool := Ascii.eqb c "<" || Ascii.eqb c ">".

Definition descriptor_line (entry : string * string) : string :=
  entry.1 +:+ " = " +:+ entry.2.

Definition descriptor (entries : list (string * string)) : string :=
  PyStr.join PyStr.newline (map descriptor_line entries).

Definition well_formed_entry (entry : string * string) : Prop :=
  all_chars in_key entry.1 = true
  /\ entry.2 <> ""
  /\ all_chars in_value entry.2 = true.

(** ** The archives of a directory listing *)

(** The paths [main] makes objects for: the regular files whose path ends
    in [.pkg.tar.xz]. *)
Definition archives_of (dir : string) (entries : list (string * bool)) : list string :=
  omap (fun entry : string * bool =>
          let full_path := path_join dir entry.1 in
          if entry.2 && PyStr.ends_with ".pkg.tar.xz" full_path
          then Some full_path else None) entries.

(** What the object made for an archive holds. *)
Definition made_from (W : World) (file : string) (p : Package) : Prop :=
  class_of p = CachedPackage file
  /\ installation_status p = 0
  /\ dependencies p = []
  /\ repository p = None
  /\ match file_name_groups W file with
     | Some (n, v, a) => name p = Some n /\ version p = Some v /\ error_info p = None
     | None => name p = None /\ version p = None /\ truthy (error_info p) = true
     end.

(** ** Requests of an installation from the cache *)

(** The one kind of request [CachedPackage.install] sends: [pacman -U]
    with its output shown. *)
Definition is_local_install (e : Event) : bool :=
  match e with
  | EvPopen ("pacman" :: "-U" :: _) true => true
  | _ => false
  end.

Definition only_local_installs (s s' : State) : Prop :=
  exists t, trace s' = (trace s ++ t)%list /\ forallb is_local_install t = true.

(** [R] relates the state a computation starts in to the one it ends in,
    whether it returns or raises. *)
Definition ends_in {A} (R : State -> State -> Prop) (m : M A) (s : State) : Prop :=
  match m s with
  | Done _ s' | Raised _ s' => R s s'
  | OutOfFuel => True
  end.

(** ** The report of packages without dependencies *)

(** The message of a status that the report mentions. *)
Definition outcome_message (status : Z) : option string :=
  if status =? 1 then Some "Skipped"
  else if status =? 3 then Some "Successfully installed"
  else if status =? 4 then Some "Successfully reinstalled"
  else None.

(** The line of [format_log] for a message of one line. *)
Definition report_line (n v msg : string) : string :=
  match v with
  | String _ _ => n +:+ " " +:+ v +:+ ": " +:+ msg
  | EmptyString => n +:+ ": " +:+ msg
  end.

(** [pkg_name] is registered for a package without dependencies and
    without an error, whose status has a message; [line] is its line. *)
Definition reported_leaf (s : State) (pkg_name : string) (line : string) : Prop :=
  exists a p n v msg,
    pkg_dict s !! pkg_name = Some a
    /\ heap s !! a = Some p
    /\ dependencies p = []
    /\ error_info p = None
    /\ name p = Some n
    /\ version p = Some v
    /\ outcome_message (installation_status p) = Some msg
    /\ line = report_line n v msg.

(** The branch drawn before entry [i] of [total]. *)
Definition branch (total i : nat) : string :=
  if (S i =? total)%nat then "└── " else "├── ".

(** ** Dependency cycles *)

(** [pkg_name] is registered for a package without an error that is not
    an official one, and the first of its dependencies is one of
    [names]. *)
Definition first_dependency_in (s : State) (names : list string) (pkg_name : string) : Prop :=
  exists a p d rest,
    pkg_dict s !! pkg_name = Some a
    /\ heap s !! a = Some p
    /\ error_info p = None
    /\ class_of p <> OfficialPackage
    /\ dependencies p = d :: rest
    /\ d ∈ names.

(** ** Requests of the resolution *)

(** A request that changes nothing on the system: a question to the
    package manager, the reading of an archive, or a [package-query]
    command run without showing its output. *)
Definition is_inquiry (e : Event) : bool :=
  match e with
  | EvPopen ("package-query" :: _) false => true
  | EvPopen _ _ => false
  | _ => true
  end.

Definition only_inquiries (s s' : State) : Prop :=
  exists t, trace s' = (trace s ++ t)%list /\ forallb is_inquiry t = true.

(** * Properties *)

(** ** The monad *)

Lemma bind_Done {A B} (m : M A) (k : A -> M B) (s s' : State) (a : A) :
  m s = Done a s' -> bind m k s = k a s'.
Proof. intros H. unfold bind. now rewrite H. Qed.

Lemma bind_OutOfFuel {A B} (m : M A) (k : A -> M B) (s : State) :
  m s = OutOfFuel -> bind m k s = OutOfFuel.
Proof. intros H. unfold bind. now rewrite H. Qed.

Lemma with_pkg_dict_id (s : State) : with_pkg_dict (pkg_dict s) s = s.
Proof. now destruct s. Qed.

(** ** C5: a registered name is not resolved again *)

(** C5.  When [pkg_name] is already a key of [pkg_dict], a call of
    [get_package_recursive] returns at once: the final state is the
    initial one, so no request went to the outside world, the dictionary
    is unchanged, and two keys that referenced one shared object still
    reference it, with its attributes untouched. *)
Theorem C5_registered_name_returns_immediately
  (W : World) (fuel : nat) (pkg_name : string) (s : State) :
  is_Some (pkg_dict s !! pkg_name) ->
  exists s',
    get_package_recursive W (S fuel) pkg_name s = Done tt s'
    /\ s' = s
    /\ trace s' = trace s
    /\ pkg_dict s' = pkg_dict s
    /\ forall (alias canonical : string) (node : addr),
         pkg_dict s !! alias = Some node ->
         pkg_dict s !! canonical = Some node ->
         pkg_dict s' !! alias = Some node
         /\ pkg_dict s' !! canonical = Some node
         /\ deref s' node = deref s node.
Proof.
  intros Hkey. exists s.
  split; [| repeat split; assumption].
  cbn [get_package_recursive]. unfold bind, get_state.
  now rewrite bool_decide_eq_true_2.
Qed.

Lemma C5_witness :
  let s := resolved alias_scenario 2 ["n"] in
  pkg_dict s !! "n" = Some 0%nat
  /\ pkg_dict s !! "r" = Some 0%nat
  /\ exists s',
       get_package_recursive (world_of alias_scenario) 1 "r" s = Done tt s'
       /\ s' = s
       /\ trace s' = trace s
       /\ pkg_dict s' = pkg_dict s
       /\ forall (alias canonical : string) (node : addr),
            pkg_dict s !! alias = Some node ->
            pkg_dict s !! canonical = Some node ->
            pkg_dict s' !! alias = Some node
            /\ pkg_dict s' !! canonical = Some node
            /\ deref s' node = deref s node.
Proof.
  intros s.
  assert (Hn : pkg_dict s !! "n" = Some 0%nat) by (vm_compute; reflexivity).
  assert (Hr : pkg_dict s !! "r" = Some 0%nat) by (vm_compute; reflexivity).
  split; [exact Hn |]. split; [exact Hr |].
  apply (C5_registered_name_returns_immediately (world_of alias_scenario) 0 "r" s).
  rewrite Hr. eexists. reflexivity.
Defined.

(** ** The object store *)

Lemma deref_lookup (s : State) (a : addr) (p : Package) :
  heap s !! a = Some p -> deref s a = p.
Proof. intros H. unfold deref. now rewrite H. Qed.

Lemma deref_insert_eq (s : State) (a : addr) (p x : Package) :
  heap s !! a = Some p -> deref (with_heap (<[a := x]> (heap s)) s) a = x.
Proof.
  intros H. unfold deref. cbn.
  rewrite list_lookup_insert_eq; [reflexivity |].
  eapply lookup_lt_Some; eassumption.
Qed.

Lemma deref_insert_ne (s : State) (a b : addr) (x : Package) :
  a <> b -> deref (with_heap (<[a := x]> (heap s)) s) b = deref s b.
Proof. intros H. unfold deref. cbn. now rewrite list_lookup_insert_ne. Qed.

Lemma update_Done (a : addr) (f : Package -> Package) (s : State) :
  update a f s = Done tt (with_heap (<[a := f (deref s a)]> (heap s)) s).
Proof. reflexivity. Qed.

(** ** C9: the repository of a cached package *)




(** ** Child processes and the console *)

Lemma for_each_print (f : string -> string) (l : list string) (s : State) :
  for_each l (fun x => print (f x)) s
  = Done tt (with_console (console s ++ map f l)%list s).
Proof.
  revert s. induction l as [| x l IH]; intros s; cbn.
  - unfold ret. f_equal. destruct s; cbn. now rewrite app_nil_r.
  - rewrite IH. f_equal. unfold with_console; cbn. f_equal. now rewrite <- app_assoc.
Qed.

Lemma run_command_Done (W : World) (command : list string) (print_output : bool) (s : State) :
  exists s1,
    run_command W command print_output s
    = Done ((popen W (trace s) command print_output).1.1,
            (popen W (trace s) command print_output).1.2,
            if print_output && ((popen W (trace s) command print_output).1.1 =? 0)
            then [] else (popen W (trace s) command print_output).2) s1
    /\ trace s1 = (trace s ++ [EvPopen command print_output])%list
    /\ same_store s s1.
Proof.
  unfold run_command, bind, get_state.
  destruct (popen W (trace s) command print_output) as [[rc out] err]. cbn.
  destruct print_output; cbn.
  - pose proof (for_each_print (fun x => x) out) as Hout.
    change (for_each out (fun x => print x)) with (for_each out print) in Hout.
    rewrite Hout.
    destruct (rc =? 0); cbn.
    + eexists. split; [reflexivity |]. cbn. split; [reflexivity | repeat split].
    + pose proof (for_each_print
                    (fun m => ConsoleColors.red +:+ m +:+ ConsoleColors.reset) err) as Herr.
      change (for_each err (fun x => print (ConsoleColors.red +:+ x +:+ ConsoleColors.reset)))
        with (for_each err printError) in Herr.
      rewrite Herr.
      eexists. split; [reflexivity |]. cbn. split; [reflexivity | repeat split].
  - eexists. split; [reflexivity |]. cbn. split; [reflexivity | repeat split].
Qed.

(** ** C8: installing a cached package *)

(** C8.  [install] on a [CachedPackage] object.  With status 1 and no
    force flag it sends no request and changes nothing, and the report
    shows the package as "Skipped".  With status 1 and the force flag it
    runs [pacman -U] with [--force]; with status 0 or 2 it runs
    [pacman -U] whatever the flag.  An exit code 0 sets the status to 4 in
    the first case and 3 in the second; another exit code sets it to -1
    and records the error lines of the process. *)
Theorem C8_CachedPackage_install
  (W : World) (self : addr) (s : State) (p : Package) (file : string) :
  heap s !! self = Some p ->
  class_of p = CachedPackage file ->
  let pcm_cmd := ["pacman"; "-U"; "--noconfirm"; "--noprogressbar"; "--cachedir";
                  pacman_cache_dir s] in
  let failure (err : list string) :=
    Exception ("Failed to install package " +:+ PyStr.format_value (name p) +:+ " "
                 +:+ PyStr.format_value (version p) +:+ ": "
                 +:+ PyStr.join PyStr.newline err) in
  let invoked (command : list string) (on_success : Z) (s' : State) :=
    trace s' = (trace s ++ [EvPopen command true])%list
    /\ ((popen W (trace s) command true).1.1 = 0 ->
        installation_status (deref s' self) = on_success
        /\ error_info (deref s' self) = error_info p)
    /\ ((popen W (trace s) command true).1.1 <> 0 ->
        installation_status (deref s' self) = -1
        /\ error_info (deref s' self)
           = Some (failure (popen W (trace s) command true).2)) in
  (installation_status p = 1 ->
   install W self false s = Done tt s
   /\ forall (fuel : nat) (key n v : string) (log_dep : list string),
        pkg_dict s !! key = Some self ->
        error_info p = None -> name p = Some n -> version p = Some v -> v <> "" ->
        (dependencies p = [] /\ log_dep = []
         \/ dependencies p <> []
            /\ print_installation_log_recursive fuel (dependencies p) "" false s
               = Done (true, log_dep) s) ->
        print_installation_log_recursive (S fuel) [key] "" true s
        = Done (true, (n +:+ " " +:+ v +:+ ": Skipped") :: log_dep) s)
  /\ (installation_status p = 1 ->
      exists s', install W self true s = Done tt s'
                 /\ invoked (pcm_cmd ++ ["--force"; file])%list 4 s')
  /\ (installation_status p = 0 \/ installation_status p = 2 ->
      forall force : bool,
      exists s', install W self force s = Done tt s'
                 /\ invoked (pcm_cmd ++ [file])%list 3 s').
Proof.
  intros Hp Hclass pcm_cmd failure invoked.
  assert (Hpath : path p = Some file) by (unfold path; now rewrite Hclass).
  assert (Hrun : forall (command : list string) (on_success : Z) (s0 : State),
             same_store s s0 -> trace s0 = trace s ->
             exists s',
               (let* (rc, out, err) := run_command W command true in
                if negb (rc =? 0) then
                  update self (set_installation_status (-1)) ;;;
                  update self (set_error_info (Some (failure err)))
                else update self (set_installation_status on_success)) s0 = Done tt s'
               /\ invoked command on_success s').
  { intros command on_success s0 Hs0 Ht0.
    destruct (run_command_Done W command true s0) as (s1 & Hrun & Ht1 & Hs1).
    unfold bind at 1. rewrite Hrun, Ht0. clear Hrun.
    assert (Hp1 : heap s1 !! self = Some p).
    { destruct Hs1 as (-> & _), Hs0 as (-> & _). exact Hp. }
    unfold invoked.
    destruct ((popen W (trace s) command true).1.1 =? 0) eqn:Hrc; cbn [negb andb].
    - rewrite update_Done, (deref_lookup _ _ _ Hp1).
      eexists. split; [reflexivity |].
      rewrite (deref_insert_eq s1 self p (set_installation_status on_success p) Hp1). cbn.
      rewrite Ht1, Ht0. apply Z.eqb_eq in Hrc.
      repeat split; congruence.
    - unfold bind. rewrite update_Done, (deref_lookup _ _ _ Hp1).
      rewrite update_Done.
      rewrite (deref_insert_eq s1 self p (set_installation_status (-1) p) Hp1).
      eexists. split; [reflexivity |].
      cbn [heap with_heap]. rewrite list_insert_insert_eq.
      match goal with
      | |- context [deref (with_heap (<[self := ?x]> (heap s1)) ?s2) self] =>
          assert (Hd : deref (with_heap (<[self := x]> (heap s1)) s2) self = x)
      end.
      { unfold deref. cbn. rewrite list_lookup_insert_eq; [reflexivity |].
        eapply lookup_lt_Some; eassumption. }
      rewrite Hd. cbn.
      rewrite Ht1, Ht0. apply Z.eqb_neq in Hrc.
      repeat split; congruence. }
  assert (Hinstall : forall force : bool,
             install W self force s = CachedPackage_install W self force s).
  { intros force. unfold install, bind, load.
    now rewrite (deref_lookup _ _ _ Hp), Hclass. }
  split; [| split].
  - intros Hstatus. split.
    + rewrite Hinstall. unfold CachedPackage_install, bind, load.
      rewrite (deref_lookup _ _ _ Hp), Hstatus. reflexivity.
    + intros fuel key n v log_dep Hkey Herr Hname Hversion Hv Hdeps.
      cbn [print_installation_log_recursive enumerate_package_names imap
           length log_packages].
      unfold bind at 1. unfold dict_get. rewrite Hkey.
      unfold bind at 1. unfold load. rewrite (deref_lookup _ _ _ Hp).
      assert (Hline : format_log p "Skipped" "" s
                      = Done (n +:+ " " +:+ v +:+ ": Skipped") s).
      { unfold format_log. rewrite Hname, Hversion. cbn.
        destruct v; [congruence | reflexivity]. }
      destruct Hdeps as [(Hnil & ->) | (Hcons & Hrec)].
      * rewrite Hnil. cbn. unfold bind. cbn. rewrite Herr. cbn.
        rewrite Hstatus. cbn. rewrite Hline. reflexivity.
      * destruct (dependencies p) as [| d ds] eqn:Hd; [congruence |].
        cbn [length Nat.ltb Nat.leb]. unfold bind at 1. rewrite Hrec.
        cbn. unfold bind. cbn. rewrite Herr. cbn.
        rewrite Hstatus. cbn. rewrite Hline. reflexivity.
  - intros Hstatus. rewrite Hinstall.
    unfold CachedPackage_install, bind at 1, load.
    rewrite (deref_lookup _ _ _ Hp), Hstatus, Hpath. cbn.
    match goal with
    | |- context [with_console ?c s] =>
        exact (Hrun (pcm_cmd ++ ["--force"; file])%list 4 (with_console c s)
                 ltac:(repeat split) eq_refl)
    end.
  - intros Hstatus force. rewrite Hinstall.
    unfold CachedPackage_install, bind at 1, load.
    rewrite (deref_lookup _ _ _ Hp), Hpath.
    assert (Hcond : (installation_status p =? 0) || (installation_status p =? 2) || force = true).
    { destruct Hstatus as [-> | ->]; reflexivity. }
    assert (Hnot1 : (installation_status p =? 1) = false).
    { destruct Hstatus as [-> | ->]; reflexivity. }
    rewrite Hcond, Hnot1. cbn.
    match goal with
    | |- context [with_console ?c s] =>
        exact (Hrun (pcm_cmd ++ [file])%list 3 (with_console c s)
                 ltac:(repeat split) eq_refl)
    end.
Qed.

Lemma C8_witness :
  let W := world_of alias_scenario in
  let s := resolved alias_scenario 2 ["n"] in
  heap s !! 0%nat = Some (deref s 0)
  /\ class_of (deref s 0) = CachedPackage (cache_path "r-1.0-1-any.pkg.tar.xz")
  /\ installation_status (deref s 0) = 1
  /\ install W 0 false s = Done tt s.
Proof.
  intros W s.
  assert (Hp : heap s !! 0%nat = Some (deref s 0)) by (vm_compute; reflexivity).
  assert (Hc : class_of (deref s 0) = CachedPackage (cache_path "r-1.0-1-any.pkg.tar.xz"))
    by (vm_compute; reflexivity).
  assert (H1 : installation_status (deref s 0) = 1) by (vm_compute; reflexivity).
  split; [exact Hp |]. split; [exact Hc |]. split; [exact H1 |].
  exact (proj1 (proj1 (C8_CachedPackage_install W 0 s (deref s 0) _ Hp Hc) H1)).
Defined.

(** ** The start of a run *)

Lemma scan_cache_Done (W : World) (entries : list (string * bool)) (s : State) :
  exists s', scan_cache W entries s = Done tt s'.
Proof.
  revert s. induction entries as [| [f isfile] entries IH]; intros s;
    cbn [scan_cache].
  - eexists. reflexivity.
  - unfold bind at 1. unfold get_state.
    destruct (isfile && PyStr.ends_with ".pkg.tar.xz" (path_join (pacman_cache_dir s) f)).
    + unfold new_CachedPackage.
      destruct (file_name_groups W (path_join (pacman_cache_dir s) f)) as [[[n v] a] |];
        unfold bind, alloc, modify; apply IH.
    + unfold bind, ret. apply IH.
Qed.

(** In a scenario, [main] reaches its resolution loop in the state
    [scanned]. *)
Lemma main_setup_scanned (sc : Scenario) (names : list string) :
  main_setup (world_of sc) (args_of names) initial_state = Done tt (scanned sc).
Proof.
  unfold scanned.
  change (main_setup (world_of sc) (args_of names))
    with (main_setup (world_of sc) (args_of [])).
  unfold main_setup.
  cbn [geteuid world_of Z.eqb negb args_cache_dir args_of].
  unfold bind, ret, modify.
  match goal with
  | |- context [scan_cache ?W ?l ?s] =>
      destruct (scan_cache_Done W l s) as [s' ->]
  end.
  reflexivity.
Qed.

Lemma main_install_after_scan (sc : Scenario) (fuel : nat) (names : list string) :
  main_install (world_of sc) fuel (args_of names) initial_state
  = (for_each (map PyStr.lower names) (get_package_recursive (world_of sc) fuel) ;;;
     for_each (map PyStr.lower names)
       (fun pkg_name => install_package_recursive (world_of sc) fuel pkg_name false false) ;;;
     ret (map PyStr.lower names)) (scanned sc).
Proof.
  unfold main_install.
  now rewrite (bind_Done _ _ _ _ _ (main_setup_scanned sc names)).
Qed.

(** ** C1: a failure two levels down

    [a] depends on [b] and [b] on [c]; the three are cached and the
    installation of [c] fails. *)

(** C1 (fails on the code).  The failure of [c] gives [b] the status -2
    but no [error_info]; the loop over the dependencies of [a] tests
    [error_info] only, so [a] is installed and ends with status 3. *)
Theorem C1_grandchild_failure_does_not_propagate :
  let W := world_of chain_scenario in
  exists s,
    main_install W 4 (args_of ["a"]) initial_state = Done ["a"] s
    /\ pkg_dict s !! "a" = Some 0%nat
    /\ pkg_dict s !! "b" = Some 1%nat
    /\ pkg_dict s !! "c" = Some 2%nat
    /\ repository (deref s 0) = Some LOCAL
    /\ dependencies (deref s 0) = ["b"]
    /\ dependencies (deref s 1) = ["c"]
    /\ installation_status (deref s 2) = -1
    /\ truthy (error_info (deref s 2)) = true
    /\ installation_status (deref s 1) = -2
    /\ installation_status (deref s 0) = 3
    /\ installation_status (deref s 0) <> -2
    /\ In (EvPopen ["pacman"; "-U"; "--noconfirm"; "--noprogressbar"; "--cachedir";
                    cache_dir; cache_path "a-1.0-1-any.pkg.tar.xz"] true) (trace s).
Proof.
  intros W. eexists. split; [vm_compute; reflexivity |].
  vm_compute. repeat split; try reflexivity; try discriminate.
  repeat (first [left; reflexivity | right]).
Qed.

(** One level down the failure does propagate: when the loop over the
    dependencies finds one with an error, the function returns without
    installing the package, and its last statement sets the status -2. *)
Lemma install_dependencies_returned
  (install_rec : string -> M unit) (pkg : addr) (deps : list string) (s s' : State) :
  install_dependencies install_rec pkg deps s = Done true s' ->
  exists s1,
    s' = with_heap (<[pkg := set_installation_status (-2) (deref s1 pkg)]> (heap s1)) s1.
Proof.
  revert s. induction deps as [| d deps IH]; intros s; cbn [install_dependencies].
  - discriminate.
  - unfold bind at 1. unfold dict_get.
    destruct (pkg_dict s !! d) as [pd |]; [| discriminate].
    unfold bind at 1.
    destruct (install_rec d s) as [[] s1 | e s1 |]; [| discriminate | discriminate].
    unfold bind at 1. unfold load.
    destruct (truthy (error_info (deref s1 pd))).
    + unfold bind. rewrite update_Done. unfold ret. intros [= <-]. now exists s1.
    + apply IH.
Qed.

Lemma install_package_recursive_dependency_failed
  (W : World) (fuel : nat) (pkg_name : string) (use_cache_only force : bool)
  (s s' : State) (pkg : addr) (p : Package) :
  pkg_dict s !! pkg_name = Some pkg ->
  heap s !! pkg = Some p ->
  error_info p = None ->
  class_of p <> OfficialPackage ->
  install_dependencies
    (fun dependency => install_package_recursive W fuel dependency use_cache_only force)
    pkg (dependencies p) s = Done true s' ->
  install_package_recursive W (S fuel) pkg_name use_cache_only force s = Done tt s'
  /\ exists s1,
       s' = with_heap (<[pkg := set_installation_status (-2) (deref s1 pkg)]> (heap s1)) s1.
Proof.
  intros Hkey Hp Herr Hclass Hdeps.
  split; [| eapply install_dependencies_returned; eassumption].
  cbn [install_package_recursive].
  unfold bind at 1. unfold dict_get. rewrite Hkey.
  unfold bind at 1. unfold load. rewrite (deref_lookup _ _ _ Hp), Herr. cbn [truthy].
  destruct (class_of p) eqn:Hc; try congruence;
    unfold bind; rewrite Hdeps; reflexivity.
Qed.

(** ** C2: the exit status of a failing run *)

(** C2 (as stated) fails: in the run above the subtree of [a] ends in
    failure, the report is printed, and the exit status is 0. *)
Lemma C2_counterexample :
  let W := world_of chain_scenario in
  exists s,
    script W 4 (args_of ["a"]) initial_state = Raised (SystemExit 0) s
    /\ exit_status (script W 4 (args_of ["a"]) initial_state) = Some 0
    /\ pkg_dict s !! "c" = Some 2%nat
    /\ installation_status (deref s 2) = -1
    /\ truthy (error_info (deref s 2)) = true
    /\ print_installation_log_recursive 4 ["a"] "" true s
       = Done (false,
               ["a 1.0-1: Dependency Failed: None";
                "└── b 1.0-1: Dependency Failed: None";
                "    └── c 1.0-1: Failed: Failed to install package c 1.0-1: error: failed to commit transaction"]) s.
Proof.
  intros W. eexists. split; [vm_compute; reflexivity |].
  vm_compute. repeat split; reflexivity.
Qed.

(** C2 (as amended).  A run that completes resolution, installation and
    the report of every requested package ends with exit status 0,
    whatever errors its packages carry; the exit status is not 0 only
    when [main] is left by an exception or by its own [exit(1)]. *)
Theorem C2_exit_status (W : World) (fuel : nat) (args : Args) (s : State) :
  (forall (package_names : list string) (s1 s2 : State),
     main_install W fuel args s = Done package_names s1 ->
     (printInfo (PyStr.newline +:+ "Installation Statistics:") ;;;
      for_each package_names (print_installation_log fuel)) s1 = Done tt s2 ->
     main W fuel args s = Done tt s2
     /\ script W fuel args s = Raised (SystemExit 0) s2
     /\ exit_status (script W fuel args s) = Some 0)
  /\ (forall code : Z,
        exit_status (script W fuel args s) = Some code -> code <> 0 ->
        exists (e : Exn) (s' : State), main W fuel args s = Raised e s').
Proof.
  split.
  - intros package_names s1 s2 Hinstall Hreport.
    assert (Hmain : main W fuel args s = Done tt s2).
    { unfold main. rewrite (bind_Done _ _ _ _ _ Hinstall). exact Hreport. }
    split; [exact Hmain |].
    unfold script, try_except.
    rewrite (bind_Done _ _ _ _ _ Hmain). cbn. split; reflexivity.
  - intros code Hcode Hnz.
    unfold script, try_except in Hcode.
    destruct (main W fuel args s) as [[] s' | e s' |] eqn:Hmain.
    + rewrite (bind_Done _ _ _ _ _ Hmain) in Hcode. cbn in Hcode.
      injection Hcode as <-. congruence.
    + eauto.
    + rewrite (bind_OutOfFuel _ _ _ Hmain) in Hcode. discriminate.
Qed.

Lemma C2_witness :
  let W := world_of chain_scenario in
  let s2 := final_state (script W 4 (args_of ["a"]) initial_state) initial_state in
  truthy (error_info (deref s2 2)) = true
  /\ exit_status (script W 4 (args_of ["a"]) initial_state) = Some 0.
Proof.
  intros W s2. split; [vm_compute; reflexivity |].
  refine (proj2 (proj2 (proj1 (C2_exit_status W 4 (args_of ["a"]) initial_state)
                          ["a"] (installed chain_scenario 4 ["a"]) s2 _ _))).
  - vm_compute. reflexivity.
  - vm_compute. reflexivity.
Defined.

(** ** C3: the report of an unavailable dependency *)

(** C3 (fails on the code).  [a] is cached and depends on [b], which
    nothing provides.  The node of [b] has no version, and [format_log]
    takes [len(pkg.version)] before it tests [pkg.version]: rendering
    raises [TypeError] and yields no report. *)
Theorem C3_report_raises_for_unavailable_dependency :
  let s := installed unavailable_scenario 3 ["a"] in
  pkg_dict s !! "a" = Some 0%nat
  /\ pkg_dict s !! "b" = Some 1%nat
  /\ dependencies (deref s 0) = ["b"]
  /\ error_info (deref s 1)
     = Some (CachedPackageUnavailable "No cached package available for 'b'")
  /\ version (deref s 1) = None
  /\ (forall fuel : nat,
        print_installation_log_recursive (S (S fuel)) ["a"] "" true s
        = Raised (TypeError "object of type 'NoneType' has no len()") s)
  /\ (forall (fuel : nat) (report : bool * list string) (s' : State),
        print_installation_log_recursive fuel ["a"] "" true s <> Done report s').
Proof.
  intros s.
  assert (Hraise : forall fuel : nat,
             print_installation_log_recursive (S (S fuel)) ["a"] "" true s
             = Raised (TypeError "object of type 'NoneType' has no len()") s).
  { intros fuel. vm_compute. reflexivity. }
  split; [vm_compute; reflexivity |].
  split; [vm_compute; reflexivity |].
  split; [vm_compute; reflexivity |].
  split; [vm_compute; reflexivity |].
  split; [vm_compute; reflexivity |].
  split; [exact Hraise |].
  intros [| [| fuel]] report s'.
  - discriminate.
  - vm_compute. discriminate.
  - rewrite Hraise. discriminate.
Qed.

(** The same for every state of that shape: a node without version has
    no report line. *)
Lemma format_log_without_version (p : Package) (msg prefix : string) (s : State) :
  version p = None ->
  format_log p msg prefix s = Raised (TypeError "object of type 'NoneType' has no len()") s.
Proof.
  intros Hv. unfold format_log. rewrite Hv. cbn.
  now destruct (PyStr.len (name p)).
Qed.

Lemma report_raises_without_version
  (s : State) (key_a key_b : string) (a b : addr) (pa pb : Package) (e : Exn) (fuel : nat) :
  pkg_dict s !! key_a = Some a -> heap s !! a = Some pa -> dependencies pa = [key_b] ->
  pkg_dict s !! key_b = Some b -> heap s !! b = Some pb -> dependencies pb = [] ->
  error_info pb = Some e -> version pb = None ->
  print_installation_log_recursive (S (S fuel)) [key_a] "" true s
  = Raised (TypeError "object of type 'NoneType' has no len()") s.
Proof.
  intros Hka Ha Hda Hkb Hb Hdb He Hv.
  cbn [print_installation_log_recursive enumerate_package_names imap length log_packages].
  unfold bind, dict_get, load, ret.
  rewrite Hka, (deref_lookup _ _ _ Ha), Hda.
  cbn [length Nat.ltb Nat.leb Nat.sub imap enumerate_package_names log_packages].
  unfold bind, dict_get, load, ret.
  rewrite Hkb, (deref_lookup _ _ _ Hb), Hdb, He.
  cbn [length Nat.ltb Nat.leb Nat.eqb Nat.sub negb truthy].
  rewrite format_log_without_version by assumption.
  reflexivity.
Qed.

(** ** C6: dependency cycles *)

Lemma provider_cycle_step (rec : string -> M unit) :
  forall (arch lic : Parsed) (repo : option PackageRepository) (deps : list string)
         (status : Z) (t : list Event) (c : list string),
  exists t',
    (found <- find_package (world_of provider_cycle_scenario) "x" ;;
     descend (world_of provider_cycle_scenario) rec found)
      {| pacman_cache_dir := cache_dir;
         packages_in_offical_repositories := [];
         cached_packages := [0%nat];
         heap := [ {| class_of := CachedPackage (cache_path "p-1.0-1-any.pkg.tar.xz");
                      name := Some "p"; version := Some "1.0-1";
                      architecture := arch; repository := repo;
                      dependencies := deps; license := lic;
                      error_info := None; installation_status := status |} ];
         pkg_dict := ∅; trace := t; console := c |}
    = (rec "x" ;;; ret tt)
      {| pacman_cache_dir := cache_dir;
         packages_in_offical_repositories := [];
         cached_packages := [0%nat];
         heap := [ {| class_of := CachedPackage (cache_path "p-1.0-1-any.pkg.tar.xz");
                      name := Some "p"; version := Some "1.0-1";
                      architecture := ParsedNone; repository := Some LOCAL;
                      dependencies := ["x"]; license := ParsedNone;
                      error_info := None; installation_status := 0 |} ];
         pkg_dict := ∅; trace := t'; console := c |}.
Proof.
  intros. eexists. vm_compute. reflexivity.
Qed.

(** C6 (fails on the code).  The name [x] is provided by the cached
    package [p], which depends on [x]; [v] is provided by a cached package
    without dependencies.  The branch of [get_package_recursive] that
    takes a package from a provider does not register the name: the
    dependency list of [p] is walked while [x] is no key of [pkg_dict], so
    the visit of [x] enters a visit of [x] that starts where the first one
    started, whatever the nested visit then does; and after the
    resolution of [v] has returned, [v] is no key and the installation
    loop raises [KeyError]. *)
Theorem C6_provider_path_does_not_register :
  let W := world_of provider_cycle_scenario in
  let s := scanned provider_cycle_scenario in
  pkg_dict s = ∅
  /\ (exists s1,
        find_package W "x" s = Done (Some 0%nat) s1
        /\ name (deref s1 0) = Some "p"
        /\ pkg_dict s1 = ∅)
  /\ (forall fuel : nat,
        get_package_recursive W (S fuel) "x" s
        = (found <- find_package W "x" ;;
           descend W (get_package_recursive W fuel) found) s)
  /\ (forall get_rec : string -> M unit,
        exists s2,
          (found <- find_package W "x" ;; descend W get_rec found) s
          = (get_rec "x" ;;; ret tt) s2
          /\ pkg_dict s2 = ∅
          /\ dependencies (deref s2 0) = ["x"]
          /\ forall get_rec' : string -> M unit,
               exists s3,
                 (found <- find_package W "x" ;; descend W get_rec' found) s2
                 = (get_rec' "x" ;;; ret tt) s3
                 /\ pkg_dict s3 = ∅)
  /\ (let W' := world_of provider_scenario in
      exists s1 s2,
        for_each ["v"] (get_package_recursive W' 3) (scanned provider_scenario) = Done tt s1
        /\ pkg_dict s1 = ∅
        /\ main_install W' 3 (args_of ["v"]) initial_state = Raised (KeyError "v") s2).
Proof.
  intros W s.
  assert (Hs : exists t,
             s = {| pacman_cache_dir := cache_dir;
                    packages_in_offical_repositories := [];
                    cached_packages := [0%nat];
                    heap := [ {| class_of := CachedPackage (cache_path "p-1.0-1-any.pkg.tar.xz");
                                 name := Some "p"; version := Some "1.0-1";
                                 architecture := ParsedStr "any"; repository := None;
                                 dependencies := []; license := ParsedNone;
                                 error_info := None; installation_status := 0 |} ];
                    pkg_dict := ∅; trace := t; console := [] |}).
  { eexists. vm_compute. reflexivity. }
  destruct Hs as [t Hs].
  split; [rewrite Hs; reflexivity |].
  split; [eexists; split; [vm_compute; reflexivity |]; split; vm_compute; reflexivity |].
  split.
  { intros fuel. cbn [get_package_recursive]. unfold bind at 1, get_state.
    rewrite Hs. cbn [pkg_dict]. rewrite lookup_empty.
    rewrite bool_decide_eq_false_2 by (now intros [x Hx]). reflexivity. }
  split.
  { intros get_rec. rewrite Hs.
    destruct (provider_cycle_step get_rec (ParsedStr "any") ParsedNone None [] 0 t [])
      as [t' Hstep].
    eexists. split; [exact Hstep |]. split; [reflexivity |]. split; [reflexivity |].
    intros get_rec'.
    destruct (provider_cycle_step get_rec' ParsedNone ParsedNone (Some LOCAL) ["x"] 0 t' [])
      as [t'' Hstep'].
    eexists. split; [exact Hstep' | reflexivity]. }
  intros W'. eexists. eexists.
  split; [vm_compute; reflexivity |]. split; vm_compute; reflexivity.
Qed.

(** Without a cycle the missing key shows at installation: resolution of
    the provided name [v] ends and leaves [pkg_dict] empty, and the
    installation loop raises [KeyError]. *)
Lemma provider_name_is_not_registered :
  let W := world_of provider_scenario in
  (exists s,
     for_each ["v"] (get_package_recursive W 3) (scanned provider_scenario) = Done tt s
     /\ pkg_dict s = ∅)
  /\ exists s,
       main_install W 3 (args_of ["v"]) initial_state = Raised (KeyError "v") s.
Proof.
  intros W. split; eexists.
  - split; [vm_compute; reflexivity |]. vm_compute. reflexivity.
  - vm_compute. reflexivity.
Qed.

(** The cycle of the specification, between two cached packages, is
    resolved: each name is registered before its dependencies are
    walked. *)
Lemma cached_cycle_resolution_ends :
  let W := world_of cached_cycle_scenario in
  exists s,
    for_each ["x"] (get_package_recursive W 3) (scanned cached_cycle_scenario) = Done tt s
    /\ pkg_dict s !! "x" = Some 0%nat
    /\ pkg_dict s !! "y" = Some 1%nat
    /\ dependencies (deref s 0) = ["y"]
    /\ dependencies (deref s 1) = ["x"].
Proof.
  intros W. eexists. split; [vm_compute; reflexivity |].
  vm_compute. repeat split; reflexivity.
Qed.

(** ** C7: the order of the attempts *)

Lemma dict_stable_ret {A} (a : A) : dict_stable (ret a).
Proof. intros s. reflexivity. Qed.

Lemma dict_stable_raise {A} (e : Exn) : dict_stable (@raise A e).
Proof. intros s. reflexivity. Qed.

Lemma dict_stable_bind {A B} (m : M A) (k : A -> M B) :
  dict_stable m -> (forall a, dict_stable (k a)) -> dict_stable (bind m k).
Proof.
  intros Hm Hk s. unfold bind. specialize (Hm s).
  destruct (m s) as [a s1 | e s1 |]; [| assumption | exact I].
  specialize (Hk a s1). destruct (k a s1); congruence.
Qed.

Lemma dict_stable_get_state : dict_stable get_state.
Proof. intros s. reflexivity. Qed.

Lemma dict_stable_load (a : addr) : dict_stable (load a).
Proof. intros s. reflexivity. Qed.

Lemma dict_stable_update (a : addr) (f : Package -> Package) : dict_stable (update a f).
Proof. intros s. reflexivity. Qed.

Lemma dict_stable_alloc (p : Package) : dict_stable (alloc p).
Proof. intros s. reflexivity. Qed.

Lemma dict_stable_log_event (e : Event) : dict_stable (log_event e).
Proof. intros s. reflexivity. Qed.

Lemma dict_stable_list_first (l : list string) : dict_stable (list_first l).
Proof. intros s. now destruct l. Qed.

Lemma dict_stable_list_last (l : list string) : dict_stable (list_last l).
Proof. intros s. unfold list_last. now destruct (last l). Qed.

Lemma dict_stable_run_command (W : World) (command : list string) (b : bool) :
  dict_stable (run_command W command b).
Proof.
  intros s. destruct (run_command_Done W command b s) as (s1 & -> & _ & _ & Hd & _).
  exact Hd.
Qed.

Create HintDb dict_stable.
#[local] Hint Resolve dict_stable_ret dict_stable_raise dict_stable_get_state
  dict_stable_load dict_stable_update dict_stable_alloc dict_stable_log_event
  dict_stable_list_first dict_stable_list_last dict_stable_run_command : dict_stable.

Ltac dict_stable_step :=
  first
    [ apply dict_stable_bind; [| intros ?]
    | match goal with
      | |- dict_stable (if ?b then _ else _) => destruct b
      | |- dict_stable (match ?x with _ => _ end) => destruct x
      end
    | solve [auto with dict_stable] ].

Lemma dict_stable_get_installation_status (W : World) (self : addr) :
  dict_stable (get_installation_status W self).
Proof. unfold get_installation_status. repeat dict_stable_step. Qed.

Lemma dict_stable_greatest_version (l : list addr) (pkg : addr) :
  dict_stable (greatest_version pkg l).
Proof.
  revert pkg. induction l as [| c l IH]; intros pkg; cbn [greatest_version].
  - apply dict_stable_ret.
  - repeat dict_stable_step; apply IH.
Qed.

Lemma dict_stable_get_cached_package (W : World) (pkg_name : string) :
  dict_stable (get_cached_package W pkg_name).
Proof.
  unfold get_cached_package.
  apply dict_stable_bind; [apply dict_stable_get_state |]. intros s.
  destruct (filter _ _); [apply dict_stable_ret |].
  apply dict_stable_bind; [apply dict_stable_greatest_version |]. intros pkg.
  apply dict_stable_bind; [apply dict_stable_get_installation_status |]. intros _.
  apply dict_stable_ret.
Qed.

Lemma dict_stable_first_cached (W : World) (out : list string) :
  dict_stable (first_cached W out).
Proof.
  induction out as [| rpn out IH]; cbn [first_cached].
  - apply dict_stable_ret.
  - apply dict_stable_bind; [apply dict_stable_get_cached_package |].
    intros [pkg |]; [apply dict_stable_ret | exact IH].
Qed.

Lemma dict_stable_new_OfficialPackage (W : World) (pkg_name : string) :
  dict_stable (new_OfficialPackage W pkg_name).
Proof.
  unfold new_OfficialPackage.
  apply dict_stable_bind; [apply dict_stable_alloc |]. intros self.
  apply dict_stable_bind; [apply dict_stable_get_installation_status |]. intros _.
  apply dict_stable_ret.
Qed.

Ltac resolver_step :=
  match goal with
  | |- context [get_cached_package ?W ?n ?s] =>
      let H := fresh "Hstable" in
      pose proof (dict_stable_get_cached_package W n s) as H;
      destruct (get_cached_package W n s) as [[?|] ? | ? ? |]
  | |- context [run_command ?W ?c ?b ?s] =>
      let H := fresh "Hstable" in
      pose proof (dict_stable_run_command W c b s) as H;
      destruct (run_command W c b s) as [[[? ?] ?] ? | ? ? |]
  | |- context [if (?x =? 0) then _ else _] => destruct (x =? 0)
  | |- context [list_first ?l ?s] =>
      let H := fresh "Hstable" in
      pose proof (dict_stable_list_first l s) as H;
      destruct (list_first l s) as [? ? | ? ? |]
  | |- context [list_last ?l ?s] =>
      let H := fresh "Hstable" in
      pose proof (dict_stable_list_last l s) as H;
      destruct (list_last l s) as [? ? | ? ? |]
  | |- context [new_OfficialPackage ?W ?n ?s] =>
      let H := fresh "Hstable" in
      pose proof (dict_stable_new_OfficialPackage W n s) as H;
      destruct (new_OfficialPackage W n s) as [? ? | ? ? |]
  | |- context [first_cached ?W ?l ?s] =>
      let H := fresh "Hstable" in
      pose proof (dict_stable_first_cached W l s) as H;
      destruct (first_cached W l s) as [[?|] ? | ? ? |]
  end;
  cbn [result_with_pkg_dict andb negb dict_set modify alloc update with_pkg_dict
       with_heap pkg_dict heap].

Lemma State_ext (s s' : State) :
  pacman_cache_dir s = pacman_cache_dir s' ->
  packages_in_offical_repositories s = packages_in_offical_repositories s' ->
  cached_packages s = cached_packages s' ->
  heap s = heap s' ->
  pkg_dict s = pkg_dict s' ->
  trace s = trace s' ->
  console s = console s' ->
  s = s'.
Proof. destruct s, s'; cbn; intros; congruence. Qed.

Ltac resolver_done :=
  cbn [result_with_pkg_dict]; try reflexivity;
  f_equal; apply State_ext; cbn; congruence.

(** C7 (as amended).  For a name that is not yet a key of [pkg_dict],
    [get_package_recursive] first finds a package and then descends; and
    finding a package is, apart from the keys it registers, the five
    attempts of the specification made in order up to the first success,
    with the provider query reserved to names that are not installed. *)
Theorem C7_alias_resolver_order (W : World) (fuel : nat) (pkg_name : string) (s : State) :
  pkg_dict s !! pkg_name = None ->
  get_package_recursive W (S fuel) pkg_name s
  = (found <- find_package W pkg_name ;;
     descend W (get_package_recursive W fuel) found) s
  /\ result_with_pkg_dict (pkg_dict s) (find_package W pkg_name s)
     = alias_resolver_amended W pkg_name s.
Proof.
  intros Hkey. split.
  { cbn [get_package_recursive]. unfold bind at 1. unfold get_state.
    rewrite bool_decide_eq_false_2; [reflexivity |].
    rewrite Hkey. now intros [x Hx]. }
  unfold find_package, alias_resolver_amended, alias_resolver,
    attempt_cache, attempt_installed, attempt_official, attempt_providers,
    attempt_unavailable, register_official, register_unavailable, bind, ret.
  repeat resolver_step; resolver_done.
Qed.

Lemma C7_witness :
  let W := world_of installed_provider_scenario in
  let s := scanned installed_provider_scenario in
  pkg_dict s !! "n" = None
  /\ get_package_recursive W 1 "n" s
     = (found <- find_package W "n" ;; descend W (get_package_recursive W 0) found) s
  /\ result_with_pkg_dict (pkg_dict s) (find_package W "n" s)
     = alias_resolver_amended W "n" s.
Proof.
  intros W s.
  assert (H : pkg_dict s !! "n" = None) by (vm_compute; reflexivity).
  split; [exact H |].
  exact (C7_alias_resolver_order W 0 "n" s H).
Defined.

(** C7 (as stated) fails: [n] is installed under the canonical name [r],
    which is not cached, and [n] is not in the official repositories; the
    cached package [p] provides [n].  The specification's fourth attempt
    would take [p]; the program does not ask for providers and registers
    an unavailable node. *)
Lemma C7_counterexample :
  let W := world_of installed_provider_scenario in
  let s := scanned installed_provider_scenario in
  pkg_dict s !! "n" = None
  /\ (exists s1,
        find_package W "n" s = Done None s1
        /\ trace s1 = [EvPopen ["package-query"; "-Qiif"; "%n"; "n"] false;
                       EvPopen ["package-query"; "-Siif"; "%n"; "n"] false]
        /\ pkg_dict s1 !! "n" = Some 1%nat
        /\ error_info (deref s1 1)
           = Some (CachedPackageUnavailable "No cached package available for 'n'"))
  /\ (exists s2,
        alias_resolver_spec W "n" s = Done (Some 0%nat) s2
        /\ name (deref s2 0) = Some "p"
        /\ In (EvPopen ["package-query"; "-Aiif"; "%n"; "n"] false) (trace s2))
  /\ result_with_pkg_dict (pkg_dict s) (find_package W "n" s)
     <> alias_resolver_spec W "n" s.
Proof.
  intros W s. split; [vm_compute; reflexivity |].
  split; [| split].
  - eexists. split; [vm_compute; reflexivity |]. vm_compute. repeat split; reflexivity.
  - eexists. split; [vm_compute; reflexivity |]. vm_compute.
    split; [reflexivity |].
    repeat (first [left; reflexivity | right]).
  - vm_compute. discriminate.
Qed.

(** ** C4: the greatest cached version *)

Import LooseVersion.

Lemma ascii_compare_Lt_trans (a b c : ascii) :
  Ascii.compare a b = Lt -> Ascii.compare b c = Lt -> Ascii.compare a c = Lt.
Proof.
  unfold Ascii.compare. rewrite !N.compare_lt_iff. apply N.lt_trans.
Qed.

Lemma ascii_compare_refl (a : ascii) : Ascii.compare a a = Eq.
Proof. unfold Ascii.compare. apply N.compare_refl. Qed.

Lemma string_compare_refl (a : string) : String.compare a a = Eq.
Proof. induction a as [| x a IH]; cbn; [reflexivity |]. now rewrite ascii_compare_refl. Qed.

Lemma string_compare_Lt_trans (a b c : string) :
  String.compare a b = Lt -> String.compare b c = Lt -> String.compare a c = Lt.
Proof.
  revert b c. induction a as [| x a IH]; intros [| y b] [| z c]; cbn; try congruence.
  destruct (Ascii.compare x y) eqn:Hxy; try discriminate;
    destruct (Ascii.compare y z) eqn:Hyz; try discriminate; intros Hab Hbc.
  - apply Ascii.compare_eq_iff in Hxy, Hyz. subst.
    rewrite ascii_compare_refl. eauto.
  - apply Ascii.compare_eq_iff in Hxy. subst. now rewrite Hyz.
  - apply Ascii.compare_eq_iff in Hyz. subst. now rewrite Hxy.
  - now rewrite (ascii_compare_Lt_trans _ _ _ Hxy Hyz).
Qed.

Lemma string_ltb_trans (a b c : string) :
  String.ltb a b = true -> String.ltb b c = true -> String.ltb a c = true.
Proof.
  unfold String.ltb. intros Hab Hbc.
  destruct (String.compare a b) eqn:H1; try discriminate.
  destruct (String.compare b c) eqn:H2; try discriminate.
  now rewrite (string_compare_Lt_trans _ _ _ H1 H2).
Qed.

Lemma string_ltb_irrefl (a : string) : String.ltb a a = false.
Proof. unfold String.ltb. now rewrite string_compare_refl. Qed.

Lemma component_eqb_eq (x y : component) : component_eqb x y = true <-> x = y.
Proof.
  destruct x as [a | a], y as [b | b]; cbn; split; try congruence.
  - intros H. apply Z.eqb_eq in H. congruence.
  - intros [= ->]. apply Z.eqb_refl.
  - intros H. apply String.eqb_eq in H. congruence.
  - intros [= ->]. apply String.eqb_refl.
Qed.

Lemma component_eqb_refl (x : component) : component_eqb x x = true.
Proof. now apply component_eqb_eq. Qed.

Lemma component_lt_trans (x y z : component) :
  component_lt x y = Some true -> component_lt y z = Some true ->
  component_lt x z = Some true.
Proof.
  destruct x as [a | a], y as [b | b], z as [c | c]; cbn; try congruence.
  - intros [= Hab] [= Hbc]. f_equal. lia.
  - intros [= Hab] [= Hbc]. f_equal. eapply string_ltb_trans; eassumption.
Qed.

Lemma component_lt_irrefl (x : component) : component_lt x x = Some false.
Proof.
  destruct x as [a | a]; cbn; f_equal; [apply Z.ltb_irrefl | apply string_ltb_irrefl].
Qed.

Lemma list_lt_irrefl (a : list component) : list_lt a a = Some false.
Proof.
  induction a as [| x a IH]; cbn; [reflexivity |]. now rewrite component_eqb_refl.
Qed.

Lemma list_eqb_eq (a b : list component) : list_eqb a b = true <-> a = b.
Proof.
  revert b. induction a as [| x a IH]; intros [| y b]; cbn; split; try congruence.
  - intros H. apply andb_true_iff in H as [Hx Hab].
    apply component_eqb_eq in Hx. apply IH in Hab. congruence.
  - intros [= -> ->]. rewrite component_eqb_refl. now apply IH.
Qed.

Lemma list_lt_trans (a b c : list component) :
  list_lt a b = Some true -> list_lt b c = Some true -> list_lt a c = Some true.
Proof.
  revert b c. induction a as [| x a IH]; intros [| y b] [| z c]; cbn; try congruence.
  destruct (component_eqb x y) eqn:Hxy; destruct (component_eqb y z) eqn:Hyz;
    intros Hab Hbc.
  - apply component_eqb_eq in Hxy, Hyz. subst.
    rewrite component_eqb_refl. eauto.
  - apply component_eqb_eq in Hxy. subst. now rewrite Hyz.
  - apply component_eqb_eq in Hyz. subst. now rewrite Hxy.
  - pose proof (component_lt_trans _ _ _ Hab Hbc) as Hxz.
    destruct (component_eqb x z) eqn:Hxz'; [| exact Hxz].
    apply component_eqb_eq in Hxz'. subst.
    rewrite component_lt_irrefl in Hxz. discriminate.
Qed.

Lemma lt_true_iff (v1 v2 : option string) :
  LooseVersion.lt v1 v2 = inr true <->
  exists a b, version_attr v1 = Some a /\ version_attr v2 = Some b
              /\ list_lt a b = Some true.
Proof.
  unfold LooseVersion.lt, _cmp. split.
  - destruct (version_attr v1) as [a |]; [| discriminate].
    destruct (version_attr v2) as [b |]; [| discriminate].
    destruct (list_eqb a b); [discriminate |].
    destruct (list_lt a b) as [[|] |] eqn:Hlt; try discriminate.
    + intros _. exists a, b. auto.
    + destruct (list_lt b a) as [[|] |]; discriminate.
  - intros (a & b & -> & -> & Hlt).
    destruct (list_eqb a b) eqn:Heq.
    + apply list_eqb_eq in Heq. subst. rewrite list_lt_irrefl in Hlt. discriminate.
    + now rewrite Hlt.
Qed.

Lemma lt_trans (v1 v2 v3 : option string) :
  LooseVersion.lt v1 v2 = inr true -> LooseVersion.lt v2 v3 = inr true ->
  LooseVersion.lt v1 v3 = inr true.
Proof.
  rewrite !lt_true_iff.
  intros (a & b & Ha & Hb & Hab) (b' & c & Hb' & Hc & Hbc).
  assert (b' = b) by congruence. subst.
  exists a, c. eauto using list_lt_trans.
Qed.

Lemma lt_irrefl (v : option string) : LooseVersion.lt v v <> inr true.
Proof.
  rewrite lt_true_iff. intros (a & b & Ha & Hb & Hlt).
  assert (b = a) by congruence. subst.
  rewrite list_lt_irrefl in Hlt. discriminate.
Qed.

Lemma greatest_version_Done (s : State) (U : list addr) :
  comparable s U ->
  forall (l : list addr) (pkg : addr),
    pkg ∈ U -> (forall b, b ∈ l -> b ∈ U) ->
    exists best,
      greatest_version pkg l s = Done best s
      /\ best ∈ pkg :: l
      /\ (forall b, b ∈ U ->
            LooseVersion.lt (version (deref s pkg)) (version (deref s b)) = inr false ->
            LooseVersion.lt (version (deref s best)) (version (deref s b)) = inr false)
      /\ (forall b, b ∈ l ->
            LooseVersion.lt (version (deref s best)) (version (deref s b)) = inr false).
Proof.
  intros Hcmp l. induction l as [| c l IH]; intros pkg Hpkg Hl.
  - exists pkg. cbn. repeat split; auto.
    + apply elem_of_cons. now left.
    + intros b Hb. now apply elem_of_nil in Hb.
  - assert (Hc : c ∈ U) by (apply Hl, elem_of_cons; now left).
    assert (Hl' : forall b, b ∈ l -> b ∈ U)
      by (intros b Hb; apply Hl, elem_of_cons; now right).
    cbn [greatest_version]. unfold bind, load.
    destruct (Hcmp pkg c Hpkg Hc) as [r Hr]. rewrite Hr.
    destruct r.
    + destruct (IH c Hc Hl') as (best & Hrun & Hin & Hup & Hall).
      assert (Hstep : forall b, b ∈ U ->
                LooseVersion.lt (version (deref s pkg)) (version (deref s b)) = inr false ->
                LooseVersion.lt (version (deref s c)) (version (deref s b)) = inr false).
      { intros b Hb Hpb. destruct (Hcmp c b Hc Hb) as [[|] Hcb]; [| exact Hcb].
        pose proof (lt_trans _ _ _ Hr Hcb) as Habs. congruence. }
      exists best. split; [exact Hrun |]. split; [| split].
      * apply elem_of_cons. right. exact Hin.
      * intros b Hb Hpb. apply Hup; auto.
      * intros b Hb. apply elem_of_cons in Hb as [-> | Hb]; [| now apply Hall].
        apply Hup; [exact Hc |].
        destruct (Hcmp c c Hc Hc) as [[|] Hcc]; [| exact Hcc].
        now apply lt_irrefl in Hcc.
    + destruct (IH pkg Hpkg Hl') as (best & Hrun & Hin & Hup & Hall).
      exists best. split; [exact Hrun |]. split; [| split].
      * apply elem_of_cons in Hin as [-> | Hin]; apply elem_of_cons;
          [now left | right; apply elem_of_cons; now right].
      * exact Hup.
      * intros b Hb. apply elem_of_cons in Hb as [-> | Hb]; [| now apply Hall].
        apply Hup; assumption.
Qed.

Lemma deref_set_installation_status (s : State) (a b : addr) (k : Z) :
  name (deref (with_heap (<[a := set_installation_status k (deref s a)]> (heap s)) s) b)
  = name (deref s b)
  /\ version (deref (with_heap (<[a := set_installation_status k (deref s a)]> (heap s)) s) b)
     = version (deref s b).
Proof.
  destruct (decide (a = b)) as [<- | Hne].
  - destruct (heap s !! a) as [p |] eqn:Hp.
    + rewrite (deref_insert_eq _ _ _ _ Hp). cbn. now split.
    + assert (Hsame : <[a := set_installation_status k (deref s a)]> (heap s) = heap s)
        by (apply list_insert_ge; now apply lookup_ge_None).
      rewrite Hsame. unfold deref. cbn. now split.
  - rewrite (deref_insert_ne _ _ _ _ Hne). now split.
Qed.

Lemma get_installation_status_Done (W : World) (self : addr) (s : State) :
  exists s',
    get_installation_status W self s = Done tt s'
    /\ (forall b, name (deref s' b) = name (deref s b)
                  /\ version (deref s' b) = version (deref s b))
    /\ pkg_dict s' = pkg_dict s
    /\ cached_packages s' = cached_packages s.
Proof.
  unfold get_installation_status, bind, load, get_state, log_event, modify.
  cbn [trace with_trace].
  destruct (pacman_is_installed W (trace s) (name (deref s self)));
    [destruct (bool_decide _) |];
    rewrite update_Done; eexists; (split; [reflexivity |]);
    (split; [| split; reflexivity]);
    intros b;
    match goal with
    | |- context [set_installation_status ?k _] =>
        exact (deref_set_installation_status
                 (with_trace _ (with_trace _ s)) self b k)
        || exact (deref_set_installation_status (with_trace _ s) self b k)
    end.
Qed.

Lemma get_cached_package_not_found (W : World) (pkg_name : string) (s : State) :
  (forall a, a ∈ cached_packages s -> name (deref s a) <> Some pkg_name) ->
  get_cached_package W pkg_name s = Done None s.
Proof.
  intros Hnone. unfold get_cached_package, bind, get_state.
  destruct (filter _ _) as [| a l] eqn:Hf; [reflexivity |].
  assert (Ha : a ∈ filter (fun cached_pkg => name (deref s cached_pkg) = Some pkg_name)
                 (cached_packages s)) by (rewrite Hf; apply elem_of_cons; now left).
  apply list_elem_of_filter in Ha as [Hname Hin].
  now apply Hnone in Hin.
Qed.

Lemma get_cached_package_greatest (W : World) (pkg_name : string) (s : State) :
  comparable s (filter (fun a => name (deref s a) = Some pkg_name) (cached_packages s)) ->
  (exists a, a ∈ cached_packages s /\ name (deref s a) = Some pkg_name) ->
  exists pkg s',
    get_cached_package W pkg_name s = Done (Some pkg) s'
    /\ pkg ∈ cached_packages s
    /\ name (deref s pkg) = Some pkg_name
    /\ (forall b, b ∈ cached_packages s -> name (deref s b) = Some pkg_name ->
          LooseVersion.lt (version (deref s pkg)) (version (deref s b)) = inr false)
    /\ name (deref s' pkg) = name (deref s pkg)
    /\ version (deref s' pkg) = version (deref s pkg).
Proof.
  intros Hcmp (a0 & Hin0 & Hname0).
  unfold get_cached_package, bind at 1, get_state.
  set (candidates := filter (fun a => name (deref s a) = Some pkg_name) (cached_packages s)) in *.
  assert (Ha0 : a0 ∈ candidates) by (apply list_elem_of_filter; now split).
  destruct candidates as [| first rest] eqn:Hcand; [now apply elem_of_nil in Ha0 |].
  assert (Hfirst : first ∈ first :: rest) by (apply elem_of_cons; now left).
  destruct (greatest_version_Done s (first :: rest) Hcmp (first :: rest) first Hfirst
              (fun b Hb => Hb)) as (best & Hrun & Hin & _ & Hall).
  unfold bind at 1. rewrite Hrun.
  destruct (get_installation_status_Done W best s) as (s' & Hstatus & Hfields & _).
  unfold bind. rewrite Hstatus. cbn.
  assert (Hbest : best ∈ first :: rest).
  { apply elem_of_cons in Hin as [-> | Hin]; assumption. }
  subst candidates. rewrite <- Hcand in Hbest, Hall.
  apply list_elem_of_filter in Hbest as [Hname Hmem].
  exists best, s'. split; [reflexivity |]. split; [exact Hmem |]. split; [exact Hname |].
  split; [| apply Hfields].
  intros b Hb Hnb. apply Hall, list_elem_of_filter. now split.
Qed.

(** C4 (fails on the code).  The cache holds versions 1.2-1 and 1.2.1-1
    of [foo].  Their third components are the string "-" and the integer
    1, which Python 3 does not order: the lookup raises [TypeError]
    instead of returning the greater version, and the run ends with exit
    status 1. *)
Theorem C4_incomparable_versions_raise :
  let W := world_of mixed_versions_scenario in
  let s := scanned mixed_versions_scenario in
  cached_packages s = [0; 1]%nat
  /\ name (deref s 0) = Some "foo" /\ version (deref s 0) = Some "1.2-1"
  /\ name (deref s 1) = Some "foo" /\ version (deref s 1) = Some "1.2.1-1"
  /\ LooseVersion.parse "1.2-1"
     = [LooseVersion.CInt 1; LooseVersion.CInt 2; LooseVersion.CStr "-"; LooseVersion.CInt 1]
  /\ LooseVersion.parse "1.2.1-1"
     = [LooseVersion.CInt 1; LooseVersion.CInt 2; LooseVersion.CInt 1;
        LooseVersion.CStr "-"; LooseVersion.CInt 1]
  /\ get_cached_package W "foo" s
     = Raised (TypeError "'<' not supported between instances of 'str' and 'int'") s
  /\ exit_status (script W 3 (args_of ["foo"]) initial_state) = Some 1.
Proof.
  vm_compute. repeat split; reflexivity.
Qed.

(** The example of the specification: of 2.9-1 and 2.10-1 the lookup returns
    2.10-1, which is the smaller of the two as a string. *)
Lemma two_versions_selects_2_10 :
  let W := world_of two_versions_scenario in
  let s := scanned two_versions_scenario in
  version (deref s 0) = Some "2.9-1"
  /\ version (deref s 1) = Some "2.10-1"
  /\ String.ltb "2.10-1" "2.9-1" = true
  /\ LooseVersion.lt (Some "2.9-1") (Some "2.10-1") = inr true
  /\ exists s', get_cached_package W "foo" s = Done (Some 1%nat) s'.
Proof.
  vm_compute. repeat split; try reflexivity. eexists. reflexivity.
Qed.

(** ** C10: the case of package names *)

Lemma lower_char_idem (c : ascii) : PyStr.lower_char (PyStr.lower_char c) = PyStr.lower_char c.
Proof.
  destruct c as [[] [] [] [] [] [] [] []]; reflexivity.
Qed.

Lemma eq_ignore_case_lower (s t : string) :
  PyStr.eq_ignore_case s t = true -> PyStr.lower s = PyStr.lower t.
Proof.
  revert t. induction s as [| c s IH]; intros [| d t]; cbn; try congruence.
  intros H. apply andb_true_iff in H as [Hc Hs].
  apply Ascii.eqb_eq in Hc. rewrite Hc. f_equal. now apply IH.
Qed.

Lemma eq_ignore_case_lower_iff (s t : string) :
  PyStr.eq_ignore_case s t = true <-> PyStr.lower s = PyStr.lower t.
Proof.
  split; [apply eq_ignore_case_lower |].
  revert t. induction s as [| c s IH]; intros [| d t]; cbn; try congruence.
  intros [= Hc Hs]. rewrite Hc, Ascii.eqb_refl. now apply IH.
Qed.

Lemma Forall2_eq_ignore_case_lower (l1 l2 : list string) :
  Forall2 (fun n1 n2 => PyStr.eq_ignore_case n1 n2 = true) l1 l2 ->
  map PyStr.lower l1 = map PyStr.lower l2.
Proof.
  induction 1 as [| n1 n2 l1 l2 Hn _ IH]; cbn; [reflexivity |].
  now rewrite (eq_ignore_case_lower _ _ Hn), IH.
Qed.

Lemma append_empty_r (s : string) : s +:+ "" = s.
Proof.
  induction s as [| c s IH]; [reflexivity |].
  change (String c (s +:+ "") = String c s). now rewrite IH.
Qed.

Lemma append_cons (x : ascii) (a b : string) : String x a +:+ b = String x (a +:+ b).
Proof. reflexivity. Qed.

Lemma append_assoc (a b c : string) : (a +:+ b) +:+ c = a +:+ (b +:+ c).
Proof.
  induction a as [| x a IH]; [reflexivity |]. rewrite !append_cons. now rewrite IH.
Qed.

(** What [str.lower] does to each character. *)
Lemma lower_spec (n : string) :
  String.length (PyStr.lower n) = String.length n
  /\ forall i,
       String.get i (PyStr.lower n)
       = (fun c => if ((65 <=? nat_of_ascii c) && (nat_of_ascii c <=? 90))%nat
                   then ascii_of_nat (nat_of_ascii c + 32) else c) <$> String.get i n.
Proof.
  induction n as [| c n [IHlen IHget]]; cbn [PyStr.lower String.length].
  - split; [reflexivity |]. intros i. reflexivity.
  - split; [now rewrite IHlen |]. intros [| i]; cbn [String.get]; [reflexivity | apply IHget].
Qed.

Lemma before_operator_prefix (s pre : string) :
  before_operator s = Some pre -> exists rest, s = pre +:+ rest.
Proof.
  revert pre. induction s as [| c s IH]; cbn; [discriminate |]. intros pre.
  destruct (Ascii.eqb c "<" || Ascii.eqb c ">").
  - intros [= <-]. now exists (String c s).
  - destruct (before_operator s) as [pre' |]; cbn; [| discriminate].
    intros [= <-]. destruct (IH _ eq_refl) as [rest ->]. now exists rest.
Qed.

Lemma cut_constraint_prefix (line : string) :
  exists rest, line = cut_constraint line +:+ rest.
Proof.
  destruct line as [| c s]; cbn; [now exists "" |].
  destruct (before_operator s) as [pre |] eqn:Hpre.
  - destruct (before_operator_prefix _ _ Hpre) as [rest ->]. now exists rest.
  - exists "". now rewrite append_empty_r.
Qed.

Lemma chomp_spec (s : string) :
  s = (chomp s).1 +:+ (if (chomp s).2 then PyStr.newline else "").
Proof.
  induction s as [| c s IH]; [reflexivity |].
  cbn [chomp]. destruct s as [| d s].
  - destruct (PyStr.is_lf c) eqn:Hc; cbn [fst snd]; [| reflexivity].
    apply Nat.eqb_eq in Hc. rewrite <- (ascii_nat_embedding c), Hc. reflexivity.
  - destruct (chomp (String d s)) as [body ended]. cbn [fst snd] in *.
    rewrite append_cons. now rewrite <- IH.
Qed.

Lemma split_last_line_spec (s : string) :
  s = (split_last_line s).1 +:+ (split_last_line s).2.
Proof.
  induction s as [| c s IH]; [reflexivity |].
  cbn [split_last_line]. destruct (split_last_line s) as [[| h head] line]; cbn [fst snd] in *.
  - destruct (PyStr.is_lf c); cbn [fst snd]; rewrite ?append_cons; now rewrite IH.
  - rewrite append_cons. now rewrite <- IH.
Qed.

(** The substitution only deletes: it takes one segment out of the
    string and changes no character. *)
Lemma strip_constraint_deletes (d : string) :
  exists a b c, d = a +:+ b +:+ c /\ strip_constraint d = a +:+ c.
Proof.
  unfold strip_constraint.
  pose proof (chomp_spec d) as Hd. destruct (chomp d) as [body ended]. cbn [fst snd] in Hd.
  pose proof (split_last_line_spec body) as Hb.
  destruct (split_last_line body) as [head line]. cbn [fst snd] in Hb.
  destruct (cut_constraint_prefix line) as [rest Hline].
  exists (head +:+ cut_constraint line), rest, (if ended then PyStr.newline else "").
  split; [| now rewrite append_assoc].
  rewrite Hd, Hb. rewrite Hline at 1. now rewrite !append_assoc.
Qed.

Lemma _get_dependencies_from_alias_known (W : World) (l : list string) :
  (forall t d, In d l ->
     (popen W t ["package-query"; "-QASiif"; "%n"; strip_constraint d] false).1.1 = 0) ->
  forall s, exists s',
    _get_dependencies_from_alias W l s = Done (map strip_constraint l) s'.
Proof.
  induction l as [| d l IH]; intros Hrc s; cbn [_get_dependencies_from_alias map].
  - eexists. reflexivity.
  - destruct (run_command_Done W ["package-query"; "-QASiif"; "%n"; strip_constraint d]
                false s) as (s1 & Hrun & _).
    unfold bind at 1. rewrite Hrun, (Hrc _ d (or_introl eq_refl)). cbn.
    destruct (IH (fun t d' Hd' => Hrc t d' (or_intror Hd')) s1) as (s2 & Hrest).
    unfold bind. rewrite Hrest. eexists. reflexivity.
Qed.

Lemma greatest_version_returns (l : list addr) :
  forall (pkg best : addr) (s s' : State),
    greatest_version pkg l s = Done best s' -> best ∈ pkg :: l /\ s' = s.
Proof.
  induction l as [| c l IH]; intros pkg best s s'; cbn [greatest_version].
  - intros [= <- <-]. split; [apply elem_of_cons; now left | reflexivity].
  - unfold bind, load.
    destruct (LooseVersion.lt (version (deref s pkg)) (version (deref s c))) as [e | []];
      [discriminate | |]; intros Hrun; destruct (IH _ _ _ _ Hrun) as [Hin ->];
      (split; [| reflexivity]).
    + apply elem_of_cons. right. exact Hin.
    + apply elem_of_cons in Hin as [-> | Hin]; apply elem_of_cons;
        [now left | right; apply elem_of_cons; now right].
Qed.

(** The lookup returns only a cached package whose name is exactly the
    name asked for. *)
Lemma get_cached_package_exact (W : World) (pkg_name : string) (s s' : State) (pkg : addr) :
  get_cached_package W pkg_name s = Done (Some pkg) s' ->
  pkg ∈ cached_packages s /\ name (deref s pkg) = Some pkg_name.
Proof.
  unfold get_cached_package, bind at 1, get_state.
  destruct (filter _ _) as [| first rest] eqn:Hf; [discriminate |].
  unfold bind at 1.
  destruct (greatest_version first (first :: rest) s) as [best s1 | |] eqn:Hbest;
    try discriminate.
  destruct (greatest_version_returns _ _ _ _ _ Hbest) as [Hin ->].
  destruct (get_installation_status_Done W best s) as (s2 & Hstatus & _).
  unfold bind. rewrite Hstatus. cbn. intros [= <- _].
  assert (Hmem : best ∈ first :: rest).
  { apply elem_of_cons in Hin as [-> | Hin]; [apply elem_of_cons; now left | exact Hin]. }
  rewrite <- Hf in Hmem. apply list_elem_of_filter in Hmem as [Hname Hmem]. now split.
Qed.

(** C10.  Two command lines that differ only in the case of ASCII
    letters of the requested names give the same run.  That run resolves,
    installs and reports the lower-cased names, where lower-casing keeps
    the length of a name and replaces each of the letters [A] to [Z] by
    the letter 32 code points further and no other character.  Dependency
    names are kept as the descriptor spells them: when the alias queries
    succeed the dependency list is the list of descriptor values after
    the substitution that cuts the version constraint, which deletes one
    segment and changes no character.  The cache lookup compares names
    exactly: it returns only an entry whose name is the name asked for, so
    a lower-cased requested name never yields an entry that differs from
    it, in case or otherwise, and yields nothing when there is no entry of
    exactly that name. *)
Theorem C10_requested_names_are_lowercased
  (W : World) (fuel : nat) (args1 args2 : Args) (s : State) :
  args_use_cache_only args1 = args_use_cache_only args2 ->
  args_cache_dir args1 = args_cache_dir args2 ->
  args_force args1 = args_force args2 ->
  Forall2 (fun n1 n2 => PyStr.eq_ignore_case n1 n2 = true)
    (args_package_names args1) (args_package_names args2) ->
  script W fuel args1 s = script W fuel args2 s
  /\ main W fuel args1 s
     = main W fuel (mkArgs (args_use_cache_only args1) (args_cache_dir args1)
                      (args_force args1) (map PyStr.lower (args_package_names args1))) s
  /\ (let package_names := map PyStr.lower (args_package_names args1) in
      main W fuel args1 s
      = (main_setup W args1 ;;;
         for_each package_names (get_package_recursive W fuel) ;;;
         for_each package_names
           (fun pkg_name =>
              install_package_recursive W fuel pkg_name
                (args_use_cache_only args1) (args_force args1)) ;;;
         printInfo (PyStr.newline +:+ "Installation Statistics:") ;;;
         for_each package_names (print_installation_log fuel)) s)
  /\ (forall n : string,
        String.length (PyStr.lower n) = String.length n
        /\ forall i,
             String.get i (PyStr.lower n)
             = (fun c => if ((65 <=? nat_of_ascii c) && (nat_of_ascii c <=? 90))%nat
                         then ascii_of_nat (nat_of_ascii c + 32) else c)
                 <$> String.get i n)
  /\ (forall (l : list string) (s0 : State),
        (forall t d, In d l ->
           (popen W t ["package-query"; "-QASiif"; "%n"; strip_constraint d] false).1.1 = 0) ->
        exists s1, _get_dependencies_from_alias W l s0 = Done (map strip_constraint l) s1)
  /\ (forall d : string,
        exists a b c, d = a +:+ b +:+ c /\ strip_constraint d = a +:+ c)
  /\ (forall (requested : string) (s0 s1 : State) (pkg : addr),
        get_cached_package W (PyStr.lower requested) s0 = Done (Some pkg) s1 ->
        pkg ∈ cached_packages s0 /\ name (deref s0 pkg) = Some (PyStr.lower requested))
  /\ (forall (requested : string) (s0 : State),
        (forall a, a ∈ cached_packages s0 ->
                   name (deref s0 a) <> Some (PyStr.lower requested)) ->
        get_cached_package W (PyStr.lower requested) s0 = Done None s0).
Proof.
  intros Hu Hc Hf Hnames.
  apply Forall2_eq_ignore_case_lower in Hnames.
  split; [| split; [| split; [| split; [| split; [| split; [| split]]]]]].
  - destruct args1, args2; cbn in *; subst.
    unfold script, main, main_install. cbn. now rewrite Hnames.
  - destruct args1; cbn. unfold main, main_install. cbn.
    rewrite map_map.
    rewrite (map_ext (fun x => PyStr.lower (PyStr.lower x)) PyStr.lower); [reflexivity |].
    intros n. induction n as [| c n IH]; cbn; [reflexivity |].
    now rewrite lower_char_idem, IH.
  - cbv zeta. unfold main, main_install, bind, ret.
    destruct (main_setup W args1 s) as [[] s1 | |]; [| reflexivity | reflexivity].
    destruct (for_each _ (get_package_recursive W fuel) s1) as [[] s2 | |];
      [| reflexivity | reflexivity].
    destruct (for_each _ _ s2) as [[] s3 | |]; reflexivity.
  - apply lower_spec.
  - intros l s0 Hrc. now apply _get_dependencies_from_alias_known.
  - apply strip_constraint_deletes.
  - intros requested s0 s1 pkg. apply get_cached_package_exact.
  - intros requested s0. apply get_cached_package_not_found.
Qed.

(** In the scenario [a] is cached and depends on [Foo>=1.0], and [Foo] is
    cached under that name.  The requests [A foo] and [a FOO] give one
    run; the requested name [FOO] is looked up as [foo], which is no name
    of the cache, although [Foo] differs from it only in case. *)
Lemma C10_witness :
  let W := world_of case_scenario in
  let s := scanned case_scenario in
  Forall2 (fun n1 n2 => PyStr.eq_ignore_case n1 n2 = true) ["A"; "foo"] ["a"; "FOO"]
  /\ script W 3 (args_of ["A"; "foo"]) initial_state
     = script W 3 (args_of ["a"; "FOO"]) initial_state
  /\ PyStr.lower "FOO" = "foo"
  /\ name (deref s 1) = Some "Foo"
  /\ PyStr.eq_ignore_case "FOO" "Foo" = true
  /\ (forall a, a ∈ cached_packages s -> name (deref s a) <> Some (PyStr.lower "FOO"))
  /\ get_cached_package W (PyStr.lower "FOO") s = Done None s.
Proof.
  intros W s.
  assert (H : Forall2 (fun n1 n2 => PyStr.eq_ignore_case n1 n2 = true)
                ["A"; "foo"] ["a"; "FOO"]).
  { repeat constructor. }
  assert (Hnone : forall a, a ∈ cached_packages s ->
                            name (deref s a) <> Some (PyStr.lower "FOO")).
  { intros a Ha. vm_compute in Ha.
    apply elem_of_cons in Ha as [-> | Ha]; [vm_compute; discriminate |].
    apply elem_of_cons in Ha as [-> | Ha];
      [vm_compute; discriminate | now apply elem_of_nil in Ha]. }
  split; [exact H |].
  pose proof (C10_requested_names_are_lowercased W 3 (args_of ["A"; "foo"])
                (args_of ["a"; "FOO"]) initial_state eq_refl eq_refl eq_refl H)
    as (Hscript & _ & _ & _ & _ & _ & _ & Hlookup).
  split; [exact Hscript |].
  split; [reflexivity |].
  split; [vm_compute; reflexivity |].
  split; [reflexivity |].
  split; [exact Hnone |].
  exact (Hlookup "FOO" s Hnone).
Defined.

(** In the scenario: the dependency [Foo] of [a] is found in the cache
    under that name; the requested name [Foo] is looked up as [foo] and
    is not found. *)
Lemma case_scenario_dependency_keeps_case :
  let W := world_of case_scenario in
  (exists s,
     for_each ["a"] (get_package_recursive W 3) (scanned case_scenario) = Done tt s
     /\ dependencies (deref s 0) = ["Foo"]
     /\ pkg_dict s !! "Foo" = Some 1%nat
     /\ pkg_dict s !! "foo" = None)
  /\ (exists s,
        for_each [PyStr.lower "Foo"] (get_package_recursive W 3) (scanned case_scenario)
        = Done tt s
        /\ pkg_dict s !! "Foo" = None
        /\ pkg_dict s !! "foo" = Some 2%nat
        /\ error_info (deref s 2)
           = Some (CachedPackageUnavailable "No cached package available for 'foo'")).
Proof.
  intros W. split; eexists; (split; [vm_compute; reflexivity |]);
    vm_compute; repeat split; reflexivity.
Qed.

(** ** Invariants of resolution, installation and report *)

Section Keeps.

Variable R : State -> State -> Prop.
Hypothesis R_refl : forall s, R s s.
Hypothesis R_trans : forall s1 s2 s3, R s1 s2 -> R s2 s3 -> R s1 s3.

Lemma keeps_ret {A} (a : A) : keeps R (ret a).
Proof. intros s. apply R_refl. Qed.

Lemma keeps_raise {A} (e : Exn) : is_Exception e = true -> keeps R (@raise A e).
Proof. intros He s. cbn. auto. Qed.

Lemma keeps_bind {A B} (m : M A) (k : A -> M B) :
  keeps R m -> (forall a, keeps R (k a)) -> keeps R (bind m k).
Proof.
  intros Hm Hk s. unfold bind. specialize (Hm s).
  destruct (m s) as [a s1 | e s1 |]; [| assumption | exact I].
  specialize (Hk a s1). destruct (k a s1) as [b s2 | e s2 |]; [| | exact I].
  - eauto.
  - destruct Hk. eauto.
Qed.

Lemma keeps_try_except {A} (m : M A) (h : Exn -> M A) :
  keeps R m -> (forall e, keeps R (h e)) -> keeps R (try_except m h).
Proof.
  intros Hm Hh s. unfold try_except. specialize (Hm s).
  destruct (m s) as [a s1 | e s1 |]; [assumption | | exact I].
  destruct Hm as [HR He]. rewrite He.
  specialize (Hh e s1). destruct (h e s1) as [b s2 | e2 s2 |]; [| | exact I].
  - eauto.
  - destruct Hh. eauto.
Qed.

Lemma keeps_get_state : keeps R get_state.
Proof. intros s. apply R_refl. Qed.

Lemma keeps_load (a : addr) : keeps R (load a).
Proof. intros s. apply R_refl. Qed.

Lemma keeps_dict_get (key : string) : keeps R (dict_get key).
Proof. intros s. unfold dict_get. destruct (pkg_dict s !! key); cbn; auto. Qed.

Lemma keeps_list_first (l : list string) : keeps R (list_first l).
Proof. intros s. destruct l; cbn; auto. Qed.

Lemma keeps_list_last (l : list string) : keeps R (list_last l).
Proof. intros s. unfold list_last. destruct (last l); cbn; auto. Qed.

Lemma keeps_for_each {A} (l : list A) (body : A -> M unit) :
  (forall x, keeps R (body x)) -> keeps R (for_each l body).
Proof.
  intros Hbody. induction l as [| x l IH]; cbn [for_each].
  - apply keeps_ret.
  - apply keeps_bind; [apply Hbody | intros _; exact IH].
Qed.

Lemma keeps_format_log (p : Package) (msg prefix : string) :
  keeps R (format_log p msg prefix).
Proof.
  intros s. unfold format_log.
  destruct (PyStr.len (name p)), (PyStr.len (version p)); cbn; auto.
  destruct (version p) as [[|] |]; cbn; auto.
Qed.


(** *** The report *)

Lemma keeps_log_packages
  (log_rec : list string -> string -> M (bool * list string))
  (prefix : string) (is_root : bool) (items : list (nat * nat * string)) :
  (forall deps p, keeps R (log_rec deps p)) ->
  forall success log log_prefix intermediate_prefix,
    keeps R (log_packages log_rec prefix is_root items success log
               log_prefix intermediate_prefix).
Proof.
  intros Hrec. induction items as [| [[pos anchor] pkg_name] items IH];
    intros success log log_prefix intermediate_prefix; cbn [log_packages].
  - apply keeps_ret.
  - apply keeps_bind; [apply keeps_dict_get | intros pkg].
    apply keeps_bind; [apply keeps_load | intros p].
    destruct (if is_root then _ else _) as [lp ip].
    apply keeps_bind.
    { destruct (0 <? length (dependencies p))%nat; [apply Hrec | apply keeps_ret]. }
    intros [success' log_dep].
    apply keeps_bind; [| intros [success'' log']; apply IH].
    repeat match goal with
           | |- keeps R (if ?b then _ else _) => destruct b
           | |- keeps R (bind _ _) => apply keeps_bind; [apply keeps_format_log | intros ?]
           | |- keeps R (ret _) => apply keeps_ret
           end.
Qed.

Lemma keeps_print_installation_log_recursive (fuel : nat) :
  forall pkg_names prefix is_root,
    keeps R (print_installation_log_recursive fuel pkg_names prefix is_root).
Proof.
  induction fuel as [| fuel IH]; intros pkg_names prefix is_root;
    cbn [print_installation_log_recursive].
  - intros s. exact I.
  - apply keeps_log_packages. intros deps p. apply IH.
Qed.

(** *** Statements with an effect *)

Variable logged : Event -> Prop.
Hypothesis R_log : forall e s, logged e -> R s (with_trace (trace s ++ [e]) s).
Hypothesis R_print : forall line s, R s (with_console (console s ++ [line]) s).

Lemma keeps_log_event (e : Event) : logged e -> keeps R (log_event e).
Proof. intros He s. now apply R_log. Qed.

Lemma keeps_print (line : string) : keeps R (print line).
Proof. intros s. apply R_print. Qed.

Lemma keeps_printInfo (message : string) : keeps R (printInfo message).
Proof. apply keeps_print. Qed.

Lemma keeps_printError (message : string) : keeps R (printError message).
Proof. apply keeps_print. Qed.

Lemma keeps_printSuccessfull (message : string) : keeps R (printSuccessfull message).
Proof. apply keeps_print. Qed.

Lemma keeps_run_command (W : World) (command : list string) (print_output : bool) :
  logged (EvPopen command print_output) ->
  keeps R (run_command W command print_output).
Proof.
  intros Hlogged.
  unfold run_command. apply keeps_bind; [apply keeps_get_state | intros s].
  destruct (popen W (trace s) command print_output) as [[rc out] err].
  apply keeps_bind; [now apply keeps_log_event | intros _].
  destruct print_output; [| apply keeps_ret].
  apply keeps_bind; [apply keeps_for_each, keeps_print | intros _].
  destruct (negb (rc =? 0)); [| apply keeps_ret].
  apply keeps_bind; [apply keeps_for_each, keeps_printError | intros _].
  apply keeps_ret.
Qed.

Lemma keeps_print_installation_log (fuel : nat) (pkg_name : string) :
  keeps R (print_installation_log fuel pkg_name).
Proof.
  unfold print_installation_log.
  apply keeps_bind; [apply keeps_print_installation_log_recursive |].
  intros [ok log]. apply keeps_for_each. intros line.
  destruct ok; [apply keeps_printSuccessfull | apply keeps_printError].
Qed.

(** *** Attribute assignments *)

Variable allowed : (Package -> Package) -> Prop.
Hypothesis R_update :
  forall a f s, allowed f -> R s (with_heap (<[a := f (deref s a)]> (heap s)) s).

Lemma keeps_update (a : addr) (f : Package -> Package) :
  allowed f -> keeps R (update a f).
Proof. intros Hf s. now apply R_update. Qed.

Hypothesis allowed_status : forall k, allowed (set_installation_status k).
Hypothesis allowed_error : forall e, allowed (set_error_info e).
Hypothesis logged_is_installed : forall n, logged (EvIsInstalled n).
Hypothesis logged_get_info : forall n, logged (EvGetInfo n).

Lemma keeps_get_installation_status (W : World) (self : addr) :
  keeps R (get_installation_status W self).
Proof.
  unfold get_installation_status.
  apply keeps_bind; [apply keeps_load | intros p].
  apply keeps_bind; [apply keeps_get_state | intros s].
  apply keeps_bind; [apply keeps_log_event, logged_is_installed | intros _].
  destruct (pacman_is_installed W (trace s) (name p)); [| now apply keeps_update].
  apply keeps_bind; [apply keeps_get_state | intros s'].
  apply keeps_bind; [apply keeps_log_event, logged_get_info | intros _].
  destruct (bool_decide _); now apply keeps_update.
Qed.

Lemma keeps_install_outcome (self : addr) (p : Package) (e : Exn) (rc : Z) :
  keeps R
    (if negb (rc =? 0) then
       update self (set_installation_status (-1)) ;;;
       update self (set_error_info (Some e))
     else if installation_status p =? 1
          then update self (set_installation_status 4)
          else update self (set_installation_status 3)).
Proof.
  destruct (negb (rc =? 0)).
  - apply keeps_bind; [now apply keeps_update | intros _; now apply keeps_update].
  - destruct (installation_status p =? 1); now apply keeps_update.
Qed.

Hypothesis logged_shown : forall command, logged (EvPopen command true).

Lemma keeps_CachedPackage_install (W : World) (self : addr) (force : bool) :
  keeps R (CachedPackage_install W self force).
Proof.
  unfold CachedPackage_install.
  apply keeps_bind; [apply keeps_load | intros p].
  destruct (_ || _ || force); [| apply keeps_ret].
  apply keeps_bind; [apply keeps_get_state | intros s].
  apply keeps_bind.
  { destruct (installation_status p =? 1);
      (apply keeps_bind; [apply keeps_printInfo | intros _; apply keeps_ret]). }
  intros pcm_cmd.
  destruct (path p); [| now apply keeps_raise].
  apply keeps_bind; [apply keeps_run_command, logged_shown | intros [[rc out] err]].
  apply keeps_install_outcome.
Qed.

Lemma keeps_OfficialPackage_install (W : World) (self : addr) (force : bool) :
  keeps R (OfficialPackage_install W self force).
Proof.
  unfold OfficialPackage_install.
  apply keeps_bind; [apply keeps_load | intros p].
  apply keeps_bind; [apply keeps_get_state | intros s].
  apply keeps_bind.
  { destruct (installation_status p =? 1);
      (apply keeps_bind; [apply keeps_printInfo | intros _; apply keeps_ret]). }
  intros pcm_cmd.
  destruct (name p); [| now apply keeps_raise].
  apply keeps_bind; [apply keeps_run_command, logged_shown | intros [[rc out] err]].
  apply keeps_install_outcome.
Qed.

Lemma keeps_install (W : World) (self : addr) (force : bool) :
  keeps R (install W self force).
Proof.
  unfold install. apply keeps_bind; [apply keeps_load | intros p].
  destruct (class_of p);
    [now apply keeps_raise | apply keeps_CachedPackage_install
     | apply keeps_OfficialPackage_install].
Qed.

Lemma keeps_install_dependencies
  (install_rec : string -> M unit) (pkg : addr) (deps : list string) :
  (forall d, keeps R (install_rec d)) ->
  keeps R (install_dependencies install_rec pkg deps).
Proof.
  intros Hrec. induction deps as [| d deps IH]; cbn [install_dependencies].
  - apply keeps_ret.
  - apply keeps_bind; [apply keeps_dict_get | intros pd].
    apply keeps_bind; [apply Hrec | intros _].
    apply keeps_bind; [apply keeps_load | intros dp].
    destruct (truthy (error_info dp)); [| exact IH].
    apply keeps_bind; [now apply keeps_update | intros _; apply keeps_ret].
Qed.

Lemma keeps_install_package_recursive (W : World) (fuel : nat) :
  forall pkg_name use_cache_only force,
    keeps R (install_package_recursive W fuel pkg_name use_cache_only force).
Proof.
  induction fuel as [| fuel IH]; intros pkg_name use_cache_only force;
    cbn [install_package_recursive].
  - intros s. exact I.
  - apply keeps_bind; [apply keeps_dict_get | intros pkg].
    apply keeps_bind; [apply keeps_load | intros p].
    destruct (truthy (error_info p)); [apply keeps_ret |].
    assert (Hloop : keeps R
              (returned <- install_dependencies
                             (fun dependency =>
                                install_package_recursive W fuel dependency use_cache_only force)
                             pkg (dependencies p) ;;
               if returned then ret tt else install W pkg force)).
    { apply keeps_bind.
      - apply keeps_install_dependencies. intros d. apply IH.
      - intros [|]; [apply keeps_ret | apply keeps_install]. }
    destruct (class_of p); try exact Hloop.
    destruct use_cache_only; [now apply keeps_update | apply keeps_install].
Qed.

(** *** Resolution *)

Hypothesis R_alloc : forall p s, R s (with_heap (heap s ++ [p]) s).
Hypothesis R_dict_set :
  forall key a s, R s (with_pkg_dict (<[key := a]> (pkg_dict s)) s).
Hypothesis allowed_repository : forall r, allowed (set_repository r).
Hypothesis allowed_dependencies : forall d, allowed (set_dependencies d).
Hypothesis allowed_architecture : forall a, allowed (set_architecture a).
Hypothesis allowed_license : forall l, allowed (set_license l).
Hypothesis logged_query :
  forall arguments, logged (EvPopen ("package-query" :: arguments) false).
Hypothesis logged_tarfile : forall file, logged (EvTarfile file).

Lemma keeps_alloc (p : Package) : keeps R (alloc p).
Proof. intros s. apply R_alloc. Qed.

Lemma keeps_dict_set (key : string) (a : addr) : keeps R (dict_set key a).
Proof. intros s. apply R_dict_set. Qed.

Lemma keeps_greatest_version (l : list addr) (pkg : addr) :
  keeps R (greatest_version pkg l).
Proof.
  revert pkg. induction l as [| c l IH]; intros pkg; cbn [greatest_version].
  - apply keeps_ret.
  - apply keeps_bind; [apply keeps_load | intros p].
    apply keeps_bind; [apply keeps_load | intros q].
    unfold LooseVersion.lt.
    destruct (LooseVersion.version_attr (version p)),
             (LooseVersion.version_attr (version q)); try now apply keeps_raise.
    destruct (LooseVersion._cmp _ _) as [[z |] |]; try now apply keeps_raise.
    destruct (z <? 0); apply IH.
Qed.

Lemma keeps_get_cached_package (W : World) (pkg_name : string) :
  keeps R (get_cached_package W pkg_name).
Proof.
  unfold get_cached_package.
  apply keeps_bind; [apply keeps_get_state | intros s].
  destruct (filter _ _); [apply keeps_ret |].
  apply keeps_bind; [apply keeps_greatest_version | intros pkg].
  apply keeps_bind; [apply keeps_get_installation_status | intros _].
  apply keeps_ret.
Qed.

Lemma keeps_first_cached (W : World) (out : list string) :
  keeps R (first_cached W out).
Proof.
  induction out as [| rpn out IH]; cbn [first_cached].
  - apply keeps_ret.
  - apply keeps_bind; [apply keeps_get_cached_package |].
    intros [pkg |]; [apply keeps_ret | exact IH].
Qed.

Lemma keeps_new_OfficialPackage (W : World) (pkg_name : string) :
  keeps R (new_OfficialPackage W pkg_name).
Proof.
  unfold new_OfficialPackage.
  apply keeps_bind; [apply keeps_alloc | intros self].
  apply keeps_bind; [apply keeps_get_installation_status | intros _].
  apply keeps_ret.
Qed.

Lemma keeps_register_official (W : World) (pkg_name : string) (out : list string) :
  keeps R (register_official W pkg_name out).
Proof.
  unfold register_official.
  apply keeps_bind; [apply keeps_list_last | intros real].
  apply keeps_bind; [apply keeps_new_OfficialPackage | intros pkg].
  apply keeps_bind; [apply keeps_dict_set | intros _; apply keeps_dict_set].
Qed.

Lemma keeps_register_unavailable (pkg_name : string) :
  keeps R (register_unavailable pkg_name).
Proof.
  unfold register_unavailable.
  apply keeps_bind; [apply keeps_alloc | intros pkg].
  apply keeps_bind; [now apply keeps_update | intros _; apply keeps_dict_set].
Qed.

Ltac keeps_auto :=
  repeat first
    [ apply keeps_ret
    | apply keeps_dict_set
    | apply keeps_register_unavailable
    | apply keeps_register_official
    | apply keeps_bind; [| intros ?] ].

Lemma keeps_find_package (W : World) (pkg_name : string) :
  keeps R (find_package W pkg_name).
Proof.
  unfold find_package.
  apply keeps_bind; [apply keeps_get_cached_package | intros [pkg |]].
  { keeps_auto. }
  apply keeps_bind; [apply keeps_run_command, logged_query | intros [[rc out] err]].
  destruct (rc =? 0).
  - apply keeps_bind; [apply keeps_list_first | intros real].
    apply keeps_bind; [apply keeps_get_cached_package | intros [pkg |]].
    { keeps_auto. }
    apply keeps_bind; [apply keeps_run_command, logged_query | intros [[rc' out'] err']].
    destruct (rc' =? 0); keeps_auto.
  - apply keeps_bind; [apply keeps_run_command, logged_query | intros [[rc' out'] err']].
    destruct (rc' =? 0); [keeps_auto |].
    apply keeps_bind; [apply keeps_run_command, logged_query | intros [[rc'' out''] err'']].
    apply keeps_bind.
    { destruct (rc'' =? 0); [apply keeps_first_cached | apply keeps_ret]. }
    intros [pkg |]; keeps_auto.
Qed.

Lemma keeps_determine_repository (self : addr) : keeps R (determine_repository self).
Proof.
  unfold determine_repository.
  apply keeps_bind; [apply keeps_load | intros p].
  apply keeps_bind; [apply keeps_get_state | intros s].
  destruct (existsb _ _); now apply keeps_update.
Qed.

Lemma keeps__get_dependencies_from_alias (W : World) (l : list string) :
  keeps R (_get_dependencies_from_alias W l).
Proof.
  induction l as [| d l IH]; cbn [_get_dependencies_from_alias].
  - apply keeps_ret.
  - apply keeps_bind; [apply keeps_run_command, logged_query | intros [[rc out] err]].
    apply keeps_bind.
    { destruct (negb (rc =? 0)); [apply keeps_list_last | apply keeps_ret]. }
    intros d'. apply keeps_bind; [exact IH | intros ds; apply keeps_ret].
Qed.

Lemma keeps_read_PKGINFO (W : World) (file : option string) :
  keeps R (read_PKGINFO W file).
Proof.
  unfold read_PKGINFO.
  apply keeps_bind; [apply keeps_get_state | intros s].
  apply keeps_bind; [apply keeps_log_event, logged_tarfile | intros _].
  destruct (tarfile_PKGINFO W (trace s) file); [apply keeps_ret | now apply keeps_raise].
Qed.

Lemma keeps_determine_package_info (W : World) (self : addr) :
  keeps R (determine_package_info W self).
Proof.
  unfold determine_package_info.
  apply keeps_bind; [apply keeps_load | intros p].
  destruct (repository p) as [[|] |]; try apply keeps_ret.
  apply keeps_try_except; [| intros e; now apply keeps_update].
  apply keeps_bind; [apply keeps_read_PKGINFO | intros content].
  apply keeps_bind.
  { destruct (_parse_from_string "depend" content).
    - now apply keeps_update.
    - apply keeps_bind; [apply keeps__get_dependencies_from_alias |].
      intros ds. now apply keeps_update.
    - apply keeps_bind; [apply keeps__get_dependencies_from_alias |].
      intros ds. now apply keeps_update. }
  intros _. apply keeps_bind; [now apply keeps_update | intros _; now apply keeps_update].
Qed.

Lemma keeps_descend (W : World) (get_rec : string -> M unit) (found : option addr) :
  (forall n, keeps R (get_rec n)) -> keeps R (descend W get_rec found).
Proof.
  intros Hrec. unfold descend. destruct found as [pkg |]; [| apply keeps_ret].
  apply keeps_bind; [apply keeps_determine_repository | intros _].
  apply keeps_bind; [apply keeps_determine_package_info | intros _].
  apply keeps_bind; [apply keeps_load | intros p].
  destruct (truthy (error_info p)); [apply keeps_ret |].
  destruct (repository p) as [[|] |]; try apply keeps_ret.
  now apply keeps_for_each.
Qed.

Lemma keeps_get_package_recursive (W : World) (fuel : nat) :
  forall pkg_name, keeps R (get_package_recursive W fuel pkg_name).
Proof.
  induction fuel as [| fuel IH]; intros pkg_name; cbn [get_package_recursive].
  - intros s. exact I.
  - apply keeps_bind; [apply keeps_get_state | intros s].
    destruct (bool_decide _); [apply keeps_ret |].
    apply keeps_bind; [apply keeps_find_package | intros found].
    apply keeps_descend. exact IH.
Qed.

End Keeps.

(** *** The three relations *)

Lemma same_identity_refl (p : Package) : same_identity p p.
Proof. repeat split. Qed.

Lemma same_identity_trans (p q r : Package) :
  same_identity p q -> same_identity q r -> same_identity p r.
Proof. unfold same_identity. intros (? & ? & ?) (? & ? & ?). repeat split; congruence. Qed.

Lemma same_but_outcome_refl (p : Package) : same_but_outcome p p.
Proof. repeat split. Qed.

Lemma same_but_outcome_trans (p q r : Package) :
  same_but_outcome p q -> same_but_outcome q r -> same_but_outcome p r.
Proof.
  unfold same_but_outcome. intros (Hi & ? & ? & ? & ?) (Hi' & ? & ? & ? & ?).
  split; [eapply same_identity_trans; eassumption |]. repeat split; congruence.
Qed.

Lemma same_globals_refl (s : State) : same_globals s s.
Proof. repeat split. Qed.

Lemma same_globals_trans (s1 s2 s3 : State) :
  same_globals s1 s2 -> same_globals s2 s3 -> same_globals s1 s3.
Proof. unfold same_globals. intros (? & ? & ?) (? & ? & ?). repeat split; congruence. Qed.

Lemma output_extends_refl (s : State) : output_extends s s.
Proof. split; exists []; now rewrite app_nil_r. Qed.

Lemma output_extends_trans (s1 s2 s3 : State) :
  output_extends s1 s2 -> output_extends s2 s3 -> output_extends s1 s3.
Proof.
  intros ([t Ht] & [c Hc]) ([t' Ht'] & [c' Hc']). split.
  - exists (t ++ t')%list. now rewrite Ht', Ht, app_assoc.
  - exists (c ++ c')%list. now rewrite Hc', Hc, app_assoc.
Qed.

Lemma Forall2_insert_r {A} (P : A -> A -> Prop) (l : list A) (a : nat) (y : A) :
  (forall x, P x x) -> (forall x, l !! a = Some x -> P x y) ->
  Forall2 P l (<[a := y]> l).
Proof.
  intros Hrefl. revert a. induction l as [| x l IH]; intros a Hy; [constructor |].
  destruct a as [| a]; cbn.
  - constructor; [now apply Hy | now apply Forall_Forall2_diag, Forall_forall].
  - constructor; [apply Hrefl | apply IH; exact Hy].
Qed.

Lemma installs_refl (s : State) : installs s s.
Proof.
  split; [| split; [reflexivity | split; [apply same_globals_refl | apply output_extends_refl]]].
  apply Forall_Forall2_diag, Forall_forall. intros p _. apply same_but_outcome_refl.
Qed.

Lemma installs_trans (s1 s2 s3 : State) : installs s1 s2 -> installs s2 s3 -> installs s1 s3.
Proof.
  intros (Hh & Hd & Hg & Ho) (Hh' & Hd' & Hg' & Ho').
  split; [| split; [congruence | split]].
  - eapply Forall2_trans; [| exact Hh | exact Hh'].
    intros p q r. apply same_but_outcome_trans.
  - eapply same_globals_trans; eassumption.
  - eapply output_extends_trans; eassumption.
Qed.

Ltac frame_globals := unfold same_globals; cbn; auto.
Ltac frame_output :=
  unfold output_extends; cbn; split;
  first [ exists []; now rewrite app_nil_r | eexists [_]; reflexivity ].

Lemma installs_log (e : Event) (s : State) : installs s (with_trace (trace s ++ [e]) s).
Proof.
  destruct (installs_refl s) as (Hh & _).
  split; [exact Hh |]. split; [reflexivity |]. split; [frame_globals | frame_output].
Qed.

Lemma installs_print (line : string) (s : State) :
  installs s (with_console (console s ++ [line]) s).
Proof.
  destruct (installs_refl s) as (Hh & _).
  split; [exact Hh |]. split; [reflexivity |]. split; [frame_globals | frame_output].
Qed.

Lemma installs_update (a : addr) (f : Package -> Package) (s : State) :
  (forall p, same_but_outcome p (f p)) ->
  installs s (with_heap (<[a := f (deref s a)]> (heap s)) s).
Proof.
  intros Hf.
  split; [| split; [reflexivity | split; [frame_globals | frame_output]]].
  cbn. apply Forall2_insert_r; [apply same_but_outcome_refl |].
  intros p Hp. rewrite (deref_lookup _ _ _ Hp). apply Hf.
Qed.

Lemma grows_refl (s : State) : grows s s.
Proof.
  split; [| split; [auto | split; [apply same_globals_refl | apply output_extends_refl]]].
  intros a p Hp. exists p. split; [exact Hp | apply same_identity_refl].
Qed.

Lemma grows_trans (s1 s2 s3 : State) : grows s1 s2 -> grows s2 s3 -> grows s1 s3.
Proof.
  intros (Hh & Hd & Hg & Ho) (Hh' & Hd' & Hg' & Ho').
  split; [| split; [auto | split]].
  - intros a p Hp. destruct (Hh a p Hp) as (q & Hq & Hpq).
    destruct (Hh' a q Hq) as (r & Hr & Hqr).
    exists r. split; [exact Hr | eapply same_identity_trans; eassumption].
  - eapply same_globals_trans; eassumption.
  - eapply output_extends_trans; eassumption.
Qed.

Lemma grows_log (e : Event) (s : State) : grows s (with_trace (trace s ++ [e]) s).
Proof.
  destruct (grows_refl s) as (Hh & Hd & _).
  split; [exact Hh |]. split; [exact Hd |]. split; [frame_globals | frame_output].
Qed.

Lemma grows_print (line : string) (s : State) :
  grows s (with_console (console s ++ [line]) s).
Proof.
  destruct (grows_refl s) as (Hh & Hd & _).
  split; [exact Hh |]. split; [exact Hd |]. split; [frame_globals | frame_output].
Qed.

Lemma grows_update (a : addr) (f : Package -> Package) (s : State) :
  (forall p, same_identity p (f p)) ->
  grows s (with_heap (<[a := f (deref s a)]> (heap s)) s).
Proof.
  intros Hf.
  split; [| split; [auto | split; [frame_globals | frame_output]]].
  intros b p Hp. cbn. destruct (decide (a = b)) as [<- | Hne].
  - rewrite list_lookup_insert_eq by (eapply lookup_lt_Some; eassumption).
    eexists. split; [reflexivity |]. rewrite (deref_lookup _ _ _ Hp). apply Hf.
  - rewrite list_lookup_insert_ne by assumption.
    exists p. split; [exact Hp | apply same_identity_refl].
Qed.

Lemma grows_alloc (p : Package) (s : State) : grows s (with_heap (heap s ++ [p]) s).
Proof.
  split; [| split; [auto | split; [frame_globals | frame_output]]].
  intros a q Hq. cbn. exists q. split; [| apply same_identity_refl].
  rewrite lookup_app_l; [exact Hq | eapply lookup_lt_Some; eassumption].
Qed.

Lemma grows_dict_set (key : string) (a : addr) (s : State) :
  grows s (with_pkg_dict (<[key := a]> (pkg_dict s)) s).
Proof.
  destruct (grows_refl s) as (Hh & _).
  split; [exact Hh |]. split; [| split; [frame_globals | frame_output]].
  intros k Hk. cbn. destruct (decide (key = k)) as [<- | Hne].
  - rewrite lookup_insert_eq. eauto.
  - now rewrite lookup_insert_ne.
Qed.

(** X1.  Report rendering only reads: whether it returns or raises, the
    state it ends in is the state it started from, and the exceptions it
    raises are ones the module body catches. *)
Theorem X1_report_is_read_only
  (fuel : nat) (pkg_names : list string) (prefix : string) (is_root : bool) :
  keeps eq (print_installation_log_recursive fuel pkg_names prefix is_root).
Proof.
  apply keeps_print_installation_log_recursive; [reflexivity | intros; congruence].
Qed.

(** X2.  Installation changes nothing but [installation_status] and
    [error_info] of the objects that exist: it creates and deletes no
    object, leaves every other attribute, [pkg_dict] and the globals as
    they are, and only appends to the trace and the console. *)
Theorem X2_installation_changes_only_outcomes
  (W : World) (fuel : nat) (pkg_name : string) (use_cache_only force : bool) :
  keeps installs (install_package_recursive W fuel pkg_name use_cache_only force).
Proof.
  apply keeps_install_package_recursive
    with (allowed := fun f => forall p, same_but_outcome p (f p)) (logged := fun _ => True);
    try (intros; exact I).
  - apply installs_refl.
  - apply installs_trans.
  - intros e s _. apply installs_log.
  - apply installs_print.
  - intros a f s. apply installs_update.
  - intros k p. repeat split.
  - intros e p. repeat split.
Qed.

(** X3.  Resolution never removes a key of [pkg_dict] or an object, and
    never changes the class, name or version of an object that exists;
    the globals stay as [main] set them. *)
Theorem X3_resolution_only_adds (W : World) (fuel : nat) (pkg_name : string) :
  keeps grows (get_package_recursive W fuel pkg_name).
Proof.
  apply keeps_get_package_recursive
    with (allowed := fun f => forall p, same_identity p (f p)) (logged := fun _ => True);
    try (intros; exact I).
  - apply grows_refl.
  - apply grows_trans.
  - intros e s _. apply grows_log.
  - apply grows_print.
  - intros a f s. apply grows_update.
  - intros k p. repeat split.
  - intros e p. repeat split.
  - apply grows_alloc.
  - apply grows_dict_set.
  - intros r p. repeat split.
  - intros d p. repeat split.
  - intros a p. repeat split.
  - intros l p. repeat split.
Qed.

(** *** The exit status *)

Lemma bind_Raised {A B} (m : M A) (k : A -> M B) (s s' : State) (e : Exn) :
  m s = Raised e s' -> bind m k s = Raised e s'.
Proof. intros H. unfold bind. now rewrite H. Qed.

Lemma keeps_exits_with_1 {A} (m : M A) : keeps (fun _ _ => True) m -> exits_with_1 m.
Proof.
  intros Hm s e s' Hr. specialize (Hm s). rewrite Hr in Hm. right. apply Hm.
Qed.

Lemma exits_with_1_bind {A B} (m : M A) (k : A -> M B) :
  exits_with_1 m -> (forall a, exits_with_1 (k a)) -> exits_with_1 (bind m k).
Proof.
  intros Hm Hk s e s'. unfold bind.
  destruct (m s) as [a s1 | e1 s1 |] eqn:Hms; [apply Hk | | discriminate].
  intros [= <- <-]. eapply Hm; eassumption.
Qed.

Lemma exits_with_1_modify (f : State -> State) : exits_with_1 (modify f).
Proof. intros s e s'. discriminate. Qed.

Lemma exits_with_1_ret {A} (a : A) : exits_with_1 (ret a).
Proof. intros s e s'. discriminate. Qed.

Lemma exits_with_1_scan_cache (W : World) (entries : list (string * bool)) :
  exits_with_1 (scan_cache W entries).
Proof.
  intros s e s' Hr. destruct (scan_cache_Done W entries s) as [s1 Hs1]. congruence.
Qed.

Lemma keeps_True_anything {A} (m : M A) :
  (forall s e s', m s = Raised e s' -> is_Exception e = true) -> keeps (fun _ _ => True) m.
Proof.
  intros H s. destruct (m s) as [a s1 | e s1 |] eqn:Hm; auto. split; [exact I | eauto].
Qed.

Lemma exits_with_1_main (W : World) (fuel : nat) (args : Args) :
  exits_with_1 (main W fuel args).
Proof.
  assert (Hget : forall n, keeps (fun _ _ => True) (get_package_recursive W fuel n)).
  { intros n. apply keeps_get_package_recursive
      with (allowed := fun _ => True) (logged := fun _ => True); auto. }
  assert (Hinst : forall n u f, keeps (fun _ _ => True) (install_package_recursive W fuel n u f)).
  { intros n u f. apply keeps_install_package_recursive
      with (allowed := fun _ => True) (logged := fun _ => True); auto. }
  assert (Hlog : forall n, keeps (fun _ _ => True) (print_installation_log fuel n)).
  { intros n. apply keeps_print_installation_log; auto. }
  unfold main, main_install, main_setup.
  repeat first
    [ apply exits_with_1_modify
    | apply exits_with_1_ret
    | apply exits_with_1_scan_cache
    | apply exits_with_1_bind; [| intros ?] ].
  all: try solve [apply keeps_exits_with_1, keeps_for_each; auto].
  all: try solve [apply keeps_exits_with_1, keeps_printInfo; auto].
  destruct (negb (geteuid W =? 0)); [| apply exits_with_1_ret].
  intros s e s'. unfold bind, printError, print, modify, exit, raise.
  intros [= <- <-]. now left.
Qed.

(** X4.  From the parsed arguments on, a run in which [main] returns or
    raises has exit status 0 or 1: 0 when [main] returns; 1 when [main]
    is left by its own [exit(1)], with nothing printed after it; and 1
    when [main] is left by an exception, after one red line, which for
    the exceptions the program raises itself is their message. *)
Theorem X4_exit_status_is_0_or_1 (W : World) (fuel : nat) (args : Args) (s : State) :
  match main W fuel args s with
  | Done _ s' => script W fuel args s = Raised (SystemExit 0) s'
  | Raised e s' =>
      exists s'',
        script W fuel args s = Raised (SystemExit 1) s''
        /\ (is_Exception e = false -> e = SystemExit 1 /\ s'' = s')
        /\ (is_Exception e = true ->
            exists text,
              s'' = with_console
                      (console s' ++ [ConsoleColors.red +:+ text +:+ ConsoleColors.reset])%list
                      s'
              /\ forall message,
                   e = InvalidPacmanPackageError message
                   \/ e = CachedPackageUnavailable message
                   \/ e = Exception message ->
                   text = message)
  | OutOfFuel => True
  end.
Proof.
  pose proof (exits_with_1_main W fuel args s) as Hex.
  unfold script, try_except.
  destruct (main W fuel args s) as [[] s' | e s' |] eqn:Hm; [| | exact I].
  - rewrite (bind_Done _ _ _ _ _ Hm). reflexivity.
  - rewrite (bind_Raised _ _ _ _ _ Hm).
    destruct (Hex e s' eq_refl) as [-> | He].
    + cbn. exists s'. split; [reflexivity |]. split; [now split | discriminate].
    + rewrite He. eexists. split; [reflexivity |]. split; [congruence |].
      intros _. exists (str_of_exn e). split; [reflexivity |].
      intros message [-> | [-> | ->]]; reflexivity.
Qed.

(** X5.  Without root rights the run prints one error line and ends
    with exit status 1; it sends no request, scans nothing and resolves
    nothing. *)
Theorem X5_not_root (W : World) (fuel : nat) (args : Args) (s : State) :
  geteuid W <> 0 ->
  script W fuel args s
  = Raised (SystemExit 1)
      (with_console
         (console s ++ [ConsoleColors.red +:+ "This script needs to be run as root!"
                          +:+ ConsoleColors.reset])%list s).
Proof.
  intros Hroot. apply Z.eqb_neq in Hroot.
  unfold script, try_except, main, main_install, main_setup, bind.
  rewrite Hroot. reflexivity.
Qed.

Lemma X5_witness :
  let W := as_user (world_of chain_scenario) 1000 in
  geteuid W <> 0
  /\ exit_status (script W 4 (args_of ["a"]) initial_state) = Some 1
  /\ trace (final_state (script W 4 (args_of ["a"]) initial_state) initial_state) = [].
Proof.
  intros W.
  assert (H : geteuid W <> 0) by (vm_compute; discriminate).
  split; [exact H |].
  rewrite (X5_not_root W 4 (args_of ["a"]) initial_state H).
  split; reflexivity.
Defined.

(** *** Status of a package *)

Lemma get_installation_status_eq (W : World) (self : addr) (s : State) (p : Package) :
  heap s !! self = Some p ->
  get_installation_status W self s
  = Done tt
      (with_heap
         (<[self := set_installation_status
                      (if pacman_is_installed W (trace s) (name p) then
                         if bool_decide
                              (Some (pacman_get_info_Version W
                                       (trace s ++ [EvIsInstalled (name p)])%list (name p))
                               = version p)
                         then 1 else 2
                       else 0) p]> (heap s))
         (with_trace
            (trace s ++ EvIsInstalled (name p)
               :: (if pacman_is_installed W (trace s) (name p)
                   then [EvGetInfo (name p)] else []))%list s)).
Proof.
  intros Hp.
  unfold get_installation_status, bind, load, get_state, log_event, update, modify.
  rewrite (deref_lookup _ _ _ Hp). cbn [trace with_trace].
  destruct (pacman_is_installed W (trace s) (name p)).
  - destruct (bool_decide _); unfold deref; cbn; rewrite Hp; cbn;
      rewrite <- app_assoc; reflexivity.
  - unfold deref; cbn; rewrite Hp; reflexivity.
Qed.

(** X6.  [get_installation_status] overwrites the status with 0, 1 or 2:
    0 when the package is not installed, 1 when it is installed in the
    version of the object, 2 when it is installed in another version.  It
    asks for the installed version only when the package is installed and
    changes no other attribute. *)
Theorem X6_get_installation_status
  (W : World) (self : addr) (s : State) (p : Package) :
  heap s !! self = Some p ->
  let is_installed := pacman_is_installed W (trace s) (name p) in
  let installed_version :=
    pacman_get_info_Version W (trace s ++ [EvIsInstalled (name p)])%list (name p) in
  exists s' p',
    get_installation_status W self s = Done tt s'
    /\ heap s' = <[self := p']> (heap s)
    /\ same_but_outcome p p' /\ error_info p' = error_info p
    /\ (installation_status p' = 0 <-> is_installed = false)
    /\ (installation_status p' = 1 <->
        is_installed = true /\ version p = Some installed_version)
    /\ (installation_status p' = 2 <->
        is_installed = true /\ version p <> Some installed_version)
    /\ trace s' = (trace s ++ EvIsInstalled (name p)
                     :: (if is_installed then [EvGetInfo (name p)] else []))%list
    /\ pkg_dict s' = pkg_dict s.
Proof.
  intros Hp is_installed installed_version.
  rewrite (get_installation_status_eq W self s p Hp).
  fold is_installed. fold installed_version.
  eexists. eexists. split; [reflexivity |]. cbn [heap with_heap with_trace trace pkg_dict].
  split; [reflexivity |].
  split; [repeat split |]. split; [reflexivity |].
  cbn [installation_status set_installation_status].
  destruct is_installed.
  - destruct (bool_decide (Some installed_version = version p)) eqn:Hv.
    + apply bool_decide_eq_true_1 in Hv.
      repeat split; intros; try reflexivity; try discriminate; intuition congruence.
    + apply bool_decide_eq_false_1 in Hv.
      repeat split; intros; try reflexivity; try discriminate; intuition congruence.
  - repeat split; intros; try reflexivity; try discriminate; intuition congruence.
Qed.

Lemma X6_witness :
  let W := world_of alias_scenario in
  let s := scanned alias_scenario in
  heap s !! 0%nat = Some (deref s 0)
  /\ exists s', get_installation_status W 0 s = Done tt s'
                /\ installation_status (deref s' 0) = 1.
Proof.
  intros W s.
  assert (Hp : heap s !! 0%nat = Some (deref s 0)) by (vm_compute; reflexivity).
  split; [exact Hp |].
  destruct (X6_get_installation_status W 0 s (deref s 0) Hp)
    as (s' & p' & Hrun & Hheap & _ & _ & _ & H1 & _).
  exists s'. split; [exact Hrun |].
  assert (Hd : deref s' 0 = p').
  { unfold deref. rewrite Hheap.
    rewrite list_lookup_insert_eq; [reflexivity |].
    eapply lookup_lt_Some; exact Hp. }
  rewrite Hd. apply H1. vm_compute. split; reflexivity.
Defined.

(** X7.  A new [OfficialPackage] is a new object with the given name,
    repository [OFFICIAL], no version and no dependencies; since it has
    no version its status is 2 when the name is installed and 0 when it is
    not, and never 1. *)
Theorem X7_new_OfficialPackage (W : World) (pkg_name : string) (s : State) :
  exists s',
    new_OfficialPackage W pkg_name s = Done (length (heap s)) s'
    /\ heap s' = (heap s ++
                  [set_installation_status
                     (if pacman_is_installed W (trace s) (Some pkg_name) then 2 else 0)
                     (set_repository (Some OFFICIAL)
                        (set_name (Some pkg_name) (class_defaults OfficialPackage)))])%list
    /\ installation_status (deref s' (length (heap s))) <> 1
    /\ version (deref s' (length (heap s))) = None
    /\ pkg_dict s' = pkg_dict s.
Proof.
  unfold new_OfficialPackage, bind at 1, alloc.
  set (p0 := set_repository (Some OFFICIAL)
               (set_name (Some pkg_name) (class_defaults OfficialPackage))).
  set (s0 := with_heap (heap s ++ [p0]) s).
  assert (Hp0 : heap s0 !! length (heap s) = Some p0).
  { unfold s0. cbn. rewrite lookup_app_r by lia. now rewrite Nat.sub_diag. }
  unfold bind. rewrite (get_installation_status_eq W _ s0 p0 Hp0).
  eexists. split; [reflexivity |].
  cbn [heap with_heap with_trace trace pkg_dict s0 name p0 set_repository set_name
       class_defaults version].
  assert (Hins : forall x : Package,
             <[length (heap s) := x]> (heap s ++ [p0])%list = (heap s ++ [x])%list).
  { intros x. rewrite insert_app_r_alt by lia. now rewrite Nat.sub_diag. }
  rewrite bool_decide_eq_false_2 by discriminate.
  rewrite Hins. split; [reflexivity |].
  unfold deref. cbn [heap with_heap]. rewrite lookup_app_r by lia.
  rewrite Nat.sub_diag. cbn.
  split; [| split; reflexivity].
  destruct (pacman_is_installed W (trace s) (Some pkg_name)); discriminate.
Qed.

(** *** Installing *)

(** The end of both [install] methods: the process is run and its exit
    code decides the status. *)
Lemma run_and_record
  (W : World) (self : addr) (p : Package) (s0 : State) (command : list string)
  (failure : list string -> Exn) (on_success : Z) :
  heap s0 !! self = Some p ->
  let rc := (popen W (trace s0) command true).1.1 in
  let err := (popen W (trace s0) command true).2 in
  exists s',
    (let* (rc, out, err) := run_command W command true in
     if negb (rc =? 0) then
       update self (set_installation_status (-1)) ;;;
       update self (set_error_info (Some (failure err)))
     else update self (set_installation_status on_success)) s0 = Done tt s'
    /\ trace s' = (trace s0 ++ [EvPopen command true])%list
    /\ pkg_dict s' = pkg_dict s0
    /\ heap s' = <[self := if rc =? 0 then set_installation_status on_success p
                           else set_error_info (Some (failure err))
                                  (set_installation_status (-1) p)]> (heap s0).
Proof.
  intros Hp rc err.
  destruct (run_command_Done W command true s0) as (s1 & Hrun & Ht1 & Hs1).
  unfold bind at 1. rewrite Hrun. clear Hrun. fold rc. fold err.
  destruct Hs1 as (Hh1 & Hd1 & _).
  assert (Hp1 : heap s1 !! self = Some p) by (now rewrite Hh1).
  destruct (rc =? 0) eqn:Hrc; cbn [negb andb].
  - rewrite update_Done, (deref_lookup _ _ _ Hp1).
    eexists. split; [reflexivity |]. cbn. now rewrite Hh1.
  - unfold bind. rewrite update_Done, (deref_lookup _ _ _ Hp1).
    rewrite update_Done.
    rewrite (deref_insert_eq s1 self p (set_installation_status (-1) p) Hp1).
    eexists. split; [reflexivity |]. cbn.
    rewrite list_insert_insert_eq. now rewrite Hh1.
Qed.

(** X8.  Installing an official package whose status is not 1 runs
    [pacman -S --needed] on its name without [--force], whatever the force
    flag: exit code 0 sets the status 3, another exit code sets the status
    -1 and records the error lines. *)
Theorem X8_OfficialPackage_install
  (W : World) (self : addr) (force : bool) (s : State) (p : Package) (n : string) :
  heap s !! self = Some p ->
  class_of p = OfficialPackage ->
  name p = Some n ->
  installation_status p <> 1 ->
  let command := ["pacman"; "-S"; "--needed"; "--noconfirm"; "--noprogressbar";
                  "--cachedir"; pacman_cache_dir s; n] in
  let rc := (popen W (trace s) command true).1.1 in
  let err := (popen W (trace s) command true).2 in
  exists s',
    install W self force s = Done tt s'
    /\ trace s' = (trace s ++ [EvPopen command true])%list
    /\ (rc = 0 ->
        installation_status (deref s' self) = 3
        /\ error_info (deref s' self) = error_info p)
    /\ (rc <> 0 ->
        installation_status (deref s' self) = -1
        /\ error_info (deref s' self)
           = Some (Exception ("Failed to install package " +:+ n +:+ ": "
                                +:+ PyStr.join PyStr.newline err))).
Proof.
  intros Hp Hclass Hname Hstatus command rc err.
  apply Z.eqb_neq in Hstatus.
  unfold install, bind at 1, load. rewrite (deref_lookup _ _ _ Hp), Hclass.
  unfold OfficialPackage_install, bind at 1, load.
  rewrite (deref_lookup _ _ _ Hp), Hname, Hstatus.
  unfold bind at 1, get_state. unfold bind at 1. unfold bind at 1.
  unfold printInfo, print, modify, ret.
  match goal with
  | |- context [with_console ?c s] => set (s0 := with_console c s)
  end.
  assert (Hp0 : heap s0 !! self = Some p) by exact Hp.
  destruct (run_and_record W self p s0 command
              (fun err => Exception ("Failed to install package "
                                       +:+ PyStr.format_value (Some n) +:+ ": "
                                       +:+ PyStr.join PyStr.newline err))
              3 Hp0) as (s' & Hrun & Ht & _ & Hh).
  exists s'. split; [exact Hrun |]. split; [exact Ht |].
  assert (Hlt : (self < length (heap s0))%nat) by (eapply lookup_lt_Some; exact Hp0).
  change (trace s0) with (trace s) in Hh. fold command in Hh. fold rc in Hh. fold err in Hh.
  unfold deref. rewrite Hh, list_lookup_insert_eq by exact Hlt. cbn [default].
  split; intros Hrc.
  - rewrite Hrc. cbn. split; reflexivity.
  - apply Z.eqb_neq in Hrc. rewrite Hrc. cbn. split; reflexivity.
Qed.

Lemma X8_witness :
  let W := world_of official_scenario in
  let s := resolved official_scenario 2 ["vim"] in
  heap s !! 0%nat = Some (deref s 0)
  /\ class_of (deref s 0) = OfficialPackage
  /\ name (deref s 0) = Some "vim"
  /\ installation_status (deref s 0) <> 1
  /\ exists s', install W 0 true s = Done tt s'
                /\ installation_status (deref s' 0) = 3.
Proof.
  intros W s.
  assert (Hp : heap s !! 0%nat = Some (deref s 0)) by (vm_compute; reflexivity).
  assert (Hc : class_of (deref s 0) = OfficialPackage) by (vm_compute; reflexivity).
  assert (Hn : name (deref s 0) = Some "vim") by (vm_compute; reflexivity).
  assert (Hs : installation_status (deref s 0) <> 1) by (vm_compute; discriminate).
  split; [exact Hp |]. split; [exact Hc |]. split; [exact Hn |]. split; [exact Hs |].
  destruct (X8_OfficialPackage_install W 0 true s (deref s 0) "vim" Hp Hc Hn Hs)
    as (s' & Hrun & _ & Hok & _).
  exists s'. split; [exact Hrun |].
  apply Hok. vm_compute. reflexivity.
Defined.

(** X9.  In cache-only mode an official package is not installed: its
    node gets the error "Official package '...' not found in cache", named
    after the key it was reached by, and no request is sent. *)
Theorem X9_cache_only_official
  (W : World) (fuel : nat) (pkg_name : string) (force : bool)
  (s : State) (pkg : addr) (p : Package) :
  pkg_dict s !! pkg_name = Some pkg ->
  heap s !! pkg = Some p ->
  error_info p = None ->
  class_of p = OfficialPackage ->
  install_package_recursive W (S fuel) pkg_name true force s
  = Done tt
      (with_heap
         (<[pkg := set_error_info
                     (Some (Exception ("Official package '" +:+ pkg_name
                                         +:+ "' not found in cache"))) p]> (heap s)) s).
Proof.
  intros Hkey Hp Herr Hclass.
  cbn [install_package_recursive].
  unfold bind, dict_get, load. rewrite Hkey, (deref_lookup _ _ _ Hp), Herr, Hclass.
  cbn [truthy]. rewrite update_Done, (deref_lookup _ _ _ Hp). reflexivity.
Qed.

Lemma X9_witness :
  let W := world_of official_scenario in
  let s := resolved official_scenario 2 ["vim"] in
  pkg_dict s !! "vim" = Some 0%nat
  /\ heap s !! 0%nat = Some (deref s 0)
  /\ error_info (deref s 0) = None
  /\ class_of (deref s 0) = OfficialPackage
  /\ exists s', install_package_recursive W 1 "vim" true false s = Done tt s'
                /\ trace s' = trace s
                /\ error_info (deref s' 0)
                   = Some (Exception "Official package 'vim' not found in cache").
Proof.
  intros W s.
  assert (Hk : pkg_dict s !! "vim" = Some 0%nat) by (vm_compute; reflexivity).
  assert (Hp : heap s !! 0%nat = Some (deref s 0)) by (vm_compute; reflexivity).
  assert (He : error_info (deref s 0) = None) by (vm_compute; reflexivity).
  assert (Hc : class_of (deref s 0) = OfficialPackage) by (vm_compute; reflexivity).
  split; [exact Hk |]. split; [exact Hp |]. split; [exact He |]. split; [exact Hc |].
  eexists. split; [exact (X9_cache_only_official W 0 "vim" false s 0 _ Hk Hp He Hc) |].
  split; [reflexivity |]. vm_compute. reflexivity.
Defined.

Lemma install_dependencies_app
  (install_rec : string -> M unit) (pkg : addr) (pre l : list string) (s s0 : State) :
  install_dependencies install_rec pkg pre s = Done false s0 ->
  install_dependencies install_rec pkg (pre ++ l) s = install_dependencies install_rec pkg l s0.
Proof.
  revert s. induction pre as [| d pre IH]; intros s; cbn [install_dependencies app].
  - unfold ret. now intros [= <-].
  - unfold bind, load. destruct (dict_get d s) as [pd s1 | |]; try discriminate.
    destruct (install_rec d s1) as [[] s2 | |]; try discriminate.
    destruct (truthy (error_info (deref s2 pd))); [| apply IH].
    unfold update, modify, ret. discriminate.
Qed.

Lemma install_package_recursive_installs
  (W : World) (fuel : nat) (pkg_name : string) (use_cache_only force : bool) :
  keeps installs (install_package_recursive W fuel pkg_name use_cache_only force).
Proof.
  apply keeps_install_package_recursive
    with (allowed := fun f => forall p, same_but_outcome p (f p)) (logged := fun _ => True);
    try (intros; exact I).
  - apply installs_refl.
  - apply installs_trans.
  - intros e s _. apply installs_log.
  - apply installs_print.
  - intros a f s. apply installs_update.
  - intros k p. repeat split.
  - intros e p. repeat split.
Qed.

Lemma installs_lookup (s s' : State) (a : addr) (p : Package) :
  installs s s' -> heap s !! a = Some p -> exists p', heap s' !! a = Some p'.
Proof.
  intros (Hh & _) Hp.
  destruct (Forall2_lookup_l _ _ _ _ _ Hh Hp) as (p' & Hp' & _). eauto.
Qed.

(** X10.  When a dependency of a package carries an error after its own
    installation, the loop stops there: the later dependencies are not
    visited, the package itself is not installed, and its status becomes
    -2 while its [error_info] stays as it was. *)
Theorem X10_dependency_failure_stops
  (W : World) (fuel : nat) (pkg_name : string) (use_cache_only force : bool)
  (s s0 s1 : State) (pkg pkg_dependency : addr) (p : Package)
  (pre rest : list string) (dependency : string) :
  pkg_dict s !! pkg_name = Some pkg ->
  heap s !! pkg = Some p ->
  error_info p = None ->
  class_of p <> OfficialPackage ->
  dependencies p = (pre ++ dependency :: rest)%list ->
  install_dependencies
    (fun d => install_package_recursive W fuel d use_cache_only force) pkg pre s
  = Done false s0 ->
  pkg_dict s0 !! dependency = Some pkg_dependency ->
  install_package_recursive W fuel dependency use_cache_only force s0 = Done tt s1 ->
  truthy (error_info (deref s1 pkg_dependency)) = true ->
  exists s',
    install_package_recursive W (S fuel) pkg_name use_cache_only force s = Done tt s'
    /\ installation_status (deref s' pkg) = -2
    /\ error_info (deref s' pkg) = error_info (deref s1 pkg)
    /\ trace s' = trace s1
    /\ console s' = console s1
    /\ (forall a, a <> pkg -> deref s' a = deref s1 a).
Proof.
  intros Hkey Hp Herr Hclass Hdeps Hpre Hkd Hrec Hfail.
  set (rec := fun d => install_package_recursive W fuel d use_cache_only force) in *.
  assert (Hvalid : exists p1, heap s1 !! pkg = Some p1).
  { assert (H0 : installs s s0).
    { pose proof (keeps_install_dependencies installs installs_refl installs_trans
                    (fun f => forall q, same_but_outcome q (f q))
                    (fun a f st => installs_update a f st)
                    (fun k q => ltac:(repeat split))
                    rec pkg pre
                    (fun d => install_package_recursive_installs W fuel d use_cache_only force)
                    s) as H.
      now rewrite Hpre in H. }
    assert (H1 : installs s0 s1).
    { pose proof (install_package_recursive_installs W fuel dependency
                    use_cache_only force s0) as H.
      now rewrite Hrec in H. }
    destruct (installs_lookup _ _ _ _ H0 Hp) as [p0 Hp0].
    eapply installs_lookup; eassumption. }
  destruct Hvalid as [p1 Hp1].
  assert (Hloop : install_dependencies rec pkg (dependencies p) s
                  = Done true
                      (with_heap (<[pkg := set_installation_status (-2) p1]> (heap s1)) s1)).
  { rewrite Hdeps, (install_dependencies_app _ _ _ _ _ _ Hpre).
    cbn [install_dependencies]. unfold bind, dict_get, load.
    rewrite Hkd. unfold rec at 1. rewrite Hrec, Hfail.
    rewrite update_Done, (deref_lookup _ _ _ Hp1). reflexivity. }
  eexists. split.
  - cbn [install_package_recursive].
    unfold bind at 1. unfold dict_get. rewrite Hkey.
    unfold bind at 1. unfold load. rewrite (deref_lookup _ _ _ Hp), Herr. cbn [truthy].
    fold rec.
    destruct (class_of p) eqn:Hc; try congruence;
      unfold bind; rewrite Hloop; reflexivity.
  - rewrite (deref_insert_eq _ _ _ _ Hp1), (deref_lookup _ _ _ Hp1).
    repeat split. intros a Ha. apply deref_insert_ne. congruence.
Qed.

Lemma X10_witness :
  let W := world_of chain_scenario in
  let s := resolved chain_scenario 4 ["a"] in
  let s1 := final_state (install_package_recursive W 3 "c" false false s) s in
  pkg_dict s !! "b" = Some 1%nat
  /\ truthy (error_info (deref s1 2)) = true
  /\ exists s',
       install_package_recursive W 4 "b" false false s = Done tt s'
       /\ installation_status (deref s' 1) = -2
       /\ trace s' = trace s1.
Proof.
  intros W s s1.
  assert (Hk : pkg_dict s !! "b" = Some 1%nat) by (vm_compute; reflexivity).
  assert (Hf : truthy (error_info (deref s1 2)) = true) by (vm_compute; reflexivity).
  split; [exact Hk |]. split; [exact Hf |].
  destruct (X10_dependency_failure_stops W 3 "b" false false s s s1 1 2 (deref s 1)
              [] [] "c" Hk)
    as (s' & Hrun & Hstatus & _ & Ht & _).
  - vm_compute. reflexivity.
  - vm_compute. reflexivity.
  - vm_compute. discriminate.
  - vm_compute. reflexivity.
  - reflexivity.
  - vm_compute. reflexivity.
  - vm_compute. reflexivity.
  - exact Hf.
  - exists s'. auto.
Defined.

(** X11.  Without the force flag, installing a cached package twice is
    installing it once: after the first call the status is no longer 0 or
    2, so the second call sends no request and changes nothing. *)
Theorem X11_CachedPackage_install_once
  (W : World) (self : addr) (s : State) (p : Package) (file : string) :
  heap s !! self = Some p ->
  class_of p = CachedPackage file ->
  (install W self false ;;; install W self false) s = install W self false s.
Proof.
  intros Hp Hclass.
  assert (Hpath : path p = Some file) by (unfold path; now rewrite Hclass).
  assert (Hnoop : forall (s1 : State) (p1 : Package),
             heap s1 !! self = Some p1 -> class_of p1 = CachedPackage file ->
             installation_status p1 <> 0 -> installation_status p1 <> 2 ->
             install W self false s1 = Done tt s1).
  { intros s1 p1 Hp1 Hc1 H0 H2. apply Z.eqb_neq in H0, H2.
    unfold install, bind, load. rewrite (deref_lookup _ _ _ Hp1), Hc1.
    unfold CachedPackage_install, bind, load.
    now rewrite (deref_lookup _ _ _ Hp1), H0, H2. }
  destruct (decide (installation_status p = 0 \/ installation_status p = 2))
    as [Hstatus | Hstatus].
  - assert (Hcond : (installation_status p =? 0) || (installation_status p =? 2) || false
                    = true) by (destruct Hstatus as [-> | ->]; reflexivity).
    assert (Hnot1 : (installation_status p =? 1) = false)
      by (destruct Hstatus as [-> | ->]; reflexivity).
    assert (Hfirst : exists s' p',
               install W self false s = Done tt s'
               /\ heap s' !! self = Some p' /\ class_of p' = CachedPackage file
               /\ installation_status p' <> 0 /\ installation_status p' <> 2).
    { unfold install, bind at 1, load. rewrite (deref_lookup _ _ _ Hp), Hclass.
      unfold CachedPackage_install, bind at 1, load.
      rewrite (deref_lookup _ _ _ Hp), Hcond, Hnot1, Hpath.
      unfold bind at 1, get_state. unfold bind at 1. unfold bind at 1.
      unfold printInfo, print, modify, ret.
      match goal with
      | |- context [with_console ?c s] => set (s0 := with_console c s)
      end.
      assert (Hp0 : heap s0 !! self = Some p) by exact Hp.
      match goal with
      | |- context [run_command W ?cmd true] =>
          destruct (run_and_record W self p s0 cmd
                      (fun err => Exception ("Failed to install package "
                                               +:+ PyStr.format_value (name p) +:+ " "
                                               +:+ PyStr.format_value (version p) +:+ ": "
                                               +:+ PyStr.join PyStr.newline err))
                      3 Hp0) as (s' & Hrun & _ & _ & Hh)
      end.
      assert (Hlt : (self < length (heap s0))%nat) by (eapply lookup_lt_Some; exact Hp0).
      eexists s', _. split; [exact Hrun |].
      rewrite Hh, list_lookup_insert_eq by exact Hlt.
      split; [reflexivity |].
      match goal with
      | |- context [if ?c then set_installation_status 3 p else _] => destruct c
      end; repeat split; cbn; first [exact Hclass | discriminate]. }
    destruct Hfirst as (s' & p' & Hrun & Hp' & Hc' & H0 & H2).
    unfold bind. rewrite Hrun. rewrite (Hnoop s' p' Hp' Hc' H0 H2). reflexivity.
  - assert (H0 : installation_status p <> 0) by tauto.
    assert (H2 : installation_status p <> 2) by tauto.
    unfold bind. rewrite (Hnoop s p Hp Hclass H0 H2).
    apply (Hnoop s p Hp Hclass H0 H2).
Qed.

Lemma X11_witness :
  let W := world_of two_versions_scenario in
  let s := resolved two_versions_scenario 2 ["foo"] in
  heap s !! 1%nat = Some (deref s 1)
  /\ installation_status (deref s 1) = 0
  /\ (install W 1 false ;;; install W 1 false) s = install W 1 false s.
Proof.
  intros W s.
  assert (Hp : heap s !! 1%nat = Some (deref s 1)) by (vm_compute; reflexivity).
  split; [exact Hp |]. split; [vm_compute; reflexivity |].
  apply (X11_CachedPackage_install_once W 1 s (deref s 1)
           (cache_path "foo-2.10-1-any.pkg.tar.xz") Hp).
  vm_compute. reflexivity.
Defined.

(** *** Reading the descriptor of an archive *)







(** *** Parsing the descriptor *)

Lemma all_chars_app (f : ascii -> bool) (a b : string) :
  all_chars f (a +:+ b) = all_chars f a && all_chars f b.
Proof.
  induction a as [| x a IH]; [reflexivity |].
  rewrite append_cons. cbn [all_chars]. rewrite IH. now rewrite andb_assoc.
Qed.

Lemma splitlines_from_plain (l cur : string) (started : bool) (rest : string) :
  all_chars in_value l = true ->
  PyStr.splitlines_from cur started (l +:+ rest)
  = PyStr.splitlines_from (cur +:+ l)
      (match l with EmptyString => started | _ => true end) rest.
Proof.
  revert cur started. induction l as [| c l IH]; intros cur started Hl.
  - rewrite append_empty_r. reflexivity.
  - cbn in Hl. apply andb_true_iff in Hl as [Hc Hl].
    unfold in_value, is_break in Hc. apply negb_true_iff, orb_false_iff in Hc as [Hcr Hlb].
    rewrite append_cons.
    cbn [PyStr.splitlines_from]. rewrite Hcr, Hlb.
    rewrite (IH _ true Hl), append_assoc.
    change (String c "" +:+ l) with (String c l).
    now destruct l.
Qed.

Lemma splitlines_join (lines : list string) :
  Forall (fun l => l <> "" /\ all_chars in_value l = true) lines ->
  PyStr.splitlines (PyStr.join PyStr.newline lines) = lines.
Proof.
  unfold PyStr.splitlines, PyStr.join.
  induction 1 as [| x lines [Hne Hx] Hall IH]; [reflexivity |].
  destruct lines as [| y lines].
  - change (String.concat PyStr.newline [x]) with x.
    rewrite <- (append_empty_r x) at 1.
    rewrite (splitlines_from_plain x "" false "" Hx).
    destruct x; [contradiction | reflexivity].
  - change (String.concat PyStr.newline (x :: y :: lines))
      with (x +:+ String (ascii_of_nat 10) (String.concat PyStr.newline (y :: lines))).
    rewrite (splitlines_from_plain x "" false _ Hx).
    destruct x as [| c x]; [contradiction |].
    change ("" +:+ String c x) with (String c x).
    cbn [PyStr.splitlines_from].
    change (PyStr.is_cr (ascii_of_nat 10)) with false.
    change (PyStr.is_linebreak (ascii_of_nat 10)) with true.
    cbv iota. now rewrite IH.
Qed.

Lemma strip_prefix_app (p r : string) : PyStr.strip_prefix p (p +:+ r) = Some r.
Proof.
  induction p as [| a p IH]; [reflexivity |].
  rewrite append_cons. cbn [PyStr.strip_prefix]. now rewrite Ascii.eqb_refl.
Qed.

Lemma in_key_not_space (c : ascii) : in_key c = true -> Ascii.eqb c " " = false.
Proof. unfold in_key. intros [H _]%andb_true_iff. now apply negb_true_iff. Qed.

Lemma strip_prefix_other_key (key k v : string) :
  all_chars in_key key = true ->
  all_chars in_key k = true ->
  k <> key ->
  PyStr.strip_prefix (key +:+ " = ") (k +:+ " = " +:+ v) = None.
Proof.
  revert k. induction key as [| a key IH]; intros [| b k] Hkey Hk Hne.
  - contradiction.
  - cbn in Hk. apply andb_true_iff in Hk as [Hb _].
    apply in_key_not_space in Hb. rewrite append_cons.
    change ("" +:+ " = ") with (String " " "= ").
    cbn [PyStr.strip_prefix]. rewrite Ascii.eqb_sym, Hb. reflexivity.
  - cbn in Hkey. apply andb_true_iff in Hkey as [Ha _].
    apply in_key_not_space in Ha. rewrite append_cons.
    change ("" +:+ " = " +:+ v) with (String " " ("= " +:+ v)).
    cbn [PyStr.strip_prefix]. now rewrite Ha.
  - cbn in Hkey, Hk.
    apply andb_true_iff in Hkey as [_ Hkey]. apply andb_true_iff in Hk as [_ Hk].
    rewrite !append_cons. cbn [PyStr.strip_prefix].
    destruct (Ascii.eqb_spec a b) as [-> |]; [| reflexivity].
    apply IH; [assumption .. |]. congruence.
Qed.

Lemma is_lower_in_key (c : ascii) : PyStr.is_lower c = true -> in_key c = true.
Proof.
  destruct c as [[] [] [] [] [] [] [] []]; vm_compute; congruence.
Qed.

Lemma all_chars_impl (f g : ascii -> bool) (s : string) :
  (forall c, f c = true -> g c = true) -> all_chars f s = true -> all_chars g s = true.
Proof.
  intros Hfg. induction s as [| c s IH]; [reflexivity |].
  cbn. intros [Hc Hs]%andb_true_iff. rewrite (Hfg c Hc), (IH Hs). reflexivity.
Qed.

(** X14.  Reading back a descriptor: from the text that has one line
    [key = value] per entry, [_parse_from_string] returns the values of
    the entries with the given key, in order; none gives [None], one gives
    the value itself and more give the list. *)
Theorem X14_parse_descriptor (key : string) (entries : list (string * string)) :
  all_chars PyStr.is_lower key = true ->
  Forall well_formed_entry entries ->
  _parse_from_string key (descriptor entries)
  = match (filter (fun entry => entry.1 = key) entries).*2 with
    | [] => ParsedNone
    | [v] => ParsedStr v
    | values => ParsedList values
    end.
Proof.
  intros Hkey Hentries.
  apply (all_chars_impl _ in_key _ is_lower_in_key) in Hkey.
  unfold _parse_from_string, descriptor.
  rewrite splitlines_join.
  2:{ apply Forall_map. eapply Forall_impl; [exact Hentries |].
      intros [k v] (Hk & Hv & Hplain). cbn in *. unfold descriptor_line. cbn. split.
      - destruct k; discriminate.
      - rewrite !all_chars_app, Hplain.
        rewrite (all_chars_impl in_key in_value k); [reflexivity | | exact Hk].
        intros c. unfold in_key. now intros [_ H]%andb_true_iff. }
  match goal with
  | |- context [omap ?f (map descriptor_line entries)] =>
      assert (Hvalues : omap f (map descriptor_line entries)
                        = (filter (fun entry => entry.1 = key) entries).*2)
  end.
  { induction Hentries as [| [k v] entries (Hk & Hv & _) _ IH]; [reflexivity |].
    cbn [map]. simpl omap.
    change (list_omap string string) with (@omap list _ string string). rewrite IH. rewrite filter_cons. cbn in Hk, Hv.
    unfold descriptor_line at 1. cbn [fst snd].
    destruct (decide (k = key)) as [-> | Hne].
    - rewrite <- append_assoc, strip_prefix_app.
      destruct v; [contradiction | reflexivity].
    - rewrite (strip_prefix_other_key key k v Hkey Hk Hne). reflexivity. }
  rewrite Hvalues.
  destruct ((filter (fun entry => entry.1 = key) entries).*2) as [| v [| w l]]; reflexivity.
Qed.

Lemma X14_witness :
  _parse_from_string "depend"
    (descriptor [("pkgname", "foo"); ("depend", "glibc>=2.30"); ("arch", "any");
                 ("depend", "zlib")])
  = ParsedList ["glibc>=2.30"; "zlib"].
Proof.
  apply (X14_parse_descriptor "depend"
           [("pkgname", "foo"); ("depend", "glibc>=2.30"); ("arch", "any");
            ("depend", "zlib")]).
  - reflexivity.
  - repeat constructor; cbn; discriminate.
Defined.

Lemma before_operator_plain (n : string) :
  all_chars (fun c => negb (is_operator c)) n = true -> before_operator n = None.
Proof.
  induction n as [| c n IH]; [reflexivity |].
  cbn. intros [Hc Hn]%andb_true_iff. apply negb_true_iff in Hc.
  unfold is_operator in Hc. rewrite Hc, (IH Hn). reflexivity.
Qed.

Lemma before_operator_app (n : string) (op : ascii) (rest : string) :
  all_chars (fun c => negb (is_operator c)) n = true ->
  is_operator op = true ->
  before_operator (n +:+ String op rest) = Some n.
Proof.
  intros Hn Hop. induction n as [| c n IH].
  - change ("" +:+ String op rest) with (String op rest).
    cbn [before_operator]. unfold is_operator in Hop. now rewrite Hop.
  - cbn in Hn. apply andb_true_iff in Hn as [Hc Hn]. apply negb_true_iff in Hc.
    unfold is_operator in Hc.
    change (String c n +:+ String op rest) with (String c (n +:+ String op rest)).
    cbn [before_operator]. rewrite Hc, (IH Hn). reflexivity.
Qed.

Lemma chomp_plain (s : string) :
  all_chars (fun c => negb (PyStr.is_lf c)) s = true -> chomp s = (s, false).
Proof.
  induction s as [| c s IH]; [reflexivity |].
  cbn [all_chars]. intros [Hc Hs]%andb_true_iff. apply negb_true_iff in Hc.
  cbn [chomp]. destruct s as [| d s]; [now rewrite Hc |]. now rewrite (IH Hs).
Qed.

Lemma chomp_newline (s : string) : chomp (s +:+ PyStr.newline) = (s, true).
Proof.
  induction s as [| c s IH]; [reflexivity |].
  rewrite append_cons. cbn [chomp]. rewrite IH.
  destruct s; reflexivity.
Qed.

Lemma split_last_line_plain (s : string) :
  all_chars (fun c => negb (PyStr.is_lf c)) s = true -> split_last_line s = ("", s).
Proof.
  induction s as [| c s IH]; [reflexivity |].
  cbn [all_chars]. intros [Hc Hs]%andb_true_iff. apply negb_true_iff in Hc.
  cbn [split_last_line]. now rewrite (IH Hs), Hc.
Qed.

(** On a string without a line feed the substitution cuts at the first
    [<] or [>] that is not the first character. *)
Lemma strip_constraint_plain (s : string) :
  all_chars (fun c => negb (PyStr.is_lf c)) s = true ->
  strip_constraint s = cut_constraint s.
Proof.
  intros Hs. unfold strip_constraint.
  rewrite (chomp_plain s Hs), (split_last_line_plain s Hs).
  change ("" +:+ cut_constraint s +:+ "") with (cut_constraint s +:+ "").
  apply append_empty_r.
Qed.

(** X13.  The name queried for a dependency is what stands before its
    version constraint: a non-empty name without [<], [>] and line feed is
    returned as it is, and with a constraint appended, that is [<] or [>]
    and any text without a line feed, the result is still the name; a
    line feed that ends the string stays. *)
Theorem X13_strip_constraint (n : string) (op : ascii) (rest : string) :
  n <> "" ->
  all_chars (fun c => negb (is_operator c)) n = true ->
  all_chars (fun c => negb (PyStr.is_lf c)) n = true ->
  is_operator op = true ->
  all_chars (fun c => negb (PyStr.is_lf c)) rest = true ->
  strip_constraint n = n
  /\ strip_constraint (n +:+ String op rest) = n
  /\ strip_constraint ((n +:+ String op rest) +:+ PyStr.newline) = n +:+ PyStr.newline.
Proof.
  intros Hne Hn Hlf Hop Hrest.
  assert (Hoplf : PyStr.is_lf op = false).
  { unfold is_operator in Hop.
    apply orb_true_iff in Hop as [Hop | Hop]; apply Ascii.eqb_eq in Hop; subst op;
      reflexivity. }
  assert (Hall : all_chars (fun c => negb (PyStr.is_lf c)) (n +:+ String op rest) = true).
  { rewrite all_chars_app, Hlf. cbn [all_chars]. now rewrite Hoplf, Hrest. }
  assert (Hcut : cut_constraint (n +:+ String op rest) = n).
  { destruct n as [| c n]; [contradiction |].
    cbn in Hn. apply andb_true_iff in Hn as [_ Hn].
    rewrite append_cons. cbn [cut_constraint].
    now rewrite (before_operator_app n op rest Hn Hop). }
  split; [| split].
  - rewrite (strip_constraint_plain n Hlf).
    destruct n as [| c n]; [contradiction |].
    cbn in Hn. apply andb_true_iff in Hn as [_ Hn].
    cbn [cut_constraint]. now rewrite (before_operator_plain n Hn).
  - now rewrite (strip_constraint_plain _ Hall).
  - unfold strip_constraint. rewrite chomp_newline, (split_last_line_plain _ Hall), Hcut.
    reflexivity.
Qed.

Lemma X13_witness :
  strip_constraint "glibc" = "glibc" /\ strip_constraint "glibc>=2.30" = "glibc".
Proof.
  destruct (X13_strip_constraint "glibc" ">" "=2.30") as (H1 & H2 & _).
  - discriminate.
  - reflexivity.
  - reflexivity.
  - reflexivity.
  - reflexivity.
  - split; [exact H1 | exact H2].
Defined.

(** *** The lookup in the cache *)

(** X15.  When the versions cached under a name can be compared with each
    other, [get_cached_package] neither raises nor runs on: it returns
    [None] and changes nothing when no cached package has exactly that
    name, and otherwise a cached package of that name of which no other
    has a greater version; names, versions, [pkg_dict] and the cache list
    are as before. *)
Theorem X15_get_cached_package (W : World) (pkg_name : string) (s : State) :
  comparable s (filter (fun a => name (deref s a) = Some pkg_name) (cached_packages s)) ->
  match get_cached_package W pkg_name s with
  | Done None s' =>
      s' = s
      /\ forall a, a ∈ cached_packages s -> name (deref s a) <> Some pkg_name
  | Done (Some pkg) s' =>
      pkg ∈ cached_packages s
      /\ name (deref s pkg) = Some pkg_name
      /\ (forall b, b ∈ cached_packages s -> name (deref s b) = Some pkg_name ->
            LooseVersion.lt (version (deref s pkg)) (version (deref s b)) = inr false)
      /\ (forall b, name (deref s' b) = name (deref s b)
                    /\ version (deref s' b) = version (deref s b))
      /\ pkg_dict s' = pkg_dict s
      /\ cached_packages s' = cached_packages s
  | Raised _ _ => False
  | OutOfFuel => False
  end.
Proof.
  intros Hcmp.
  unfold get_cached_package, bind at 1, get_state.
  set (candidates := filter (fun a => name (deref s a) = Some pkg_name) (cached_packages s))
    in *.
  assert (Hcand : forall a, a ∈ candidates
                            <-> name (deref s a) = Some pkg_name /\ a ∈ cached_packages s)
    by (intros a; subst candidates; rewrite list_elem_of_filter; reflexivity).
  destruct candidates as [| first rest].
  - cbn. split; [reflexivity |]. intros a Hin Hname.
    eapply elem_of_nil, Hcand. split; eassumption.
  - assert (Hfirst : first ∈ first :: rest) by (apply elem_of_cons; now left).
    destruct (greatest_version_Done s (first :: rest) Hcmp (first :: rest) first Hfirst
                (fun b Hb => Hb)) as (best & Hrun & Hin & _ & Hall).
    unfold bind at 1. rewrite Hrun.
    destruct (get_installation_status_Done W best s) as (s' & Hstatus & Hfields & Hdict & Hc).
    unfold bind. rewrite Hstatus. cbn.
    assert (Hbest : best ∈ first :: rest).
    { apply elem_of_cons in Hin as [-> | Hin]; [exact Hfirst | exact Hin]. }
    apply Hcand in Hbest as [Hname Hcached].
    split; [exact Hcached |]. split; [exact Hname |].
    split; [| split; [exact Hfields | split; [exact Hdict | exact Hc]]].
    intros b Hb Hnb. apply Hall, Hcand. now split.
Qed.

Lemma X15_witness :
  let W := world_of two_versions_scenario in
  let s := scanned two_versions_scenario in
  comparable s (filter (fun a => name (deref s a) = Some "foo") (cached_packages s))
  /\ exists pkg s',
       get_cached_package W "foo" s = Done (Some pkg) s'
       /\ forall b, b ∈ cached_packages s -> name (deref s b) = Some "foo" ->
            LooseVersion.lt (version (deref s pkg)) (version (deref s b)) = inr false.
Proof.
  intros W s.
  assert (Hcmp : comparable s
                   (filter (fun a => name (deref s a) = Some "foo") (cached_packages s))).
  { assert (Hf : filter (fun a => name (deref s a) = Some "foo") (cached_packages s)
                 = [0; 1]%nat) by (vm_compute; reflexivity).
    rewrite Hf. intros a b Ha Hb.
    apply list_elem_of_In in Ha, Hb. cbn in Ha, Hb.
    destruct Ha as [<- | [<- | []]], Hb as [<- | [<- | []]];
      vm_compute; eexists; reflexivity. }
  split; [exact Hcmp |].
  pose proof (X15_get_cached_package W "foo" s Hcmp) as H.
  destruct (get_cached_package W "foo" s) as [[pkg |] s' | |]; try contradiction.
  - destruct H as (_ & _ & Hgreatest & _). exists pkg, s'. split; [reflexivity | exact Hgreatest].
  - destruct H as (_ & Hnone). exfalso. apply (Hnone 0%nat).
    + apply list_elem_of_In. vm_compute. now left.
    + vm_compute. reflexivity.
Defined.

(** *** The lines of the report *)

Lemma length_append (a b : string) :
  String.length (a +:+ b) = (String.length a + String.length b)%nat.
Proof.
  induction a as [| x a IH]; [reflexivity |].
  rewrite append_cons. cbn [String.length]. now rewrite IH.
Qed.

(** X17.  [format_log] lines up a message of several lines: for a package
    with a name and a non-empty version the first line follows the header
    [name version: ], and every further line follows [prefix] and as many
    spaces as the header is long. *)
Theorem X17_format_log_aligns (pkg : Package) (n v : string) (first : string)
        (others : list string) (prefix : string) (s : State) :
  name pkg = Some n ->
  version pkg = Some v ->
  v <> "" ->
  Forall (fun l => l <> "" /\ all_chars in_value l = true) (first :: others) ->
  let header := n +:+ " " +:+ v +:+ ": " in
  format_log pkg (PyStr.join PyStr.newline (first :: others)) prefix s
  = Done (header
            +:+ PyStr.join PyStr.newline
                  (first :: map (fun l => prefix +:+ PyStr.spaces (String.length header) +:+ l)
                              others)) s.
Proof.
  intros Hn Hv Hne Hlines header.
  unfold format_log. rewrite Hn, Hv. cbn [PyStr.len fmap option_fmap option_map].
  rewrite (splitlines_join _ Hlines).
  assert (Hlen : (String.length n + String.length v + 3)%nat = String.length header).
  { unfold header. rewrite !length_append. cbn [String.length]. lia. }
  rewrite Hlen.
  destruct v as [| c v]; [contradiction |].
  cbn [PyStr.format_value default id]. unfold ret.
  subst header. rewrite !append_assoc.
  destruct others as [| second others]; reflexivity.
Qed.

Lemma X17_witness :
  format_log
    (set_version (Some "1.0-1") (set_name (Some "a") (class_defaults PackageBase)))
    (PyStr.join PyStr.newline ["Failed: first"; "second"]) "|   " initial_state
  = Done ("a 1.0-1: Failed: first" +:+ PyStr.newline +:+ "|   " +:+ "         " +:+ "second")
      initial_state.
Proof.
  apply (X17_format_log_aligns
           (set_version (Some "1.0-1") (set_name (Some "a") (class_defaults PackageBase)))
           "a" "1.0-1" "Failed: first" ["second"] "|   " initial_state).
  - reflexivity.
  - reflexivity.
  - discriminate.
  - repeat constructor; discriminate.
Defined.

(** X18.  The report of one requested package is printed in one colour:
    every line the rendering returns is printed, in order, green when the
    rendering returned success and red otherwise, and nothing else of the
    state changes; when the rendering raises, nothing is printed. *)
Theorem X18_report_in_one_colour (fuel : nat) (pkg_name : string) (s : State) :
  match print_installation_log_recursive fuel [pkg_name] "" true s with
  | Done (successfully_installed, log) _ =>
      print_installation_log fuel pkg_name s
      = Done tt
          (with_console
             (console s
                ++ map (fun line =>
                          (if successfully_installed : bool
                           then ConsoleColors.green else ConsoleColors.red)
                            +:+ line +:+ ConsoleColors.reset) log)%list s)
  | Raised e _ => print_installation_log fuel pkg_name s = Raised e s
  | OutOfFuel => print_installation_log fuel pkg_name s = OutOfFuel
  end.
Proof.
  pose proof (keeps_print_installation_log_recursive eq ltac:(reflexivity)
                ltac:(intros; congruence) fuel [pkg_name] "" true s) as Hsame.
  unfold print_installation_log, bind.
  destruct (print_installation_log_recursive fuel [pkg_name] "" true s)
    as [[ok log] s1 | e s1 |]; [| | reflexivity].
  - subst s1. destruct ok.
    + exact (for_each_print
               (fun line => ConsoleColors.green +:+ line +:+ ConsoleColors.reset) log s).
    + exact (for_each_print
               (fun line => ConsoleColors.red +:+ line +:+ ConsoleColors.reset) log s).
  - destruct Hsame as [<- _]. reflexivity.
Qed.

(** *** The scan of the cache directory *)

(** X19.  The loop of [main] over a listing of the cache directory, as
    [os.listdir] has returned it, makes one object per regular file whose
    path ends in [.pkg.tar.xz], in the order of the listing, and appends
    their addresses to [cached_packages]; a file whose name cannot be
    parsed still gets an object, without a name and with an error.  The
    loop itself never fails, asks nothing of the package manager and
    prints nothing. *)
Theorem X19_scan_cache (W : World) (entries : list (string * bool)) (s : State) :
  let archives := archives_of (pacman_cache_dir s) entries in
  exists s' objects,
    scan_cache W entries s = Done tt s'
    /\ heap s' = (heap s ++ objects)%list
    /\ Forall2 (made_from W) archives objects
    /\ cached_packages s'
       = (cached_packages s ++ seq (length (heap s)) (length archives))%list
    /\ pkg_dict s' = pkg_dict s
    /\ trace s' = trace s
    /\ console s' = console s
    /\ pacman_cache_dir s' = pacman_cache_dir s
    /\ packages_in_offical_repositories s' = packages_in_offical_repositories s.
Proof.
  revert s. induction entries as [| [f isfile] entries IH]; intros s archives.
  - exists s, []. cbn. rewrite !app_nil_r. repeat split. constructor.
  - subst archives.
    assert (Hcons : archives_of (pacman_cache_dir s) ((f, isfile) :: entries)
                    = match
                        (if isfile && PyStr.ends_with ".pkg.tar.xz"
                                        (path_join (pacman_cache_dir s) f)
                         then Some (path_join (pacman_cache_dir s) f) else None)
                      with
                      | Some file => file :: archives_of (pacman_cache_dir s) entries
                      | None => archives_of (pacman_cache_dir s) entries
                      end) by reflexivity.
    rewrite Hcons. clear Hcons.
    cbn [scan_cache]. unfold bind at 1. unfold get_state.
    destruct (isfile && PyStr.ends_with ".pkg.tar.xz" (path_join (pacman_cache_dir s) f)).
    + set (file := path_join (pacman_cache_dir s) f).
      assert (Hnew : exists p,
                 made_from W file p
                 /\ new_CachedPackage W file s
                    = Done (length (heap s)) (with_heap (heap s ++ [p]) s)).
      { unfold new_CachedPackage, made_from.
        destruct (file_name_groups W file) as [[[n v] a] |]; eexists;
          (split; [| reflexivity]); repeat split. }
      destruct Hnew as (p & Hp & Hnew).
      unfold bind at 1 2. rewrite Hnew. unfold modify.
      set (s1 := with_cached_packages _ _).
      destruct (IH s1) as (s' & objects & Hrun & Hheap & Hobjs & Hcached & Hd & Ht & Hc
                           & Hdir & Hoff).
      exists s', (p :: objects). split; [exact Hrun |].
      split; [rewrite Hheap; cbn; now rewrite <- app_assoc |].
      split; [constructor; assumption |].
      split; [| repeat split; assumption].
      rewrite Hcached. cbn. rewrite length_app, <- app_assoc. cbn.
      now rewrite Nat.add_1_r.
    + unfold bind, ret. apply IH.
Qed.

(** *** Installing from the cache only *)

Lemma only_local_installs_same (s s' : State) :
  trace s' = trace s -> only_local_installs s s'.
Proof. intros H. exists []. rewrite H, app_nil_r. split; reflexivity. Qed.

Lemma only_local_installs_trans (s1 s2 s3 : State) :
  only_local_installs s1 s2 -> only_local_installs s2 s3 -> only_local_installs s1 s3.
Proof.
  intros (t & Ht & Hl) (t' & Ht' & Hl'). exists (t ++ t')%list.
  rewrite Ht', Ht, <- app_assoc. split; [reflexivity |].
  rewrite forallb_app, Hl, Hl'. reflexivity.
Qed.

Lemma ends_in_bind {A B} (R : State -> State -> Prop) (m : M A) (k : A -> M B) (s : State) :
  (forall s1 s2 s3, R s1 s2 -> R s2 s3 -> R s1 s3) ->
  ends_in R m s ->
  (forall a s1, m s = Done a s1 -> ends_in R (k a) s1) ->
  ends_in R (bind m k) s.
Proof.
  intros Htrans Hm Hk. unfold ends_in, bind in *.
  destruct (m s) as [a s1 | e s1 |]; [| exact Hm | exact I].
  specialize (Hk a s1 eq_refl).
  destruct (k a s1) as [b s2 | e s2 |]; [| | exact I]; eapply Htrans; eassumption.
Qed.

Lemma CachedPackage_install_local (W : World) (self : addr) (force : bool) (s : State) :
  ends_in only_local_installs (CachedPackage_install W self force) s.
Proof.
  unfold ends_in, CachedPackage_install, bind at 1, load.
  destruct (_ || _ || force); [| now apply only_local_installs_same].
  unfold bind at 1, get_state, bind at 1.
  set (p := deref s self).
  assert (Hrun : forall flags s0,
             trace s0 = trace s ->
             match
               (match path p with
                | None =>
                    raise (TypeError "expected str, bytes or os.PathLike object, not NoneType")
                | Some file =>
                    let* (rc, out, err) :=
                      run_command W
                        (["pacman"; "-U"; "--noconfirm"; "--noprogressbar"; "--cachedir";
                          pacman_cache_dir s] ++ flags ++ [file])%list true in
                    if negb (rc =? 0) then
                      update self (set_installation_status (-1)) ;;;
                      update self
                        (set_error_info
                           (Some (Exception
                                    ("Failed to install package "
                                       +:+ PyStr.format_value (name p)
                                       +:+ " " +:+ PyStr.format_value (version p) +:+ ": "
                                       +:+ PyStr.join PyStr.newline err))))
                    else if installation_status p =? 1
                         then update self (set_installation_status 4)
                         else update self (set_installation_status 3)
                end) s0
             with
             | Done _ s' | Raised _ s' => only_local_installs s s'
             | OutOfFuel => True
             end).
  { intros flags s0 H0. destruct (path p) as [file |].
    2:{ cbn. now apply only_local_installs_same. }
    unfold bind at 1.
    match goal with
    | |- context [run_command W ?cmd true s0] =>
        destruct (run_command_Done W cmd true s0) as (s1 & -> & Ht & _)
    end.
    assert (Hl : only_local_installs s s1).
    { eexists. rewrite Ht, H0. split; reflexivity. }
    destruct (negb _); [| destruct (installation_status p =? 1)];
      unfold bind, update, modify; cbn; exact Hl. }
  destruct (installation_status p =? 1); unfold printInfo, print, modify, ret;
    unfold bind at 1; cbv beta iota.
  - exact (Hrun ["--force"] (with_console _ s) eq_refl).
  - exact (Hrun [] (with_console _ s) eq_refl).
Qed.

Lemma installs_class (s s' : State) (a : addr) :
  installs s s' -> class_of (deref s' a) = class_of (deref s a).
Proof.
  intros (Hh & _). unfold deref.
  destruct (heap s !! a) as [p |] eqn:Hp.
  - destruct (Forall2_lookup_l _ _ _ _ _ Hh Hp) as (p' & -> & ((Hc & _) & _)). exact Hc.
  - apply lookup_ge_None in Hp. rewrite (Forall2_length _ _ _ Hh) in Hp.
    apply lookup_ge_None in Hp. now rewrite Hp.
Qed.

Lemma install_dependencies_local
  (install_rec : string -> M unit) (pkg : addr) (deps : list string) :
  (forall d s, ends_in only_local_installs (install_rec d) s) ->
  forall s, ends_in only_local_installs (install_dependencies install_rec pkg deps) s.
Proof.
  intros Hrec. induction deps as [| d deps IH]; intros s; cbn [install_dependencies].
  - now apply only_local_installs_same.
  - apply ends_in_bind; [apply only_local_installs_trans | |].
    { unfold ends_in, dict_get. destruct (pkg_dict s !! d); now apply only_local_installs_same. }
    intros pd s1 _.
    apply ends_in_bind; [apply only_local_installs_trans | apply Hrec |].
    intros _ s2 _.
    apply ends_in_bind; [apply only_local_installs_trans | |].
    { now apply only_local_installs_same. }
    intros dp s3 _. destruct (truthy (error_info dp)); [| apply IH].
    now apply only_local_installs_same.
Qed.

(** X20.  With [use_cache_only] an installation sends no request but
    [pacman -U]: whatever the world answers and however the run ends,
    everything it adds to the trace is a local installation of an archive,
    so no package is fetched from the official repositories by
    [pacman -S]. *)
Theorem X20_cache_only_never_synchronises
  (W : World) (fuel : nat) (pkg_name : string) (force : bool) (s : State) :
  ends_in only_local_installs (install_package_recursive W fuel pkg_name true force) s.
Proof.
  revert pkg_name s. induction fuel as [| fuel IH]; intros pkg_name s;
    cbn [install_package_recursive]; [exact I |].
  apply ends_in_bind; [apply only_local_installs_trans | |].
  { unfold ends_in, dict_get. destruct (pkg_dict s !! pkg_name);
      now apply only_local_installs_same. }
  intros pkg s1 Hget.
  assert (s1 = s) as ->.
  { unfold dict_get in Hget. destruct (pkg_dict s !! pkg_name); congruence. }
  unfold ends_in, bind at 1, load.
  destruct (truthy (error_info (deref s pkg))); [now apply only_local_installs_same |].
  assert (Hloop : class_of (deref s pkg) <> OfficialPackage ->
            ends_in only_local_installs
              (returned <- install_dependencies
                             (fun dependency =>
                                install_package_recursive W fuel dependency true force)
                             pkg (dependencies (deref s pkg)) ;;
               if returned then ret tt else install W pkg force) s).
  { intros Hclass.
    apply ends_in_bind; [apply only_local_installs_trans | |].
    { apply install_dependencies_local. intros d s0. apply IH. }
    intros returned s2 Hdeps.
    destruct returned; [now apply only_local_installs_same |].
    assert (Hinst : installs s s2).
    { pose proof (keeps_install_dependencies installs installs_refl installs_trans
                    (fun f => forall p, same_but_outcome p (f p))
                    ltac:(intros a f s0; apply installs_update)
                    ltac:(intros k p; repeat split)
                    (fun dependency => install_package_recursive W fuel dependency true force)
                    pkg (dependencies (deref s pkg))
                    ltac:(intros d; apply install_package_recursive_installs) s) as Hk.
      now rewrite Hdeps in Hk. }
    unfold ends_in, install, bind at 1, load.
    rewrite (installs_class s s2 pkg Hinst).
    destruct (class_of (deref s pkg)) as [| file |];
      [now apply only_local_installs_same | apply CachedPackage_install_local
       | contradiction]. }
  destruct (class_of (deref s pkg)) as [| file |] eqn:Hclass.
  - apply Hloop. discriminate.
  - apply Hloop. discriminate.
  - now apply only_local_installs_same.
Qed.

(** *** The tree of the report *)

Lemma format_log_one_line (p : Package) (n v msg prefix : string) (s : State) :
  name p = Some n ->
  version p = Some v ->
  PyStr.splitlines msg = [msg] ->
  format_log p msg prefix s = Done (report_line n v msg) s.
Proof.
  intros Hn Hv Hmsg. unfold format_log. rewrite Hn, Hv, Hmsg. cbn.
  destruct v; reflexivity.
Qed.

Lemma leaf_outcome (p : Package) (n v msg lp : string) (log : list string) (s : State) :
  name p = Some n ->
  version p = Some v ->
  outcome_message (installation_status p) = Some msg ->
  (if installation_status p =? 1 then
     line <- format_log p "Skipped" "" ;;
     ret (true, (log ++ [lp +:+ line])%list)
   else if installation_status p =? 3 then
     line <- format_log p "Successfully installed" "" ;;
     ret (true, (log ++ [lp +:+ line])%list)
   else if installation_status p =? 4 then
     line <- format_log p "Successfully reinstalled" "" ;;
     ret (true, (log ++ [lp +:+ line])%list)
   else ret (true, log)) s
  = Done (true, (log ++ [lp +:+ report_line n v msg])%list) s.
Proof.
  intros Hn Hv Hmsg. unfold outcome_message in Hmsg.
  destruct (installation_status p =? 1);
    [| destruct (installation_status p =? 3);
       [| destruct (installation_status p =? 4); [| discriminate]]];
    injection Hmsg as <-; unfold bind.
  - now rewrite (format_log_one_line p n v "Skipped" "" s Hn Hv eq_refl).
  - now rewrite (format_log_one_line p n v "Successfully installed" "" s Hn Hv eq_refl).
  - now rewrite (format_log_one_line p n v "Successfully reinstalled" "" s Hn Hv eq_refl).
Qed.

Lemma log_packages_leaves
  (log_rec : list string -> string -> M (bool * list string)) (prefix : string)
  (total : nat) (s : State) (names lines : list string) :
  Forall2 (reported_leaf s) names lines ->
  forall (k : nat) (log : list string),
    total = (k + length names)%nat ->
    log_packages log_rec prefix false
      (imap (fun count value => ((k + count)%nat, (total - (k + count))%nat, value)) names)
      true log (prefix +:+ "├── ") (prefix +:+ "|   ") s
    = Done (true,
            (log ++ imap (fun i line => (prefix +:+ branch total (k + i)) +:+ line) lines)%list)
        s.
Proof.
  induction 1 as [| pkg_name line names lines Hleaf Hrest IH]; intros k log Htotal.
  - cbn. now rewrite app_nil_r.
  - destruct Hleaf as (a & p & n & v & msg & Hdict & Hp & Hdeps & Herr & Hn & Hv & Hmsg & ->).
    cbn [imap log_packages]. unfold bind at 1. unfold dict_get. rewrite Hdict.
    unfold bind at 1. unfold load. rewrite (deref_lookup _ _ _ Hp).
    rewrite Hdeps, Herr. cbn [length Nat.ltb Nat.leb truthy negb].
    rewrite Nat.add_0_r.
    destruct names as [| next names].
    + inversion Hrest; subst. cbn [length] in *.
      replace (k + 1 - k)%nat with 1%nat by lia.
      cbn [Nat.eqb imap]. unfold bind at 1, ret at 1. cbv beta iota. cbn [negb].
      rewrite (bind_Done _ _ s s _
                 (leaf_outcome p n v msg (prefix +:+ "└── ") log s Hn Hv Hmsg)).
      cbn. unfold branch.
      replace (S k =? k + 1)%nat with true by (symmetry; apply Nat.eqb_eq; lia).
      now rewrite app_nil_r.
    + assert (Hanchor : (total - k =? 1)%nat = false).
      { apply Nat.eqb_neq. cbn [length] in Htotal. lia. }
      rewrite Hanchor. unfold bind at 1, ret at 1. cbv beta iota. cbn [negb].
      rewrite (bind_Done _ _ s s _
                 (leaf_outcome p n v msg (prefix +:+ "├── ") log s Hn Hv Hmsg)).
      rewrite app_nil_r.
      rewrite (imap_ext _ (fun count value =>
                             ((S k + count)%nat, (total - (S k + count))%nat, value))).
      2:{ intros i x _. cbn. repeat f_equal; lia. }
      rewrite (IH (S k) _ ltac:(cbn [length] in *; lia)).
      f_equal. f_equal. rewrite <- app_assoc. f_equal.
      cbn [imap app]. f_equal.
      * unfold branch. rewrite ?Nat.add_0_r.
        replace (S k =? total)%nat with false
          by (symmetry; apply Nat.eqb_neq; cbn [length] in Htotal; lia).
        reflexivity.
      * apply imap_ext. intros i x _. cbn. repeat f_equal. lia.
Qed.

(** X21.  The tree of the report: for a list of registered packages
    without dependencies and without errors that were skipped or
    installed, the rendering below the root returns success and one line
    per package, in order, each behind [prefix] and a branch, which is
    [└── ] for the last package and [├── ] for every other. *)
Theorem X21_report_of_leaves
  (fuel : nat) (pkg_names lines : list string) (prefix : string) (s : State) :
  Forall2 (reported_leaf s) pkg_names lines ->
  print_installation_log_recursive (S fuel) pkg_names prefix false s
  = Done (true,
          imap (fun i line => (prefix +:+ branch (length pkg_names) i) +:+ line) lines) s.
Proof.
  intros Hleaves. cbn [print_installation_log_recursive].
  unfold enumerate_package_names.
  exact (log_packages_leaves _ prefix (length pkg_names) s pkg_names lines Hleaves
           0%nat [] eq_refl).
Qed.

Lemma X21_witness :
  let s := installed two_versions_scenario 2 ["foo"] in
  print_installation_log_recursive 1 ["foo"; "foo"] "|   " false s
  = Done (true,
          ["|   ├── foo 2.10-1: Successfully installed";
           "|   └── foo 2.10-1: Successfully installed"]) s.
Proof.
  intros s.
  assert (Hleaf : reported_leaf s "foo" "foo 2.10-1: Successfully installed").
  { exists 1%nat, (deref s 1), "foo", "2.10-1", "Successfully installed".
    repeat apply conj; vm_compute; reflexivity. }
  assert (Hleaves : Forall2 (reported_leaf s) ["foo"; "foo"]
                      ["foo 2.10-1: Successfully installed";
                       "foo 2.10-1: Successfully installed"]).
  { constructor; [exact Hleaf |]. constructor; [exact Hleaf | constructor]. }
  exact (X21_report_of_leaves 0 ["foo"; "foo"]
           ["foo 2.10-1: Successfully installed"; "foo 2.10-1: Successfully installed"]
           "|   " s Hleaves).
Defined.

(** *** Dependency cycles *)

(** X22.  Neither the installation nor the report marks the packages it
    has visited: on names that are registered for installable packages and
    lead from one to the next by their first dependency, which a
    dependency cycle does, both recurse without bound, from every one of
    the names and whatever the world answers. *)
Theorem X22_cycle_is_followed_forever
  (W : World) (names : list string) (s : State) (use_cache_only force : bool) :
  (forall n, n ∈ names -> first_dependency_in s names n) ->
  forall (fuel : nat) (pkg_name : string),
    pkg_name ∈ names ->
    install_package_recursive W fuel pkg_name use_cache_only force s = OutOfFuel
    /\ forall rest prefix is_root,
         print_installation_log_recursive fuel (pkg_name :: rest) prefix is_root s
         = OutOfFuel.
Proof.
  intros Hcycle. induction fuel as [| fuel IH]; intros pkg_name Hin; [split; reflexivity |].
  destruct (Hcycle pkg_name Hin) as (a & p & d & deps & Hdict & Hp & Herr & Hclass & Hdeps & Hd).
  destruct (IH d Hd) as [IHinstall IHreport].
  destruct (Hcycle d Hd) as (a' & _ & _ & _ & Hdict' & _).
  split.
  - cbn [install_package_recursive]. unfold bind at 1, dict_get. rewrite Hdict.
    unfold bind at 1, load. rewrite (deref_lookup _ _ _ Hp), Herr. cbn [truthy].
    assert (Hloop : (returned <- install_dependencies
                                   (fun dependency =>
                                      install_package_recursive W fuel dependency
                                        use_cache_only force) a (dependencies p) ;;
                     if returned then ret tt else install W a force) s = OutOfFuel).
    { apply bind_OutOfFuel. rewrite Hdeps. cbn [install_dependencies].
      unfold bind at 1, dict_get. rewrite Hdict'.
      apply bind_OutOfFuel. exact IHinstall. }
    destruct (class_of p); [exact Hloop | exact Hloop | contradiction].
  - intros rest prefix is_root. cbn [print_installation_log_recursive].
    unfold enumerate_package_names. cbn [imap log_packages].
    unfold bind at 1, dict_get. rewrite Hdict.
    unfold bind at 1, load. rewrite (deref_lookup _ _ _ Hp), Hdeps.
    cbn [length Nat.ltb Nat.leb].
    destruct is_root; [| destruct (_ =? 1)%nat];
      apply bind_OutOfFuel; apply IHreport.
Qed.

Lemma X22_witness :
  let W := world_of cached_cycle_scenario in
  let s := resolved cached_cycle_scenario 3 ["x"] in
  (forall n, n ∈ ["x"; "y"] -> first_dependency_in s ["x"; "y"] n)
  /\ forall fuel, install_package_recursive W fuel "x" false false s = OutOfFuel.
Proof.
  intros W s.
  assert (Hcycle : forall n, n ∈ ["x"; "y"] -> first_dependency_in s ["x"; "y"] n).
  { intros n Hn. apply list_elem_of_In in Hn. cbn in Hn.
    destruct Hn as [<- | [<- | []]].
    - exists 0%nat, (deref s 0), "y", [].
      repeat apply conj; try (vm_compute; reflexivity).
      + vm_compute. discriminate.
      + apply list_elem_of_In. cbn. auto.
    - exists 1%nat, (deref s 1), "x", [].
      repeat apply conj; try (vm_compute; reflexivity).
      + vm_compute. discriminate.
      + apply list_elem_of_In. cbn. auto. }
  split; [exact Hcycle |].
  intros fuel.
  assert (Hx : "x" ∈ ["x"; "y"]) by (apply list_elem_of_In; cbn; auto).
  exact (proj1 (X22_cycle_is_followed_forever W ["x"; "y"] s false false Hcycle fuel "x" Hx)).
Defined.

(** *** Resolution only asks *)

Lemma only_inquiries_same (s s' : State) : trace s' = trace s -> only_inquiries s s'.
Proof. intros Ht. exists []. rewrite Ht, app_nil_r. split; reflexivity. Qed.

Lemma only_inquiries_trans (s1 s2 s3 : State) :
  only_inquiries s1 s2 -> only_inquiries s2 s3 -> only_inquiries s1 s3.
Proof.
  intros (t & Ht & Hl) (t' & Ht' & Hl').
  exists (t ++ t')%list. rewrite Ht', Ht, <- app_assoc. split; [reflexivity |].
  rewrite forallb_app, Hl, Hl'. reflexivity.
Qed.

(** X23.  Resolution only asks: every request it sends is a question to
    the package manager, the reading of an archive or a [package-query]
    command; it never runs [pacman], so nothing is installed before the
    resolution of every requested name has returned. *)
Theorem X23_resolution_only_asks (W : World) (fuel : nat) (pkg_name : string) :
  keeps only_inquiries (get_package_recursive W fuel pkg_name).
Proof.
  apply keeps_get_package_recursive
    with (allowed := fun _ => True) (logged := fun e => is_inquiry e = true);
    try (intros; exact I); try (intros; reflexivity);
    try (intros; now apply only_inquiries_same).
  - apply only_inquiries_trans.
  - intros e s He. exists [e]. cbn. now rewrite He.
Qed.
